(** * etlgcp: retry conventions of the GCP facades

    A shallow embedding of the [etlgcp] package (storage.py, bq.py,
    publisher.py, subscriber.py).  Python strings are [string]s, the
    provider SDK is an oracle answering each client call from the history
    of events so far, and every facade function is a computation that
    emits events (client calls, log lines, sleeps) and ends with a value,
    an exception, or no result at all. *)

From Stdlib Require Import String Ascii List ZArith Lia Bool.
From Stdlib Require Import DecimalString.
Import ListNotations.
Open Scope string_scope.
Set Warnings "-register-all".

(* ================================================================= *)
(** ** Python string primitives *)

Module PyStr.

(** [s.startswith(p)] *)
Fixpoint startswith (p s : string) : bool :=
  match p with
  | EmptyString => true
  | String a p' =>
      match s with
      | EmptyString => false
      | String b s' => Ascii.eqb a b && startswith p' s'
      end
  end.

(** [s.endswith(suf)] *)
Fixpoint endswith (suf s : string) : bool :=
  String.eqb s suf ||
  match s with
  | EmptyString => false
  | String _ s' => endswith suf s'
  end.

(** [a in s] for a one-character [a]. *)
Fixpoint has_char (a : ascii) (s : string) : bool :=
  match s with
  | EmptyString => false
  | String b s' => Ascii.eqb a b || has_char a s'
  end.

(** [s.replace(old, new)] for a non-empty [old]: the scan goes left to
    right and matches do not overlap; [skip] counts the characters of a
    match that are still to be dropped. *)
Fixpoint replace_from (old new : string) (skip : nat) (s : string) : string :=
  match s with
  | EmptyString => EmptyString
  | String c s' =>
      match skip with
      | S k => replace_from old new k s'
      | O =>
          if startswith old s
          then new ++ replace_from old new (String.length old - 1) s'
          else String c (replace_from old new 0 s')
      end
  end.

Definition replace (old new s : string) : string := replace_from old new 0 s.

(** [s.split(sep)] for a one-character separator. *)
Fixpoint split (sep : ascii) (s : string) : list string :=
  match s with
  | EmptyString => [EmptyString]
  | String c s' =>
      if Ascii.eqb c sep then EmptyString :: split sep s'
      else match split sep s' with
           | seg :: rest => String c seg :: rest
           | [] => [String c EmptyString]
           end
  end.

(** [s[n:]] *)
Fixpoint slice_from (n : nat) (s : string) : string :=
  match n, s with
  | O, _ => s
  | S _, EmptyString => EmptyString
  | S k, String _ s' => slice_from k s'
  end.

(** [s[:n]] *)
Fixpoint slice_to (n : nat) (s : string) : string :=
  match n, s with
  | O, _ => EmptyString
  | S _, EmptyString => EmptyString
  | S k, String c s' => String c (slice_to k s')
  end.

(** [s[-1]], [None] standing for the IndexError of an empty string. *)
Fixpoint last_char (s : string) : option ascii :=
  match s with
  | EmptyString => None
  | String c EmptyString => Some c
  | String _ s' => last_char s'
  end.

(** [str(n)] for an integer. *)
Definition str_int (z : Z) : string := NilZero.string_of_int (Z.to_int z).

(** [str(b)] for a boolean. *)
Definition str_bool (b : bool) : string := if b then "True" else "False".

End PyStr.

(* ================================================================= *)
(** ** storage.py: locator decomposition *)

Module Locator.
Import PyStr.

Definition slash : ascii := "/"%char.

(** [Etlstorage.extractBucketFile] *)
Definition extractBucketFile (gsPath : string) : string * string :=
  let bucket := nth 0 (split slash (replace "gs://" "" gsPath)) "" in
  let filePath := slice_from (String.length bucket + 6) gsPath in
  (bucket, filePath).

(** The first segment of a split, computed directly. *)
Fixpoint first_segment (s : string) : string :=
  match s with
  | EmptyString => EmptyString
  | String c s' => if Ascii.eqb c slash then EmptyString else String c (first_segment s')
  end.

End Locator.

(* ================================================================= *)
(** ** Exceptions, client calls and events *)

Module Py.

(** The exception classes the package tells apart, and the ones its own
    code can raise. *)
Inductive exn_class :=
| NotFound              (* google.cloud.exceptions.NotFound *)
| Conflict              (* google.cloud.exceptions.Conflict *)
| AlreadyExists         (* google.api_core.exceptions.AlreadyExists, a Conflict *)
| FuturesTimeoutError   (* concurrent.futures.TimeoutError *)
| NameError
| AttributeError
| IndexError
| OSError
| OtherException        (* any other subclass of Exception *)
| KeyboardInterrupt.    (* a BaseException that is not an Exception *)

Record exn := mkExn { exn_cls : exn_class; exn_msg : string }.

(** [except Exception] *)
Definition isinstance_Exception (e : exn) : bool :=
  match exn_cls e with KeyboardInterrupt => false | _ => true end.

(** [except NotFound] *)
Definition isinstance_NotFound (e : exn) : bool :=
  match exn_cls e with NotFound => true | _ => false end.

(** [except Conflict] *)
Definition isinstance_Conflict (e : exn) : bool :=
  match exn_cls e with Conflict | AlreadyExists => true | _ => false end.

(** [except concurrent.futures.TimeoutError] *)
Definition isinstance_TimeoutError (e : exn) : bool :=
  match exn_cls e with FuturesTimeoutError => true | _ => false end.

(** google.cloud.bigquery.SchemaField(name, field_type, mode, fields) *)
Inductive SchemaField :=
| mkField (name field_type mode : string) (fields : list SchemaField).

Record LoadJobConfig := mkLoadJobConfig {
  load_write_disposition : string;
  load_source_format : option string;
  load_field_delimiter : option string;
  load_quote_character : option string;
  load_skip_leading_rows : option Z;
  load_schema : option (list SchemaField);
  load_max_bad_records : option Z }.

Record QueryJobConfig := mkQueryJobConfig {
  query_destination : string * string;
  query_use_legacy_sql : bool;
  query_write_disposition : string;
  query_allow_large_results : bool }.

Record ExtractJobConfig := mkExtractJobConfig {
  extract_compression : option string;
  extract_destination_format : string;
  extract_field_delimiter : string;
  extract_print_header : bool }.

(** The calls that leave the package: client methods, the local file
    system and the random job suffix.  The index is the type of the
    answer. *)
Inductive call : Type -> Type :=
(* google.cloud.storage *)
| get_bucket (bucket_name : string) : call unit
| blob_exists (bucket name : string) : call bool
| copy_blob (bucketIn nameIn bucketOut new_name : string) : call unit
| blob_delete (bucket name : string) : call unit
| rename_blob (bucket name new_name : string) : call unit
| get_blob (bucket name : string) : call bool      (* false: returned None *)
| download_to_filename (bucket name localPath : string) : call unit
| upload_from_filename (bucket name localPath : string) : call unit
| os_remove (localPath : string) : call unit
| list_blobs (bucket prefix : string) (delimiter : option string) : call (list string)
(* google.cloud.bigquery *)
| uuid4 : call string
| create_table (dataset table : string) (schema : list SchemaField) : call unit
| get_table (dataset table : string) : call unit
| open_rb (file_path : string) : call unit
| load_table_from_uri (uri dataset table job_id : string) (cfg : LoadJobConfig) : call string
| load_table_from_file (file_path dataset table job_id : string) (cfg : LoadJobConfig) : call string
| query (job_id sql : string) (cfg : QueryJobConfig) : call unit
| extract_table (dataset table destination_uris job_id : string) (cfg : ExtractJobConfig) : call unit
| job_result (job_id : string) (timeout : Z) : call unit
| job_errors (job_id : string) : call (option (list string))
(* google.cloud.pubsub_v1 *)
| get_topic (topic_path : string) : call unit
| create_topic (topic_path : string) : call unit
| client_publish (topic_path data attributes : string) : call unit
| get_subscription (subscription_path : string) : call unit
| create_subscription (subscription_path topic_path : string) : call unit
| client_subscribe (subscription_path callback : string) : call unit
| future_result (subscription_path : string) : call unit
| future_cancel (subscription_path : string) : call unit.

Inductive severity := DEBUG | INFO | WARNING | ERROR.

Definition label_set := list (string * string).

(** What a run leaves behind.  [EAttempt] is a ghost event: it marks one
    invocation of a function that carries a [retry] counter. *)
Inductive event :=
| EAttempt (fn : string) (retry : Z)
| ECall {R : Type} (c : call R)
| ELog (sev : severity) (text : string) (labels : label_set)
| ESleep (seconds : Z).

(** How the outside answers a call: a value, an exception, or never. *)
Inductive outcome (R : Type) :=
| Ret (r : R)
| Raise (e : exn)
| Hang.
Arguments Ret {R} r.
Arguments Raise {R} e.
Arguments Hang {R}.

(** The outside world: it answers each call knowing everything that
    happened before. *)
Definition oracle := forall R : Type, list event -> call R -> outcome R.

(** How a computation ends. *)
Inductive res (A : Type) :=
| Val (a : A)
| Exn (e : exn)
| Diverge.
Arguments Val {A} a.
Arguments Exn {A} e.
Arguments Diverge {A}.

(** A computation reads the oracle and the history and yields the events
    it adds, in order, with its end. *)
Definition M (A : Type) := oracle -> list event -> list event * res A.

Definition ret {A} (a : A) : M A := fun _ _ => ([], Val a).

Definition bind {A B} (m : M A) (f : A -> M B) : M B :=
  fun sdk h =>
    match m sdk h with
    | (es, Val a) => let (es', r) := f a sdk (h ++ es)%list in ((es ++ es')%list, r)
    | (es, Exn e) => (es, Exn e)
    | (es, Diverge) => (es, Diverge)
    end.

Definition raise {A} (e : exn) : M A := fun _ _ => ([], Exn e).

Definition diverge {A} : M A := fun _ _ => ([], Diverge).

Definition emit (ev : event) : M unit := fun _ _ => ([ev], Val tt).

Definition perform {R} (c : call R) : M R :=
  fun sdk h =>
    ([ECall c],
     match sdk R h c with
     | Ret r => Val r
     | Raise e => Exn e
     | Hang => Diverge
     end).

(** [try: m  except ... as e: handler e]; the handler decides which
    classes it takes and re-raises the others. *)
Definition try_except {A} (m : M A) (handler : exn -> M A) : M A :=
  fun sdk h =>
    match m sdk h with
    | (es, Exn e) => let (es', r) := handler e sdk (h ++ es)%list in ((es ++ es')%list, r)
    | other => other
    end.

(** [logger.log_text(text=..., severity=..., labels=...)]: the logger is
    the caller's sink.  The model takes it to record the line and to
    return: a logger that raises or blocks is outside the model, and
    every statement below on how a call ends is a statement for a logger
    that returns. *)
Definition log_text (text : string) (sev : severity) (labels : label_set) : M unit :=
  emit (ELog sev text labels).

(** [time.sleep(seconds)] *)
Definition sleep (seconds : Z) : M unit := emit (ESleep seconds).

Definition attempt (fn : string) (retry : Z) : M unit := emit (EAttempt fn retry).

Declare Scope py_scope.
Delimit Scope py_scope with py.
Notation "x <- m ;; k" := (bind m (fun x => k))
  (at level 61, m at next level, right associativity) : py_scope.
Notation "m ;; k" := (bind m (fun _ => k))
  (at level 61, right associativity) : py_scope.
Notation "' pat <- m ;; k" := (bind m (fun x => match x with pat => k end))
  (at level 61, pat pattern, m at next level, right associativity) : py_scope.

(** Projections of an event list. *)
Definition is_attempt (ev : event) : bool :=
  match ev with EAttempt _ _ => true | _ => false end.

Definition attempts (es : list event) : nat := length (filter is_attempt es).

Fixpoint sleeps (es : list event) : list Z :=
  match es with
  | [] => []
  | ESleep s :: es' => s :: sleeps es'
  | _ :: es' => sleeps es'
  end.

(** The attempts and the sleeps of a run, in the order they happen. *)
Inductive beat :=
| Attempt
| Sleep (seconds : Z).

Fixpoint rhythm (es : list event) : list beat :=
  match es with
  | [] => []
  | EAttempt _ _ :: es' => Attempt :: rhythm es'
  | ESleep s :: es' => Sleep s :: rhythm es'
  | _ :: es' => rhythm es'
  end.

(** An attempt, then [retries] times a sleep of [seconds] and an
    attempt. *)
Definition retry_rhythm (seconds : Z) (retries : nat) : list beat :=
  Attempt :: concat (repeat [Sleep seconds; Attempt] retries).

Fixpoint logs (es : list event) : list severity :=
  match es with
  | [] => []
  | ELog sev _ _ :: es' => sev :: logs es'
  | _ :: es' => logs es'
  end.

End Py.

(* ================================================================= *)
(** ** storage.py: class Etlstorage *)

Module Storage.
Import PyStr Py Locator.
Open Scope py_scope.
Open Scope Z_scope.

Section Etlstorage.

(** [self.labels] *)
Variable labels : label_set.

(** An [except Exception as e] clause that closes a handler chain. *)
Definition except_Exception {A} (handler : exn -> M A) (e : exn) : M A :=
  if isinstance_Exception e then handler e else raise e.

(** [file_exist_gs(self, gsPath)] *)
Definition file_exist_gs (gsPath : string) : M bool :=
  let (bucketName, fileName) := extractBucketFile gsPath in
  try_except
    (perform (get_bucket bucketName) ;;
     stat <- perform (blob_exists bucketName fileName) ;;
     log_text ("File " ++ fileName ++ " available in bucket " ++ bucketName
               ++ " : " ++ str_bool stat) INFO labels ;;
     ret stat)
    (except_Exception (fun e =>
       log_text ("Error in checking file " ++ fileName ++ " in GS : " ++ exn_msg e)
                ERROR labels ;;
       ret false)).

(** The [try] block of [move_file_gs]. *)
Definition move_file_gs_try (gsPathIn gsPathOut : string) (delete : bool) : M bool :=
  let (bucketIn, fileNameIn) := extractBucketFile gsPathIn in
  let (bucketOut, fileNameOut) := extractBucketFile gsPathOut in
  perform (get_bucket bucketIn) ;;
  perform (get_bucket bucketOut) ;;
  perform (copy_blob bucketIn fileNameIn bucketOut fileNameOut) ;;
  (if delete then
     perform (blob_delete bucketIn fileNameIn) ;;
     log_text ("Input file " ++ gsPathIn ++ " deleted") INFO labels
   else ret tt) ;;
  log_text ("File move GCS input " ++ gsPathIn ++ " :: output " ++ gsPathOut)
           INFO labels ;;
  ret true.

(** [move_file_gs(self, gsPathIn, gsPathOut, delete=True, retry=0)];
    [budget] bounds the depth of the recursive calls. *)
Fixpoint move_file_gs_rec (budget : nat) (gsPathIn gsPathOut : string)
         (delete : bool) (retry : Z) : M bool :=
  attempt "move_file_gs" retry ;;
  try_except (move_file_gs_try gsPathIn gsPathOut delete)
    (fun e =>
       if isinstance_NotFound e then
         log_text ("File not found when moving file in GS :: gsPath " ++ gsPathIn)
                  WARNING labels ;;
         ret false
       else except_Exception (fun e =>
         if retry <? 3 then
           log_text ("Error in file move GCS :: input " ++ gsPathIn
                     ++ " :: retry " ++ str_int (retry + 1)) WARNING labels ;;
           sleep 3 ;;
           match budget with
           | S budget' => move_file_gs_rec budget' gsPathIn gsPathOut delete (retry + 1)
           | O => diverge
           end
         else
           log_text ("Error in file move GCS " ++ exn_msg e ++ " :: input " ++ gsPathIn
                     ++ " :: Max number of attemps exceeded") ERROR labels ;;
           ret false) e).

(** The recursion stops once [retry] reaches 3, so this budget is never
    used up. *)
Definition move_file_gs (gsPathIn gsPathOut : string) (delete : bool) (retry : Z) : M bool :=
  move_file_gs_rec (Z.to_nat (3 - retry)) gsPathIn gsPathOut delete retry.

(** [copy_file_gs(self, gsPathIn, gsPathOut)] *)
Definition copy_file_gs (gsPathIn gsPathOut : string) : M bool :=
  move_file_gs gsPathIn gsPathOut false 0.

(** The [try] block of [rename_gs]. *)
Definition rename_gs_try (gsPath newName : string) : M (option string) :=
  let (bucketName, fileName) := extractBucketFile gsPath in
  perform (get_bucket bucketName) ;;
  perform (rename_blob bucketName fileName newName) ;;
  log_text ("File " ++ gsPath ++ " renamed to " ++ newName) INFO labels ;;
  let outputGsPath := "gs://" ++ bucketName ++ "/" ++ newName in
  ret (Some outputGsPath).

(** [rename_gs(self, gsPath, newName)]; [None] stands for the [False] of
    the failure path. *)
Definition rename_gs (gsPath newName : string) : M (option string) :=
  try_except (rename_gs_try gsPath newName)
    (except_Exception (fun e =>
       log_text ("Error in renaming file " ++ gsPath ++ " : " ++ exn_msg e)
                ERROR labels ;;
       ret None)).

(** The [try] block of [download_file_from_gs]. *)
Definition download_file_from_gs_try (gsPath localPath : string) : M bool :=
  let (bucketName, fileName) := extractBucketFile gsPath in
  perform (get_bucket bucketName) ;;
  blob <- perform (get_blob bucketName fileName) ;;
  (if blob : bool then perform (download_to_filename bucketName fileName localPath)
   else raise (mkExn AttributeError
     "'NoneType' object has no attribute 'download_to_filename'")) ;;
  log_text ("File saved locally from GS :: gsPath " ++ localPath) INFO labels ;;
  ret true.

(** [download_file_from_gs(self, gsPath, localPath, retry=0)] *)
Fixpoint download_file_from_gs_rec (budget : nat) (gsPath localPath : string)
         (retry : Z) : M bool :=
  attempt "download_file_from_gs" retry ;;
  try_except (download_file_from_gs_try gsPath localPath)
    (fun e =>
       if isinstance_NotFound e then
         log_text ("File not found when downloading file from GS :: gsPath " ++ gsPath)
                  WARNING labels ;;
         ret false
       else except_Exception (fun e =>
         if retry <? 3 then
           log_text ("Error in downloading file from GS :: localPath " ++ localPath
                     ++ " :: gsPath " ++ gsPath ++ " :: retry " ++ str_int (retry + 1))
                    WARNING labels ;;
           sleep 3 ;;
           match budget with
           | S budget' => download_file_from_gs_rec budget' gsPath localPath (retry + 1)
           | O => diverge
           end
         else
           log_text ("Error in downloading file from GS :: gsPath " ++ gsPath ++ " :: "
                     ++ exn_msg e ++ ". Max number of retry exceeded") ERROR labels ;;
           ret false) e).

Definition download_file_from_gs (gsPath localPath : string) (retry : Z) : M bool :=
  download_file_from_gs_rec (Z.to_nat (3 - retry)) gsPath localPath retry.

(** The [try] block of [upload_file_to_gs]. *)
Definition upload_file_to_gs_try (localPath gsPath : string) (delete : bool) : M bool :=
  let (bucketName, fileName) := extractBucketFile gsPath in
  perform (get_bucket bucketName) ;;
  perform (upload_from_filename bucketName fileName localPath) ;;
  (if delete then
     perform (os_remove localPath) ;;
     log_text ("Local file deleted : " ++ localPath) INFO labels
   else ret tt) ;;
  log_text ("File upload to GS :: gsPath " ++ gsPath) INFO labels ;;
  ret true.

(** [upload_file_to_gs(self, localPath, gsPath, delete=False, retry=0)];
    its only handler is [except Exception]. *)
Fixpoint upload_file_to_gs_rec (budget : nat) (localPath gsPath : string)
         (delete : bool) (retry : Z) : M bool :=
  attempt "upload_file_to_gs" retry ;;
  try_except (upload_file_to_gs_try localPath gsPath delete)
    (except_Exception (fun e =>
       if retry <? 3 then
         log_text ("Error in uploading file to GS :: local_path " ++ localPath
                   ++ " :: gsPath " ++ gsPath ++ " :: retry " ++ str_int (retry + 1))
                  WARNING labels ;;
         sleep 3 ;;
         match budget with
         | S budget' => upload_file_to_gs_rec budget' localPath gsPath delete (retry + 1)
         | O => diverge
         end
       else
         log_text ("Error in uploading file to GS :: local_path " ++ localPath ++ " :: "
                   ++ exn_msg e) ERROR labels ;;
         ret false)).

Definition upload_file_to_gs (localPath gsPath : string) (delete : bool) (retry : Z) : M bool :=
  upload_file_to_gs_rec (Z.to_nat (3 - retry)) localPath gsPath delete retry.

(** The comprehension [[... for f in blobs if f.name[-1] != "/"]]. *)
Fixpoint files_of_blobs (bucketName : string) (names : list string) : M (list string) :=
  match names with
  | [] => ret []
  | name :: names' =>
      match last_char name with
      | None => raise (mkExn IndexError "string index out of range")
      | Some c =>
          rest <- files_of_blobs bucketName names' ;;
          ret (if Ascii.eqb c slash then rest
               else ("gs://" ++ bucketName ++ "/" ++ name) :: rest)
      end
  end.

(** [list_files_from_gs(self, gsPath, recurse=False)]; [None] is the
    [None] of the failure path. *)
Definition list_files_from_gs (gsPath : string) (recurse : bool) : M (option (list string)) :=
  let gsPath' :=
    match last_char gsPath with
    | Some c => if Ascii.eqb c slash then gsPath else gsPath ++ "/"
    | None => gsPath
    end in
  try_except
    (match last_char gsPath with
     | None => raise (mkExn IndexError "string index out of range")
     | Some _ =>
         let (bucketName, fileName) := extractBucketFile gsPath' in
         perform (get_bucket bucketName) ;;
         names <- perform (list_blobs bucketName fileName
                             (if recurse then None else Some "/")) ;;
         allfiles <- files_of_blobs bucketName names ;;
         log_text ("Listing " ++ str_int (Z.of_nat (length allfiles))
                   ++ " files from gsPath " ++ gsPath' ++ " in recurse = "
                   ++ str_bool recurse ++ " mode.") INFO labels ;;
         ret (Some allfiles)
     end)
    (except_Exception (fun e =>
       log_text ("Error in list files from GS :: gsPath " ++ gsPath' ++ " :: " ++ exn_msg e)
                ERROR labels ;;
       ret None)).

(** The [try] block of [delete_file_from_gs]. *)
Definition delete_file_from_gs_try (gsPath : string) : M bool :=
  let (bucketName, fileName) := extractBucketFile gsPath in
  perform (get_bucket bucketName) ;;
  perform (blob_delete bucketName fileName) ;;
  log_text ("File deleted from GS :: gsPath " ++ fileName) INFO labels ;;
  ret true.

(** [delete_file_from_gs(self, gsPath, retry=0)] *)
Fixpoint delete_file_from_gs_rec (budget : nat) (gsPath : string) (retry : Z) : M bool :=
  attempt "delete_file_from_gs" retry ;;
  try_except (delete_file_from_gs_try gsPath)
    (fun e =>
       if isinstance_NotFound e then
         log_text ("File not found when deleting file from GS :: gsPath " ++ gsPath)
                  WARNING labels ;;
         ret false
       else except_Exception (fun e =>
         if retry <? 2 then
           log_text ("Error in deleting file from GS :: gsPath " ++ gsPath
                     ++ " :: retry " ++ str_int (retry + 1)) WARNING labels ;;
           sleep 3 ;;
           match budget with
           | S budget' => delete_file_from_gs_rec budget' gsPath (retry + 1)
           | O => diverge
           end
         else
           log_text ("Error in deleting file from GS :: gsPath " ++ gsPath ++ " :: "
                     ++ exn_msg e) ERROR labels ;;
           ret false) e).

Definition delete_file_from_gs (gsPath : string) (retry : Z) : M bool :=
  delete_file_from_gs_rec (Z.to_nat (2 - retry)) gsPath retry.

End Etlstorage.
End Storage.

(* ================================================================= *)
(** ** bq.py: class Etlbq *)

Module Bq.
Import PyStr Py.
Import Storage.
Open Scope py_scope.
Open Scope Z_scope.

(** The values a schema dictionary can hold. *)
Inductive pyval :=
| PStr (s : string)
| PDict (items : list (string * pyval))
| PList (elems : list pyval)
| POther (str_of type_of : string).

(** The pair every job function returns: [(job_id, job.errors)], with
    [None] for Python's [None]. *)
Definition job_pair := (option string * option (list string))%type.

Section Etlbq.

(** [self.labels] and [self.timeout] (180 unless the caller chose). *)
Variable labels : label_set.
Variable timeout : Z.

(** The confirmation loop of [createwait_table]:
    [while not tableExist: try: get_table ... except: sleep(5)].
    The bare [except] takes every exception; [fuel] bounds the number of
    iterations the model follows. *)
Fixpoint wait_table (fuel : nat) (dataset_name table_name : string)
         (tableExist : bool) : M unit :=
  if tableExist then ret tt
  else
    match fuel with
    | O => diverge
    | S fuel' =>
        tableExist' <- try_except
          (perform (get_table dataset_name table_name) ;; ret true)
          (fun _ => sleep 5 ;; ret false) ;;
        wait_table fuel' dataset_name table_name tableExist'
    end.

(** The [try] block of [createwait_table]. *)
Definition createwait_table_try (fuel : nat) (dataset_name table_name : string)
           (schema_bq : list SchemaField) : M bool :=
  perform (create_table dataset_name table_name schema_bq) ;;
  wait_table fuel dataset_name table_name false ;;
  log_text ("Table " ++ table_name ++ " created in BQ") INFO labels ;;
  ret true.

(** [createwait_table(self, dataset_name, table_name, schema_bq, retry=0)] *)
Fixpoint createwait_table_rec (budget fuel : nat) (dataset_name table_name : string)
         (schema_bq : list SchemaField) (retry : Z) : M bool :=
  attempt "createwait_table" retry ;;
  try_except (createwait_table_try fuel dataset_name table_name schema_bq)
    (fun e =>
       if isinstance_Conflict e then
         log_text ("Table " ++ table_name ++ " already exists in BQ") INFO labels ;;
         ret true
       else except_Exception (fun e =>
         if retry <? 3 then
           log_text ("Error in create table : " ++ dataset_name ++ " " ++ table_name
                     ++ ". Attempt " ++ str_int (retry + 1)) WARNING labels ;;
           sleep 5 ;;
           match budget with
           | S budget' =>
               createwait_table_rec budget' fuel dataset_name table_name schema_bq (retry + 1)
           | O => diverge
           end
         else
           log_text ("Error in create table : " ++ dataset_name ++ " " ++ table_name
                     ++ " : " ++ exn_msg e ++ ". Max number of attempts exceeded")
                    ERROR labels ;;
           ret false) e).

Definition createwait_table (fuel : nat) (dataset_name table_name : string)
           (schema_bq : list SchemaField) (retry : Z) : M bool :=
  createwait_table_rec (Z.to_nat (3 - retry)) fuel dataset_name table_name schema_bq retry.

(** The comprehension of [build_schema_from_list]: [field[2]] is read
    only when [mode_fields is None], and is an IndexError on a pair. *)
Fixpoint fields_of_list (schema_list : list (string * string * option string))
         (mode_fields : option string) : res (list SchemaField) :=
  match schema_list with
  | [] => Val []
  | (name, type, mode) :: rest =>
      match (match mode_fields with
             | Some m => Some m
             | None => mode
             end) with
      | None => Exn (mkExn IndexError "tuple index out of range")
      | Some m =>
          match fields_of_list rest mode_fields with
          | Val fs => Val (mkField name type m [] :: fs)
          | other => other
          end
      end
  end.

(** [build_schema_from_list(self, schema_list, mode_fields="NULLABLE")] *)
Definition build_schema_from_list (schema_list : list (string * string * option string))
           (mode_fields : option string) : M (list SchemaField) :=
  let schema_bq : list SchemaField := [] in
  try_except
    (schema_bq <- (fun _ _ => ([], fields_of_list schema_list mode_fields)) ;;
     log_text "BQ schema build from list" INFO labels ;;
     ret schema_bq)
    (except_Exception (fun e =>
       log_text ("Error in build schema from list :: error " ++ exn_msg e) ERROR labels ;;
       ret schema_bq)).

(** Whether the name [unicode] is bound where [build_schema_from_dict]
    runs.  bq.py neither defines nor imports it, so it is bound only if
    the interpreter has it as a builtin. *)
Variable unicode_bound : bool.

Definition unicode_NameError : exn := mkExn NameError "name 'unicode' is not defined".

(** [isinstance(v, str) or isinstance(v, unicode)] on a [v] that is not
    a [str]: the second operand is evaluated. *)
Definition or_isinstance_unicode : option exn :=
  if unicode_bound then None else Some unicode_NameError.

Definition type_name (v : pyval) : string :=
  match v with
  | PStr _ => "str"
  | PDict _ => "dict"
  | PList _ => "list"
  | POther _ t => t
  end.

(** [build_schema_from_dict] on an argument that is not a dictionary:
    [schema_dict.items()] is an AttributeError, caught by the function's
    own handler. *)
Definition build_schema_from_non_dict (v : pyval) : M (list SchemaField) :=
  log_text ("Error in build BQ schema from dict :: error '" ++ type_name v
            ++ "' object has no attribute 'items'") ERROR labels ;;
  ret [].

(** The inner loop [for val in v] over a list value [v] of key [k].  The
    state is the list [schema_bq] built so far, with the exception that
    stopped the loop, if any. *)
Fixpoint vals_loop (k : string) (v : pyval) (vals : list pyval)
         (schema_bq : list SchemaField) : M (list SchemaField * option exn) :=
  match vals with
  | [] => ret (schema_bq, None)
  | val :: vals' =>
      match val with
      | PStr s => vals_loop k v vals' (schema_bq ++ [mkField k s "REPEATED" []])%list
      | _ =>
          match or_isinstance_unicode with
          | Some e => ret (schema_bq, Some e)
          | None =>
              fields <- build_schema_from_non_dict v ;;
              vals_loop k v vals' (schema_bq ++ [mkField k "RECORD" "REPEATED" fields])%list
          end
      end
  end.

(** [build_schema_from_dict(self, schema_dict, mode_fields="NULLABLE")] *)
Fixpoint build_schema_from_dict (schema_dict : pyval) (mode_fields : string)
         {struct schema_dict} : M (list SchemaField) :=
  match schema_dict with
  | PDict items =>
      let fix items_loop (items : list (string * pyval)) (schema_bq : list SchemaField)
            {struct items} : M (list SchemaField * option exn) :=
        match items with
        | [] => ret (schema_bq, None)
        | (k, v) :: rest =>
            match v with
            | PStr s => items_loop rest (schema_bq ++ [mkField k s mode_fields []])%list
            | _ =>
                match or_isinstance_unicode with
                | Some e => ret (schema_bq, Some e)
                | None =>
                    match v with
                    | PDict _ =>
                        fields <- build_schema_from_dict v mode_fields ;;
                        items_loop rest
                          (schema_bq ++ [mkField k "RECORD" "NULLABLE" fields])%list
                    | PList vals =>
                        r <- vals_loop k v vals schema_bq ;;
                        match r with
                        | (schema_bq', None) => items_loop rest schema_bq'
                        | stopped => ret stopped
                        end
                    | _ =>
                        log_text ("Unusual value used in schema "
                                  ++ match v with POther s _ => s | _ => "" end
                                  ++ " :: type " ++ type_name v) ERROR labels ;;
                        items_loop rest schema_bq
                    end
                end
            end
        end in
      r <- items_loop items [] ;;
      match r with
      | (schema_bq, None) =>
          log_text "BQ schema build from dict" INFO labels ;;
          ret schema_bq
      | (schema_bq, Some e) =>
          except_Exception (fun e =>
            log_text ("Error in build BQ schema from dict :: error " ++ exn_msg e)
                     ERROR labels ;;
            ret schema_bq) e
      end
  | _ => build_schema_from_non_dict schema_dict
  end.

(** What [k] failed passes of the confirmation loop leave behind. *)
Definition failed_checks (dataset_name table_name : string) (k : nat) : list event :=
  concat (repeat [ECall (get_table dataset_name table_name); ESleep 5] k).

(** [except concurrent.futures.TimeoutError as e] around [job.result]. *)
Definition wait_job (job_id : string) (text : exn -> string) : M unit :=
  try_except (perform (job_result job_id timeout))
    (fun e =>
       if isinstance_TimeoutError e then log_text (text e) WARNING labels
       else raise e).

(** The job configuration [insert_file] builds. *)
Definition load_config (schema_bq : list SchemaField)
           (format_input write_disposition field_delimiter quote_character : string)
           (leading_rows max_bad_records : Z) : LoadJobConfig :=
  let c0 := mkLoadJobConfig write_disposition None None None None None None in
  let c1 := if String.eqb format_input "CSV"
            then mkLoadJobConfig write_disposition (Some "text/csv")
                   (Some field_delimiter) (Some quote_character) (Some leading_rows)
                   (Some schema_bq) None
            else c0 in
  let c2 := if String.eqb format_input "JSON"
            then mkLoadJobConfig (load_write_disposition c1) (Some "NEWLINE_DELIMITED_JSON")
                   (load_field_delimiter c1) (load_quote_character c1)
                   (load_skip_leading_rows c1) (Some schema_bq) None
            else c1 in
  let c3 := if String.eqb format_input "PARQUET"
            then mkLoadJobConfig (load_write_disposition c2) (Some "PARQUET")
                   (load_field_delimiter c2) (load_quote_character c2)
                   (load_skip_leading_rows c2) (load_schema c2) None
            else c2 in
  mkLoadJobConfig (load_write_disposition c3) (load_source_format c3)
    (load_field_delimiter c3) (load_quote_character c3) (load_skip_leading_rows c3)
    (load_schema c3) (Some max_bad_records).

(** The [try] block of [insert_file]. *)
Definition insert_file_try (file_path dataset_name table_name : string)
           (schema_bq : list SchemaField)
           (format_input write_disposition field_delimiter quote_character : string)
           (leading_rows max_bad_records : Z) : M job_pair :=
  u <- perform uuid4 ;;
  let job_id := dataset_name ++ "_" ++ table_name ++ "_loadFile-" ++ u in
  let job_config := load_config schema_bq format_input write_disposition
                      field_delimiter quote_character leading_rows max_bad_records in
  job_id <- (if String.eqb (slice_to 3 file_path) "gs:" then
               perform (load_table_from_uri file_path dataset_name table_name
                          job_id job_config)
             else
               perform (open_rb file_path) ;;
               perform (load_table_from_file file_path dataset_name table_name
                          job_id job_config)) ;;
  wait_job job_id (fun e =>
    "Insert data to bq JobId " ++ job_id
    ++ " - Loaded rows, error waiting for complete : " ++ file_path ++ " : "
    ++ exn_msg e) ;;
  log_text ("Insert data to bq JobId " ++ job_id ++ " - Loaded rows from " ++ file_path
            ++ " into " ++ dataset_name ++ "." ++ table_name) INFO labels ;;
  errors <- perform (job_errors job_id) ;;
  ret (Some job_id, errors).

(** [insert_file(self, file_path, dataset_name, table_name, schema_bq,
    format_input, write_disposition, field_delimiter, quote_character,
    leading_rows, max_bad_records, retry=0)] *)
Fixpoint insert_file_rec (budget : nat) (file_path dataset_name table_name : string)
         (schema_bq : list SchemaField)
         (format_input write_disposition field_delimiter quote_character : string)
         (leading_rows max_bad_records retry : Z) : M job_pair :=
  attempt "insert_file" retry ;;
  try_except
    (insert_file_try file_path dataset_name table_name schema_bq format_input
       write_disposition field_delimiter quote_character leading_rows max_bad_records)
    (except_Exception (fun e =>
       if retry <? 3 then
         log_text ("Error in send to BQ : " ++ file_path ++ " : " ++ exn_msg e
                   ++ ". Retry " ++ str_int (retry + 1)) WARNING labels ;;
         sleep 5 ;;
         match budget with
         | S budget' =>
             insert_file_rec budget' file_path dataset_name table_name schema_bq
               format_input write_disposition field_delimiter quote_character
               leading_rows max_bad_records (retry + 1)
         | O => diverge
         end
       else
         log_text ("Error in send to BQ : " ++ file_path ++ " : " ++ exn_msg e
                   ++ ". Max number of attempts exceeded") ERROR labels ;;
         ret (None, None))).

Definition insert_file (file_path dataset_name table_name : string)
           (schema_bq : list SchemaField)
           (format_input write_disposition field_delimiter quote_character : string)
           (leading_rows max_bad_records retry : Z) : M job_pair :=
  insert_file_rec (Z.to_nat (3 - retry)) file_path dataset_name table_name schema_bq
    format_input write_disposition field_delimiter quote_character leading_rows
    max_bad_records retry.

(** The [try] block of [run_queryjob]. *)
Definition run_queryjob_try (dataset_name table_name sql : string)
           (use_legacy_sql : bool) (write_disposition : string)
           (allow_large_results : bool) : M job_pair :=
  u <- perform uuid4 ;;
  let job_id := dataset_name ++ "_" ++ table_name ++ "_fromQuery-" ++ u in
  let job_config := mkQueryJobConfig (dataset_name, table_name) use_legacy_sql
                      write_disposition allow_large_results in
  perform (query job_id sql job_config) ;;
  wait_job job_id (fun e =>
    "Run query bq JobId " ++ job_id ++ " - query, error waiting for complete : "
    ++ sql ++ " : " ++ exn_msg e) ;;
  log_text ("Run query bq JobId " ++ job_id ++ " - query : " ++ sql ++ " into "
            ++ dataset_name ++ "." ++ table_name) INFO labels ;;
  errors <- perform (job_errors job_id) ;;
  ret (Some job_id, errors).

(** [run_queryjob(self, dataset_name, table_name, query, use_legacy_sql,
    write_disposition, allow_large_results, retry=0)] *)
Fixpoint run_queryjob_rec (budget : nat) (dataset_name table_name sql : string)
         (use_legacy_sql : bool) (write_disposition : string)
         (allow_large_results : bool) (retry : Z) : M job_pair :=
  attempt "run_queryjob" retry ;;
  try_except
    (run_queryjob_try dataset_name table_name sql use_legacy_sql write_disposition
       allow_large_results)
    (except_Exception (fun e =>
       if retry <? 3 then
         log_text ("Error in query bq : " ++ sql ++ " : " ++ exn_msg e
                   ++ ". Retry " ++ str_int (retry + 1)) WARNING labels ;;
         sleep 5 ;;
         match budget with
         | S budget' =>
             run_queryjob_rec budget' dataset_name table_name sql use_legacy_sql
               write_disposition allow_large_results (retry + 1)
         | O => diverge
         end
       else
         log_text ("Error in query bq : " ++ sql ++ " : " ++ exn_msg e
                   ++ ". Max number of attempts exceeded") ERROR labels ;;
         ret (None, None))).

Definition run_queryjob (dataset_name table_name sql : string)
           (use_legacy_sql : bool) (write_disposition : string)
           (allow_large_results : bool) (retry : Z) : M job_pair :=
  run_queryjob_rec (Z.to_nat (3 - retry)) dataset_name table_name sql use_legacy_sql
    write_disposition allow_large_results retry.

(** The [try] block of [run_extractjob]. *)
Definition run_extractjob_try (destination_uris dataset_name table_name : string)
           (compression : option string) (destination_format field_delimiter : string)
           (print_header : bool) : M job_pair :=
  u <- perform uuid4 ;;
  let job_id := dataset_name ++ "_" ++ table_name ++ "_extractTable-" ++ u in
  let job_config := mkExtractJobConfig compression destination_format field_delimiter
                      print_header in
  perform (extract_table dataset_name table_name destination_uris job_id job_config) ;;
  wait_job job_id (fun e =>
    "Extract bq table JobId " ++ job_id ++ " - extraction error waiting for complete : "
    ++ dataset_name ++ "." ++ table_name ++ " : " ++ exn_msg e) ;;
  log_text ("Extract bq table JobId " ++ job_id ++ " - extraction " ++ dataset_name
            ++ "." ++ table_name ++ " to " ++ destination_uris) INFO labels ;;
  errors <- perform (job_errors job_id) ;;
  ret (Some job_id, errors).

(** [run_extractjob(self, destination_uris, dataset_name, table_name,
    compression, destination_format, field_delimiter, print_header,
    retry=0)] *)
Fixpoint run_extractjob_rec (budget : nat)
         (destination_uris dataset_name table_name : string)
         (compression : option string) (destination_format field_delimiter : string)
         (print_header : bool) (retry : Z) : M job_pair :=
  attempt "run_extractjob" retry ;;
  try_except
    (run_extractjob_try destination_uris dataset_name table_name compression
       destination_format field_delimiter print_header)
    (except_Exception (fun e =>
       if retry <? 3 then
         log_text ("Error in extract bq table : " ++ dataset_name ++ "." ++ table_name
                   ++ " : " ++ exn_msg e ++ ". Retry " ++ str_int (retry + 1))
                  WARNING labels ;;
         sleep 5 ;;
         match budget with
         | S budget' =>
             run_extractjob_rec budget' destination_uris dataset_name table_name
               compression destination_format field_delimiter print_header (retry + 1)
         | O => diverge
         end
       else
         log_text ("Error in extract bq table : " ++ dataset_name ++ "." ++ table_name
                   ++ " : " ++ exn_msg e ++ ". Max number of attempts exceeded")
                  ERROR labels ;;
         ret (None, None))).

Definition run_extractjob (destination_uris dataset_name table_name : string)
           (compression : option string) (destination_format field_delimiter : string)
           (print_header : bool) (retry : Z) : M job_pair :=
  run_extractjob_rec (Z.to_nat (3 - retry)) destination_uris dataset_name table_name
    compression destination_format field_delimiter print_header retry.

End Etlbq.
End Bq.

(* ================================================================= *)
(** ** publisher.py *)

Module Publisher.
Import PyStr Py.
Import Storage.
Open Scope py_scope.
Open Scope Z_scope.

Section Publish.

(** [json.dumps] on a dictionary of strings, and the text [str.format]
    gives for a [bytes] value: library functions, taken as they are. *)
Variable json_dumps : list (string * string) -> string.
Variable bytes_repr : string -> string.

(** [publisher_client.topic_path(project_id, topic_name)] *)
Definition topic_path (project_id topic_name : string) : string :=
  "projects/" ++ project_id ++ "/topics/" ++ topic_name.

(** The first [try] of [publish]; its [except:] is bare and its handler
    runs outside any [try]. *)
Definition ensure_topic (topic : string) : M string :=
  try_except
    (perform (get_topic topic) ;; ret "topic exists")
    (fun _ => perform (create_topic topic) ;; ret "topic created").

(** The second [try] block of [publish]. *)
Definition publish_try (labels : label_set) (topic data attrs : string) : M bool :=
  perform (client_publish topic data attrs) ;;
  log_text ("Message : " ++ bytes_repr data ++ " published with attributes : " ++ attrs)
           INFO labels ;;
  ret true.

(** [publish(logger, labels, publisher_client, project_id, topic_name,
    message, attributes=dict(), retry=0)]; [attributes] is [None] when
    the caller passed something that is not a dictionary.  The
    arguments have the types of the docstring: [message] is a [str]
    that [encode("utf-8")] accepts, and a dictionary of attributes
    holds strings, so that [json.dumps] returns.  Both run before the
    [try] block: a message or attributes on which they raise are
    outside the model. *)
Fixpoint publish_rec (budget : nat) (labels : label_set)
         (project_id topic_name message : string)
         (attributes : option (list (string * string))) (retry : Z) : M bool :=
  attempt "publish" retry ;;
  let topic := topic_path project_id topic_name in
  topic_request_status <- ensure_topic topic ;;
  log_text ("Topic request status : " ++ topic_request_status) DEBUG labels ;;
  let data := message in
  attrs <- match attributes with
           | Some d => ret (json_dumps d)
           | None =>
               log_text "Error : attributes ignored in message (must be a dictonary)"
                        ERROR labels ;;
               ret ""
           end ;;
  try_except (publish_try labels topic data attrs)
    (except_Exception (fun e =>
       log_text ("Error in publish : " ++ exn_msg e ++ " :: retry : "
                 ++ str_int (retry + 1)) ERROR labels ;;
       if retry <? 2 then
         sleep 10 ;;
         match budget with
         | S budget' =>
             publish_rec budget' labels project_id topic_name message attributes (retry + 1)
         | O => diverge
         end
       else ret false)).

Definition publish (labels : label_set) (project_id topic_name message : string)
           (attributes : option (list (string * string))) (retry : Z) : M bool :=
  publish_rec (Z.to_nat (2 - retry)) labels project_id topic_name message attributes retry.

End Publish.
End Publisher.

(* ================================================================= *)
(** ** subscriber.py *)

Module Subscriber.
Import PyStr Py.
Open Scope py_scope.

Section Subscribe.

(** Whether the module global [publisher_client] is bound when
    [subscribe] runs.  subscriber.py assigns it only under
    [if __name__ == "__main__"], and it is not a parameter of
    [subscribe]. *)
Variable publisher_client_bound : bool.

(** [subscriber_client.subscription_path(project_id, subscription_name)] *)
Definition subscription_path (project_id subscription_name : string) : string :=
  "projects/" ++ project_id ++ "/subscriptions/" ++ subscription_name.

(** The first [try] of [subscribe], with its bare [except:]. *)
Definition ensure_subscription (project_id topic_name subscription : string) : M string :=
  try_except
    (perform (get_subscription subscription) ;; ret "Subscription exists")
    (fun _ =>
       topic <- (if publisher_client_bound
                 then ret (Publisher.topic_path project_id topic_name)
                 else raise (mkExn NameError "name 'publisher_client' is not defined")) ;;
       perform (create_subscription subscription topic) ;;
       ret "Subscription created").

(** [subscribe(logger, labels, subscriber_client, project_id, topic_name,
    subscription_name, callback)] *)
Definition subscribe (labels : label_set)
           (project_id topic_name subscription_name callback : string) : M unit :=
  let subscription := subscription_path project_id subscription_name in
  subscription_request_status <- ensure_subscription project_id topic_name subscription ;;
  log_text ("Subscription request status : " ++ subscription_request_status)
           DEBUG labels ;;
  perform (client_subscribe subscription callback) ;;
  try_except (perform (future_result subscription))
    (fun e =>
       match exn_cls e with
       | KeyboardInterrupt => perform (future_cancel subscription)
       | _ => raise e
       end).

End Subscribe.
End Subscriber.

(* ================================================================= *)
(** ** The facade operations as one family *)

Module Facade.
Import Py.
Open Scope Z_scope.

(** What a facade instance and its interpreter fix once and for all. *)
Record config := mkConfig {
  labels : label_set;
  timeout : Z;
  fuel : nat;
  json_dumps : list (string * string) -> string;
  bytes_repr : string -> string;
  unicode_bound : bool;
  publisher_client_bound : bool }.

(** A facade function with its arguments, the [retry] counter apart. *)
Inductive operation :=
| Op_file_exist_gs (gsPath : string)
| Op_move_file_gs (gsPathIn gsPathOut : string) (delete : bool)
| Op_copy_file_gs (gsPathIn gsPathOut : string)
| Op_rename_gs (gsPath newName : string)
| Op_download_file_from_gs (gsPath localPath : string)
| Op_upload_file_to_gs (localPath gsPath : string) (delete : bool)
| Op_list_files_from_gs (gsPath : string) (recurse : bool)
| Op_delete_file_from_gs (gsPath : string)
| Op_createwait_table (dataset_name table_name : string) (schema_bq : list SchemaField)
| Op_build_schema_from_list (schema_list : list (string * string * option string))
    (mode_fields : option string)
| Op_build_schema_from_dict (schema_dict : Bq.pyval) (mode_fields : string)
| Op_insert_file (file_path dataset_name table_name : string)
    (schema_bq : list SchemaField)
    (format_input write_disposition field_delimiter quote_character : string)
    (leading_rows max_bad_records : Z)
| Op_run_queryjob (dataset_name table_name sql : string) (use_legacy_sql : bool)
    (write_disposition : string) (allow_large_results : bool)
| Op_run_extractjob (destination_uris dataset_name table_name : string)
    (compression : option string) (destination_format field_delimiter : string)
    (print_header : bool)
| Op_publish (project_id topic_name message : string)
    (attributes : option (list (string * string)))
| Op_subscribe (project_id topic_name subscription_name callback : string).

(** What a facade function returns. *)
Inductive pyres :=
| RBool (b : bool)
| RPath (p : option string)            (* a locator, or False *)
| RFiles (l : option (list string))    (* a list, or None *)
| RSchema (s : list SchemaField)
| RJob (p : Bq.job_pair)
| RNone.

Definition fmap {A B} (f : A -> B) (m : M A) : M B :=
  fun sdk h =>
    let (es, r) := m sdk h in
    (es, match r with Val a => Val (f a) | Exn e => Exn e | Diverge => Diverge end).

(** The invocation that makes attempt number [retry] of an operation.
    Functions without a [retry] parameter have the one attempt;
    [copy_file_gs] has those of the [move_file_gs] call it is. *)
Definition invoke (cf : config) (op : operation) (retry : Z) : M pyres :=
  match op with
  | Op_file_exist_gs p => fmap RBool (Storage.file_exist_gs (labels cf) p)
  | Op_move_file_gs a b d => fmap RBool (Storage.move_file_gs (labels cf) a b d retry)
  | Op_copy_file_gs a b => fmap RBool (Storage.move_file_gs (labels cf) a b false retry)
  | Op_rename_gs p n => fmap RPath (Storage.rename_gs (labels cf) p n)
  | Op_download_file_from_gs p l =>
      fmap RBool (Storage.download_file_from_gs (labels cf) p l retry)
  | Op_upload_file_to_gs l p d =>
      fmap RBool (Storage.upload_file_to_gs (labels cf) l p d retry)
  | Op_list_files_from_gs p r => fmap RFiles (Storage.list_files_from_gs (labels cf) p r)
  | Op_delete_file_from_gs p => fmap RBool (Storage.delete_file_from_gs (labels cf) p retry)
  | Op_createwait_table d t s =>
      fmap RBool (Bq.createwait_table (labels cf) (fuel cf) d t s retry)
  | Op_build_schema_from_list l m => fmap RSchema (Bq.build_schema_from_list (labels cf) l m)
  | Op_build_schema_from_dict d m =>
      fmap RSchema (Bq.build_schema_from_dict (labels cf) (unicode_bound cf) d m)
  | Op_insert_file p d t s f w fd q lr mb =>
      fmap RJob (Bq.insert_file (labels cf) (timeout cf) p d t s f w fd q lr mb retry)
  | Op_run_queryjob d t q l w a =>
      fmap RJob (Bq.run_queryjob (labels cf) (timeout cf) d t q l w a retry)
  | Op_run_extractjob u d t c f fd ph =>
      fmap RJob (Bq.run_extractjob (labels cf) (timeout cf) u d t c f fd ph retry)
  | Op_publish p t m a =>
      fmap RBool (Publisher.publish (json_dumps cf) (bytes_repr cf) (labels cf) p t m a retry)
  | Op_subscribe p t s c =>
      fmap (fun _ => RNone) (Subscriber.subscribe (publisher_client_bound cf) (labels cf) p t s c)
  end.

(** [attributes] as [publish] hands them to the client. *)
Definition publish_attrs (cf : config) (attributes : option (list (string * string))) : string :=
  match attributes with Some d => json_dumps cf d | None => "" end.

(** The [try] block whose exceptions the operation's handlers take. *)
Definition guarded (cf : config) (op : operation) : M pyres :=
  match op with
  | Op_move_file_gs a b d => fmap RBool (Storage.move_file_gs_try (labels cf) a b d)
  | Op_copy_file_gs a b => fmap RBool (Storage.move_file_gs_try (labels cf) a b false)
  | Op_rename_gs p n => fmap RPath (Storage.rename_gs_try (labels cf) p n)
  | Op_download_file_from_gs p l => fmap RBool (Storage.download_file_from_gs_try (labels cf) p l)
  | Op_upload_file_to_gs l p d => fmap RBool (Storage.upload_file_to_gs_try (labels cf) l p d)
  | Op_delete_file_from_gs p => fmap RBool (Storage.delete_file_from_gs_try (labels cf) p)
  | Op_createwait_table d t s => fmap RBool (Bq.createwait_table_try (labels cf) (fuel cf) d t s)
  | Op_insert_file p d t s f w fd q lr mb =>
      fmap RJob (Bq.insert_file_try (labels cf) (timeout cf) p d t s f w fd q lr mb)
  | Op_run_queryjob d t q l w a =>
      fmap RJob (Bq.run_queryjob_try (labels cf) (timeout cf) d t q l w a)
  | Op_run_extractjob u d t c f fd ph =>
      fmap RJob (Bq.run_extractjob_try (labels cf) (timeout cf) u d t c f fd ph)
  | Op_publish p t m a =>
      fmap RBool (Publisher.publish_try (bytes_repr cf) (labels cf)
                    (Publisher.topic_path p t) m (publish_attrs cf a))
  | _ => Py.ret RNone
  end.

(** What an attempt runs before its guarded block, outside any handler:
    only [publish] has such a part, the topic check. *)
Definition unguarded (op : operation) : M unit :=
  match op with
  | Op_publish p t _ _ => fmap (fun _ => tt) (Publisher.ensure_topic (Publisher.topic_path p t))
  | _ => Py.ret tt
  end.

(** The retry ceiling of an operation, when it has one. *)
Definition ceiling (op : operation) : option nat :=
  match op with
  | Op_move_file_gs _ _ _ | Op_download_file_from_gs _ _ | Op_upload_file_to_gs _ _ _
  | Op_createwait_table _ _ _ | Op_insert_file _ _ _ _ _ _ _ _ _ _
  | Op_run_queryjob _ _ _ _ _ _ | Op_run_extractjob _ _ _ _ _ _ _ => Some 3%nat
  | Op_delete_file_from_gs _ | Op_publish _ _ _ _ => Some 2%nat
  | _ => None
  end.

(** The seconds slept before a retry. *)
Definition delay (op : operation) : Z :=
  match op with
  | Op_createwait_table _ _ _ | Op_insert_file _ _ _ _ _ _ _ _ _ _
  | Op_run_queryjob _ _ _ _ _ _ | Op_run_extractjob _ _ _ _ _ _ _ => 5
  | Op_publish _ _ _ _ => 10
  | _ => 3
  end.

(** The failure sentinel. *)
Definition failure (op : operation) : pyres :=
  match op with
  | Op_rename_gs _ _ => RPath None
  | Op_list_files_from_gs _ _ => RFiles None
  | Op_build_schema_from_list _ _ | Op_build_schema_from_dict _ _ => RSchema []
  | Op_insert_file _ _ _ _ _ _ _ _ _ _ | Op_run_queryjob _ _ _ _ _ _
  | Op_run_extractjob _ _ _ _ _ _ _ => RJob (None, None)
  | Op_subscribe _ _ _ _ => RNone
  | _ => RBool false
  end.

(** The function name an attempt is recorded under. *)
Definition fn_name (op : operation) : string :=
  match op with
  | Op_file_exist_gs _ => "file_exist_gs"
  | Op_move_file_gs _ _ _ | Op_copy_file_gs _ _ => "move_file_gs"
  | Op_rename_gs _ _ => "rename_gs"
  | Op_download_file_from_gs _ _ => "download_file_from_gs"
  | Op_upload_file_to_gs _ _ _ => "upload_file_to_gs"
  | Op_list_files_from_gs _ _ => "list_files_from_gs"
  | Op_delete_file_from_gs _ => "delete_file_from_gs"
  | Op_createwait_table _ _ _ => "createwait_table"
  | Op_build_schema_from_list _ _ => "build_schema_from_list"
  | Op_build_schema_from_dict _ _ => "build_schema_from_dict"
  | Op_insert_file _ _ _ _ _ _ _ _ _ _ => "insert_file"
  | Op_run_queryjob _ _ _ _ _ _ => "run_queryjob"
  | Op_run_extractjob _ _ _ _ _ _ _ => "run_extractjob"
  | Op_publish _ _ _ _ => "publish"
  | Op_subscribe _ _ _ _ => "subscribe"
  end.

(** The ghost event an attempt starts with, for the functions that
    carry a [retry] counter. *)
Definition entry (op : operation) (retry : Z) : list event :=
  match op with
  | Op_move_file_gs _ _ _ | Op_copy_file_gs _ _ | Op_download_file_from_gs _ _
  | Op_upload_file_to_gs _ _ _ | Op_delete_file_from_gs _ | Op_createwait_table _ _ _
  | Op_insert_file _ _ _ _ _ _ _ _ _ _ | Op_run_queryjob _ _ _ _ _ _
  | Op_run_extractjob _ _ _ _ _ _ _ | Op_publish _ _ _ _ => [EAttempt (fn_name op) retry]
  | _ => []
  end.

(** The object-storage operations on which a NotFound ends the call at
    once, with the severity of the line they log for it. *)
Definition not_found_final (op : operation) : option severity :=
  match op with
  | Op_move_file_gs _ _ _ | Op_copy_file_gs _ _ | Op_download_file_from_gs _ _
  | Op_delete_file_from_gs _ => Some WARNING
  | Op_rename_gs _ _ => Some ERROR
  | _ => None
  end.

(** The three job functions. *)
Definition is_job (op : operation) : bool :=
  match op with
  | Op_insert_file _ _ _ _ _ _ _ _ _ _ | Op_run_queryjob _ _ _ _ _ _
  | Op_run_extractjob _ _ _ _ _ _ _ => true
  | _ => false
  end.

(** An outside world that takes every job: the random suffix is [u],
    files open, a submitted job keeps the identifier it was given, and
    its error list reads [errs]. *)
Definition accepts_jobs (sdk : oracle) (u : string) (errs : option (list string)) : Prop :=
  (forall h, sdk _ h uuid4 = Ret u)
  /\ (forall h p, sdk _ h (open_rb p) = Ret tt)
  /\ (forall h p d t id cfg, sdk _ h (load_table_from_uri p d t id cfg) = Ret id)
  /\ (forall h p d t id cfg, sdk _ h (load_table_from_file p d t id cfg) = Ret id)
  /\ (forall h id q cfg, sdk _ h (query id q cfg) = Ret tt)
  /\ (forall h d t u' id cfg, sdk _ h (extract_table d t u' id cfg) = Ret tt)
  /\ (forall h id, sdk _ h (job_errors id) = Ret errs).

(** Every wait for a job runs into the timeout. *)
Definition wait_times_out (sdk : oracle) (e : exn) : Prop :=
  isinstance_TimeoutError e = true
  /\ forall h id timeout, sdk _ h (job_result id timeout) = Raise e.

(** Every wait for a job sees it complete. *)
Definition wait_completes (sdk : oracle) : Prop :=
  forall h id timeout, sdk _ h (job_result id timeout) = Ret tt.

(** The two ways a wait can go, with the lines it logs. *)
Definition waits (sdk : oracle) (waited : list severity) : Prop :=
  (wait_completes sdk /\ waited = [])
  \/ ((exists e, wait_times_out sdk e) /\ waited = [WARNING]).

(** An outside world whose calls raise nothing outside the [Exception]
    hierarchy. *)
Definition raises_only_Exception (sdk : oracle) : Prop :=
  forall R h (c : call R) e, sdk R h c = Raise e -> isinstance_Exception e = true.

(** An outside world that answers every call. *)
Definition responsive (sdk : oracle) : Prop :=
  forall R h (c : call R), sdk R h c <> Hang.

(** The operations whose client calls all sit in a [try] block with an
    [except Exception] clause, once what [unguarded] names has run. *)
Definition guards_calls (op : operation) : bool :=
  match op with
  | Op_subscribe _ _ _ _ => false
  | _ => true
  end.

(** The one operation with a loop of its own. *)
Definition loops (op : operation) : bool :=
  match op with
  | Op_createwait_table _ _ _ => true
  | _ => false
  end.

(** An exception of the class the retry convention retries. *)
Definition retriable (e : exn) : bool :=
  isinstance_Exception e && negb (isinstance_NotFound e) && negb (isinstance_Conflict e).

(** On this oracle the computation ends, at every history, with an
    exception of the retried class. *)
Definition always_raises {A} (m : M A) (sdk : oracle) : Prop :=
  forall h, exists es e, m sdk h = (es, Exn e) /\ retriable e = true.

(** On this oracle the computation ends, at every history, with a value
    and after client calls and log lines only. *)
Definition always_returns {A} (m : M A) (sdk : oracle) : Prop :=
  forall h, exists es a, m sdk h = (es, Val a) /\ rhythm es = [].

(** The name of the method a call event invokes. *)
Definition call_name {R} (c : call R) : string :=
  match c with
  | get_bucket _ => "get_bucket"
  | blob_exists _ _ => "exists"
  | copy_blob _ _ _ _ => "copy_blob"
  | blob_delete _ _ => "delete"
  | rename_blob _ _ _ => "rename_blob"
  | get_blob _ _ => "get_blob"
  | download_to_filename _ _ _ => "download_to_filename"
  | upload_from_filename _ _ _ => "upload_from_filename"
  | os_remove _ => "os.remove"
  | list_blobs _ _ _ => "list_blobs"
  | uuid4 => "uuid4"
  | create_table _ _ _ => "create_table"
  | get_table _ _ => "get_table"
  | open_rb _ => "open"
  | load_table_from_uri _ _ _ _ _ => "load_table_from_uri"
  | load_table_from_file _ _ _ _ _ => "load_table_from_file"
  | query _ _ _ => "query"
  | extract_table _ _ _ _ _ => "extract_table"
  | job_result _ _ => "result"
  | job_errors _ => "errors"
  | get_topic _ => "get_topic"
  | create_topic _ => "create_topic"
  | client_publish _ _ _ => "publish"
  | get_subscription _ => "get_subscription"
  | create_subscription _ _ => "create_subscription"
  | client_subscribe _ _ => "subscribe"
  | future_result _ => "future.result"
  | future_cancel _ => "future.cancel"
  end.

(** How many calls of a method an event list holds. *)
Fixpoint count_calls (name : string) (es : list event) : nat :=
  match es with
  | [] => 0%nat
  | ECall c :: es' =>
      ((if String.eqb (call_name c) name then 1 else 0) + count_calls name es')%nat
  | _ :: es' => count_calls name es'
  end.

End Facade.

(* ================================================================= *)
(** ** How computations end *)

Module Outcome.
Import Py.

(** A computation that neither sleeps nor starts an attempt. *)
Definition silent {A} (m : M A) : Prop :=
  forall sdk h, rhythm (fst (m sdk h)) = [].

(** A computation that has neither slept nor started an attempt whenever
    it ends with an exception. *)
Definition quiet_raise {A} (m : M A) : Prop :=
  forall sdk h es e, m sdk h = (es, Exn e) -> rhythm es = [].

(** How the computation ends on [sdk], from any history: with a value in
    [Q] or an exception in [E]; [d] tells whether it may have no end. *)
Definition ends (sdk : oracle) (d : Prop) {A} (Q : A -> Prop) (E : exn -> Prop)
           (m : M A) : Prop :=
  forall h,
    match snd (m sdk h) with
    | Val a => Q a
    | Exn e => E e
    | Diverge => d
    end.

Definition any {A} : A -> Prop := fun _ => True.
Definition caught : exn -> Prop := fun e => isinstance_Exception e = true.
Definition none : exn -> Prop := fun _ => False.

(** What stops a loop of [build_schema_from_dict] is an Exception. *)
Definition stopped (r : list SchemaField * option exn) : Prop :=
  match snd r with Some e => caught e | None => True end.

(** Induction on a schema value, through the items of a dictionary. *)
Fixpoint pyval_nested_ind (P : Bq.pyval -> Prop)
         (HStr : forall s, P (Bq.PStr s))
         (HDict : forall items, Forall (fun kv => P (snd kv)) items -> P (Bq.PDict items))
         (HList : forall elems, P (Bq.PList elems))
         (HOther : forall s t, P (Bq.POther s t))
         (v : Bq.pyval) {struct v} : P v :=
  match v with
  | Bq.PStr s => HStr s
  | Bq.PDict items =>
      HDict items
        ((fix go (l : list (string * Bq.pyval)) : Forall (fun kv => P (snd kv)) l :=
            match l with
            | [] => Forall_nil _
            | kv :: l' =>
                Forall_cons kv
                  (pyval_nested_ind P HStr HDict HList HOther (snd kv)) (go l')
            end) items)
  | Bq.PList elems => HList elems
  | Bq.POther s t => HOther s t
  end.

End Outcome.

(* ================================================================= *)
(** ** Sample configurations and outside worlds *)

Module Samples.
Import Py.
Open Scope Z_scope.

(** A facade as the package is used: imported on Python 3, default
    timeout.  The samples publish with empty attributes, for which
    [json.dumps] gives ["{}"], and messages of printable ASCII without
    quotes or backslashes, which [str.format] shows as [b'...']. *)
Definition imported : Facade.config :=
  Facade.mkConfig [("test", "myvalue")] 180 8 (fun _ => "{}")
    (fun s => "b'" ++ s ++ "'") false false.

(** Every call succeeds. *)
Definition all_ok : oracle := fun R _ c =>
  match c in call R return outcome R with
  | get_bucket _ => Ret tt
  | blob_exists _ _ => Ret true
  | copy_blob _ _ _ _ => Ret tt
  | blob_delete _ _ => Ret tt
  | rename_blob _ _ _ => Ret tt
  | get_blob _ _ => Ret true
  | download_to_filename _ _ _ => Ret tt
  | upload_from_filename _ _ _ => Ret tt
  | os_remove _ => Ret tt
  | list_blobs _ _ _ => Ret []
  | uuid4 => Ret "0000"
  | create_table _ _ _ => Ret tt
  | get_table _ _ => Ret tt
  | open_rb _ => Ret tt
  | load_table_from_uri _ _ _ job_id _ => Ret job_id
  | load_table_from_file _ _ _ job_id _ => Ret job_id
  | query _ _ _ => Ret tt
  | extract_table _ _ _ _ _ => Ret tt
  | job_result _ _ => Ret tt
  | job_errors _ => Ret None
  | get_topic _ => Ret tt
  | create_topic _ => Ret tt
  | client_publish _ _ _ => Ret tt
  | get_subscription _ => Ret tt
  | create_subscription _ _ => Ret tt
  | client_subscribe _ _ => Ret tt
  | future_result _ => Ret tt
  | future_cancel _ => Ret tt
  end.

(** Every call fails with the same exception. *)
Definition all_raise (e : exn) : oracle := fun R _ _ => Raise e.

Definition unavailable : exn := mkExn OtherException "503 Service Unavailable".
Definition not_found : exn := mkExn NotFound "404 Not Found".
Definition already_exists : exn := mkExn Conflict "409 Already Exists".
Definition timed_out : exn := mkExn FuturesTimeoutError "".
Definition interrupted : exn := mkExn KeyboardInterrupt "".

(** The topic exists, and publishing to it fails every time. *)
Definition publish_outage : oracle := fun R h c =>
  match c in call R return outcome R with
  | client_publish _ _ _ => Raise unavailable
  | c' => all_ok _ h c'
  end.

(** The table is already there. *)
Definition table_exists : oracle := fun R h c =>
  match c in call R return outcome R with
  | create_table _ _ _ => Raise already_exists
  | c' => all_ok _ h c'
  end.

(** The topic is not there yet. *)
Definition topic_missing : oracle := fun R h c =>
  match c in call R return outcome R with
  | get_topic _ => Raise not_found
  | c' => all_ok _ h c'
  end.

(** The topic check fails for a passing reason and the topic is there. *)
Definition topic_check_down : oracle := fun R h c =>
  match c in call R return outcome R with
  | get_topic _ => Raise unavailable
  | create_topic _ => Raise (mkExn AlreadyExists "409 Resource already exists")
  | c' => all_ok _ h c'
  end.

(** The table is created and never becomes visible. *)
Definition table_never_visible : oracle := fun R h c =>
  match c in call R return outcome R with
  | get_table _ _ => Raise not_found
  | c' => all_ok _ h c'
  end.

(** The topic is missing and may not be created. *)
Definition topic_forbidden : oracle := fun R h c =>
  match c in call R return outcome R with
  | get_topic _ => Raise not_found
  | create_topic _ => Raise (mkExn OtherException "403 Permission denied")
  | c' => all_ok _ h c'
  end.

(** The stream of messages breaks. *)
Definition stream_breaks : oracle := fun R h c =>
  match c in call R return outcome R with
  | future_result _ => Raise unavailable
  | c' => all_ok _ h c'
  end.

(** Jobs are accepted and none completes within the timeout. *)
Definition jobs_time_out : oracle := fun R h c =>
  match c in call R return outcome R with
  | job_result _ _ => Raise timed_out
  | c' => all_ok _ h c'
  end.

(** The subscription is not there yet. *)
Definition subscription_missing : oracle := fun R h c =>
  match c in call R return outcome R with
  | get_subscription _ => Raise not_found
  | c' => all_ok _ h c'
  end.

(** The dictionary of the schema example. *)
Definition nested_schema : Bq.pyval :=
  Bq.PDict [("a", Bq.PStr "STRING"); ("b", Bq.PDict [("c", Bq.PStr "INTEGER")])].

End Samples.

(* ================================================================= *)
(** ** Further readings of the operations *)

Module Derived.
Import PyStr Py Locator Facade.
Open Scope Z_scope.

(** The retried functions that log a WARNING and then sleep before the
    next attempt: all of them but [publish]. *)
Definition warns_then_sleeps (op : operation) : bool :=
  match op with
  | Op_publish _ _ _ _ => false
  | _ => match ceiling op with Some _ => true | None => false end
  end.

(** The retried functions whose only handler is [except Exception]. *)
Definition only_except_Exception (op : operation) : bool :=
  match op with
  | Op_upload_file_to_gs _ _ _ | Op_insert_file _ _ _ _ _ _ _ _ _ _
  | Op_run_queryjob _ _ _ _ _ _ | Op_run_extractjob _ _ _ _ _ _ _ => true
  | _ => false
  end.

(** The functions whose whole body is one guarded block. *)
Definition has_guarded_block (op : operation) : bool :=
  match op with
  | Op_copy_file_gs _ _ | Op_rename_gs _ _ => true
  | _ => warns_then_sleeps op
  end.

(** On this oracle the computation ends, at every history, with an
    exception that [except Exception] takes. *)
Definition always_fails {A} (m : M A) (sdk : oracle) : Prop :=
  forall h, exists es e, m sdk h = (es, Exn e) /\ isinstance_Exception e = true.

(** A computation that never makes the call of this name. *)
Definition never_calls (name : string) {A} (m : M A) : Prop :=
  forall sdk h, count_calls name (fst (m sdk h)) = 0%nat.

(** A blob name that stands for a directory: it ends with ['/']. *)
Definition is_dir (name : string) : bool :=
  match last_char name with
  | Some c => Ascii.eqb c slash
  | None => false
  end.

(** The locators [list_files_from_gs] builds from the names of a
    listing. *)
Definition listed (bucket : string) (names : list string) : list string :=
  map (fun name => "gs://" ++ bucket ++ "/" ++ name)
      (filter (fun name => negb (is_dir name)) names).

(** The path [list_files_from_gs] works on: the argument with a ['/']
    at its end. *)
Definition as_directory (gsPath : string) : string :=
  match last_char gsPath with
  | Some c => if Ascii.eqb c slash then gsPath else gsPath ++ "/"
  | None => gsPath
  end.

(** One outage: every call fails until the first sleep, and succeeds
    after it. *)
Definition blip : oracle := fun R h c =>
  match sleeps h with
  | [] => Raise Samples.unavailable
  | _ :: _ => Samples.all_ok R h c
  end.

(** A listing that holds a file, a directory marker and a nested file;
    every other call succeeds. *)
Definition dir_listing : oracle := fun R h c =>
  match c in call R return outcome R with
  | list_blobs _ _ _ => Ret ["dir/a.csv"; "dir/sub/"; "dir/sub/b.csv"]
  | c' => Samples.all_ok _ h c'
  end.

(** The two calls that remove something: [blob.delete] in the bucket
    and [os.remove] on the local disk. *)
Definition is_removal (name : string) : bool :=
  String.eqb name "delete" || String.eqb name "os.remove".

(** The removal an operation is written to make: [move_file_gs] with
    [delete=True] and [delete_file_from_gs] delete a blob,
    [upload_file_to_gs] with [delete=True] removes the local file. *)
Definition removes (op : operation) (name : string) : bool :=
  match op with
  | Op_move_file_gs _ _ true | Op_delete_file_from_gs _ => String.eqb name "delete"
  | Op_upload_file_to_gs _ _ true => String.eqb name "os.remove"
  | _ => false
  end.

(** The client call that submits the job of a job function. *)
Definition submission (op : operation) : string :=
  match op with
  | Op_insert_file file_path _ _ _ _ _ _ _ _ _ =>
      if String.eqb (slice_to 3 file_path) "gs:" then "load_table_from_uri"
      else "load_table_from_file"
  | Op_run_queryjob _ _ _ _ _ _ => "query"
  | Op_run_extractjob _ _ _ _ _ _ _ => "extract_table"
  | _ => ""
  end.

(** The copy goes through and the source may not be deleted. *)
Definition delete_denied : oracle := fun R h c =>
  match c in call R return outcome R with
  | blob_delete _ _ => Raise (mkExn OtherException "403 Forbidden")
  | c' => Samples.all_ok _ h c'
  end.

(** The bucket is there and the blob is not: [get_blob] returns
    [None]. *)
Definition blob_missing : oracle := fun R h c =>
  match c in call R return outcome R with
  | get_blob _ _ => Ret false
  | c' => Samples.all_ok _ h c'
  end.

(** Jobs are accepted and the wait for them breaks. *)
Definition wait_breaks : oracle := fun R h c =>
  match c in call R return outcome R with
  | job_result _ _ => Raise Samples.unavailable
  | c' => Samples.all_ok _ h c'
  end.

(** The mode [build_schema_from_list] gives the field of a tuple:
    [mode_fields], or the third item of the tuple when [mode_fields] is
    [None]; a pair has no third item. *)
Definition mode_of (mode_fields : option string)
           (field : string * string * option string) : option string :=
  match mode_fields with
  | Some m => Some m
  | None => snd field
  end.

Definition has_mode (mode_fields : option string)
           (field : string * string * option string) : bool :=
  match mode_of mode_fields field with Some _ => true | None => false end.

Definition field_of (mode_fields : option string)
           (field : string * string * option string) : SchemaField :=
  mkField (fst (fst field)) (snd (fst field))
    (match mode_of mode_fields field with Some m => m | None => "" end) [].

Definition is_str (v : Bq.pyval) : bool :=
  match v with Bq.PStr _ => true | _ => false end.

(** The fields of the items of a dictionary that come before its first
    value that is not a string. *)
Fixpoint leading_fields (mode_fields : string) (items : list (string * Bq.pyval))
  : list SchemaField :=
  match items with
  | (k, Bq.PStr s) :: rest => mkField k s mode_fields [] :: leading_fields mode_fields rest
  | _ => []
  end.

(** The way of loading that [insert_file] does not take for a path: a
    path whose first three characters are ["gs:"] is handed over as a
    URI, any other path is opened as a local file. *)
Definition other_source (file_path : string) : list string :=
  if String.eqb (slice_to 3 file_path) "gs:" then ["open"; "load_table_from_file"]
  else ["load_table_from_uri"].

(** The user interrupts the wait for messages. *)
Definition stream_interrupted : oracle := fun R h c =>
  match c in call R return outcome R with
  | future_result _ => Raise Samples.interrupted
  | c' => Samples.all_ok _ h c'
  end.

(** The topic is there and is gone when the message is published. *)
Definition topic_vanishes : oracle := fun R h c =>
  match c in call R return outcome R with
  | client_publish _ _ _ => Raise Samples.not_found
  | c' => Samples.all_ok _ h c'
  end.

(** An event that is no log line, or a log line with these labels. *)
Definition labelled (labels : label_set) (ev : event) : Prop :=
  match ev with
  | ELog _ _ l => l = labels
  | _ => True
  end.

(** Every event of every run of the computation passes. *)
Definition always (P : event -> Prop) {A} (m : M A) : Prop :=
  forall sdk h, Forall P (fst (m sdk h)).

(** The severity of the line a failed attempt logs when a retry
    follows: WARNING, and ERROR in [publish]. *)
Definition retry_severity (op : operation) : severity :=
  match op with
  | Op_publish _ _ _ _ => ERROR
  | _ => WARNING
  end.

(** What an attempt logs between its unguarded part and its guarded
    block: [publish] reports the topic check at DEBUG, and attributes
    that are no dictionary at ERROR; the other operations log nothing
    there. *)
Definition interlude (cf : config) (op : operation) (mid : list event) : Prop :=
  match op with
  | Op_publish _ _ _ attributes =>
      exists status,
        mid = ELog DEBUG ("Topic request status : " ++ status) (labels cf)
              :: match attributes with
                 | Some _ => []
                 | None =>
                     [ELog ERROR
                        "Error : attributes ignored in message (must be a dictonary)"
                        (labels cf)]
                 end
  | _ => mid = []
  end.

(** The events [es] of [n + 1] failed attempts in a row, from the
    attempt numbered [retry] at the history [h].  Each attempt is its
    entry, its unguarded part run to its end, the lines of the
    interlude, and its guarded block run from there and ended by an
    exception.  After the block comes one line; a retry is that line, a
    sleep of the delay, and the next attempt on the history so far; the
    last attempt ends with its line, at ERROR. *)
Fixpoint exhausts (cf : config) (op : operation) (sdk : oracle) (n : nat) (retry : Z)
         (h es : list event) : Prop :=
  exists pre mid blk e text,
    unguarded op sdk (h ++ entry op retry)%list = (pre, Val tt)
    /\ interlude cf op mid
    /\ guarded cf op sdk (h ++ entry op retry ++ pre ++ mid)%list = (blk, Exn e)
    /\ match n with
       | O =>
           es = (entry op retry ++ pre ++ mid ++ blk
                   ++ [ELog ERROR text (labels cf)])%list
       | S n' =>
           exists rest,
             es = (entry op retry ++ pre ++ mid ++ blk
                     ++ [ELog (retry_severity op) text (labels cf); ESleep (delay op)]
                     ++ rest)%list
             /\ exhausts cf op sdk n' (retry + 1)
                  (h ++ entry op retry ++ pre ++ mid ++ blk
                     ++ [ELog (retry_severity op) text (labels cf); ESleep (delay op)])%list
                  rest
       end.

(** [file_exist_gs] with the method of the logger as a parameter: the
    function of storage.py line for line, read for a logger that may
    raise. *)
Definition file_exist_gs_over (log : string -> severity -> label_set -> M unit)
           (labels : label_set) (gsPath : string) : M bool :=
  let (bucketName, fileName) := extractBucketFile gsPath in
  try_except
    (bind (perform (get_bucket bucketName)) (fun _ =>
     bind (perform (blob_exists bucketName fileName)) (fun stat =>
     bind (log ("File " ++ fileName ++ " available in bucket " ++ bucketName
                ++ " : " ++ str_bool stat) INFO labels) (fun _ =>
     ret stat))))
    (Storage.except_Exception (fun e =>
       bind (log ("Error in checking file " ++ fileName ++ " in GS : " ++ exn_msg e)
                 ERROR labels) (fun _ =>
       ret false))).

(** [publish] with the logger and the two library calls it makes
    before its [try] block as parameters: the function of publisher.py
    line for line, read for a logger, a [message.encode] and a
    [json.dumps] that may raise. *)
Fixpoint publish_over (log : string -> severity -> label_set -> M unit)
         (encode : string -> M string) (dumps : list (string * string) -> M string)
         (bytes_repr : string -> string) (budget : nat) (labels : label_set)
         (project_id topic_name message : string)
         (attributes : option (list (string * string))) (retry : Z) : M bool :=
  bind (attempt "publish" retry) (fun _ =>
  let topic := Publisher.topic_path project_id topic_name in
  bind (Publisher.ensure_topic topic) (fun topic_request_status =>
  bind (log ("Topic request status : " ++ topic_request_status) DEBUG labels) (fun _ =>
  bind (encode message) (fun data =>
  bind (match attributes with
        | Some d => dumps d
        | None =>
            bind (log "Error : attributes ignored in message (must be a dictonary)"
                      ERROR labels) (fun _ => ret "")
        end) (fun attrs =>
  try_except
    (bind (perform (client_publish topic data attrs)) (fun _ =>
     bind (log ("Message : " ++ bytes_repr data ++ " published with attributes : "
                ++ attrs) INFO labels) (fun _ =>
     ret true)))
    (Storage.except_Exception (fun e =>
       bind (log ("Error in publish : " ++ exn_msg e ++ " :: retry : "
                  ++ str_int (retry + 1)) ERROR labels) (fun _ =>
       if retry <? 2 then
         bind (sleep 10) (fun _ =>
         match budget with
         | S budget' =>
             publish_over log encode dumps bytes_repr budget' labels project_id
               topic_name message attributes (retry + 1)
         | O => diverge
         end)
       else ret false)))))))).

End Derived.

(* ================================================================= *)
(** * Properties *)

(* ================================================================= *)
(** ** Locator decomposition *)

Module LocatorFacts.
Import PyStr Locator.

Lemma split_first_segment (s : string) :
  nth 0 (split slash s) "" = first_segment s.
Proof.
  induction s as [|c s IH]; simpl; [reflexivity|].
  destruct (Ascii.eqb c slash); [reflexivity|].
  destruct (split slash s) as [|seg rest]; simpl in *; now rewrite <- IH.
Qed.

Lemma replace_scheme_prefix (r : string) :
  replace "gs://" "" ("gs://" ++ r) = replace "gs://" "" r.
Proof. reflexivity. Qed.

Lemma slice_from_app (a b : string) :
  slice_from (String.length a) (a ++ b) = b.
Proof. induction a; simpl; auto. Qed.

Lemma endswith_tail (suf : string) (a : ascii) (s : string) :
  endswith suf (String a s) = false -> endswith suf s = false.
Proof.
  simpl. intros H. apply orb_false_iff in H. tauto.
Qed.

(** A match of ["gs://"] that starts inside a slash-free container name
    can only be the name's last three characters and the two slashes that
    follow it. *)
Lemma scheme_inside_container (c p : string) :
  has_char slash c = false ->
  startswith "gs://" (c ++ String slash p) = true ->
  endswith "gs:" c = true /\ startswith "/" p = true.
Proof.
  intros Hc H.
  destruct c as [|a1 c]; [discriminate H|].
  cbn [startswith String.append] in H. apply andb_prop in H. destruct H as [E1 H].
  destruct c as [|a2 c]; [discriminate H|].
  cbn [startswith String.append] in H. apply andb_prop in H. destruct H as [E2 H].
  destruct c as [|a3 c]; [discriminate H|].
  cbn [startswith String.append] in H. apply andb_prop in H. destruct H as [E3 H].
  apply Ascii.eqb_eq in E1, E2, E3. subst a1 a2 a3.
  destruct c as [|a4 c].
  - cbn [startswith String.append] in H.
    destruct p as [|q p]; [discriminate H|].
    apply andb_prop in H. destruct H as [_ H].
    apply andb_prop in H. destruct H as [Hq _].
    cbn [startswith]. rewrite Hq. split; reflexivity.
  - cbn [startswith String.append] in H. apply andb_prop in H. destruct H as [E4 _].
    apply Ascii.eqb_eq in E4. subst a4. discriminate Hc.
Qed.

Lemma first_segment_container (c p : string) :
  has_char slash c = false ->
  endswith "gs:" c && startswith "/" p = false ->
  first_segment (replace "gs://" "" (c ++ String slash p)) = c.
Proof.
  unfold replace. induction c as [|a c IH]; intros Hc Hclash.
  - reflexivity.
  - destruct (startswith "gs://" (String a c ++ String slash p)) eqn:Hpre.
    + apply scheme_inside_container in Hpre; [|exact Hc].
      destruct Hpre as [H1 H2]. rewrite H1, H2 in Hclash. discriminate.
    + cbn [has_char] in Hc. apply orb_false_iff in Hc. destruct Hc as [Ha Hc].
      change (String a c ++ String slash p) with (String a (c ++ String slash p)) in *.
      cbn [replace_from]. rewrite Hpre. cbn [first_segment].
      rewrite Ascii.eqb_sym, Ha. f_equal. apply IH; [exact Hc|].
      destruct (startswith "/" p); [|now rewrite andb_false_r].
      rewrite andb_true_r in *. now apply endswith_tail in Hclash.
Qed.

Lemma first_segment_of_container (c p : string) :
  has_char slash c = false ->
  first_segment (c ++ String slash p) = c.
Proof.
  induction c as [|a c IH]; intros Hc; [reflexivity|].
  cbn [has_char] in Hc. apply orb_false_iff in Hc. destruct Hc as [Ha Hc].
  cbn [String.append first_segment]. rewrite Ascii.eqb_sym, Ha.
  f_equal. now apply IH.
Qed.

(** C7, as amended.  For a container [c] without ['/'] and a non-empty
    item path [p], unless [c] ends with ["gs:"] while [p] begins with
    ['/'], [extractBucketFile] splits ["gs://" + c + "/" + p] into
    [(c, p)]; re-prefixing the pair gives the locator back; the container
    is the first path segment after the scheme and the item path is all
    that follows it. *)
Theorem extractBucketFile_decomposes (c p : string) :
  p <> "" ->
  has_char slash c = false ->
  endswith "gs:" c && startswith "/" p = false ->
  let gsPath := "gs://" ++ c ++ "/" ++ p in
  extractBucketFile gsPath = (c, p) /\
  "gs://" ++ fst (extractBucketFile gsPath) ++ "/" ++ snd (extractBucketFile gsPath) = gsPath /\
  fst (extractBucketFile gsPath) = first_segment (slice_from 5 gsPath) /\
  snd (extractBucketFile gsPath)
  = slice_from (String.length (fst (extractBucketFile gsPath)) + 1) (slice_from 5 gsPath).
Proof.
  intros _ Hc Hclash gsPath.
  assert (E : extractBucketFile gsPath = (c, p)).
  { unfold extractBucketFile, gsPath.
    rewrite replace_scheme_prefix, split_first_segment.
    change (c ++ "/" ++ p) with (c ++ String slash p).
    rewrite (first_segment_container c p Hc Hclash).
    f_equal.
    change ("gs://" ++ c ++ String slash p)
      with (String "g" (String "s" (String ":" (String "/" (String "/" (c ++ String slash p)))))).
    rewrite Nat.add_comm. cbn [Nat.add slice_from].
    change (String slash p) with ("/" ++ p).
    induction c as [|a c IH]; [reflexivity|].
    cbn [String.length String.append slice_from].
    apply IH.
    - cbn [has_char] in Hc. apply orb_false_iff in Hc. tauto.
    - destruct (startswith "/" p); [|now rewrite andb_false_r].
      rewrite andb_true_r in *. now apply endswith_tail in Hclash. }
  rewrite E. cbn [fst snd]. repeat split.
  - unfold gsPath. cbn [slice_from String.append].
    symmetry. now apply first_segment_of_container.
  - unfold gsPath. cbn [slice_from String.append].
    rewrite Nat.add_comm. cbn [Nat.add slice_from].
    clear. induction c as [|a c IH]; [reflexivity|].
    cbn [String.length String.append slice_from]. destruct c; exact IH.
Qed.

(** The theorem at ["gs://container/a/b/c"]. *)
Lemma extractBucketFile_decomposes_witness :
  extractBucketFile "gs://container/a/b/c" = ("container", "a/b/c").
Proof.
  apply (extractBucketFile_decomposes "container" "a/b/c");
    [discriminate | reflexivity | reflexivity].
Defined.

(** C7 as first stated fails: the container ["gs:"] has no ['/'] and the
    item path ["/x"] is not empty, yet [replace] removes the second
    ["gs://"] of ["gs://gs://x"] as well and the container comes out as
    ["x"]. *)
Lemma extractBucketFile_counterexample :
  has_char slash "gs:" = false /\ "/x" <> "" /\
  "gs://" ++ "gs:" ++ "/" ++ "/x" = "gs://gs://x" /\
  extractBucketFile ("gs://" ++ "gs:" ++ "/" ++ "/x") = ("x", "://x") /\
  extractBucketFile ("gs://" ++ "gs:" ++ "/" ++ "/x") <> ("gs:", "/x").
Proof.
  split; [reflexivity|]. split; [discriminate|].
  split; [reflexivity|]. split; [reflexivity|]. discriminate.
Qed.

End LocatorFacts.

(* ================================================================= *)
(** ** Runs and their event lists *)

Module RunFacts.
Import Py Outcome.

Lemma attempts_app (es es' : list event) :
  attempts (es ++ es') = (attempts es + attempts es')%nat.
Proof. unfold attempts. now rewrite filter_app, length_app. Qed.

Lemma attempts_cons (ev : event) (es : list event) :
  attempts (ev :: es) = ((if is_attempt ev then 1 else 0) + attempts es)%nat.
Proof. unfold attempts. cbn [filter]. now destruct (is_attempt ev). Qed.

Lemma attempts_nil : attempts [] = 0%nat.
Proof. reflexivity. Qed.

Lemma sleeps_app (es es' : list event) :
  sleeps (es ++ es') = (sleeps es ++ sleeps es')%list.
Proof.
  induction es as [|ev es IH]; [reflexivity|].
  destruct ev; simpl; now rewrite ?IH.
Qed.

Lemma logs_app (es es' : list event) :
  logs (es ++ es') = (logs es ++ logs es')%list.
Proof.
  induction es as [|ev es IH]; [reflexivity|].
  destruct ev; simpl; now rewrite ?IH.
Qed.

Lemma rhythm_app (es es' : list event) :
  rhythm (es ++ es') = (rhythm es ++ rhythm es')%list.
Proof.
  induction es as [|ev es IH]; [reflexivity|].
  destruct ev; simpl; now rewrite ?IH.
Qed.

(** The counts of a run follow from its rhythm. *)
Lemma attempts_of_rhythm (es : list event) :
  attempts es = length (filter (fun b => match b with Attempt => true | _ => false end)
                          (rhythm es)).
Proof.
  induction es as [|ev es IH]; [reflexivity|].
  rewrite attempts_cons. destruct ev; cbn [is_attempt rhythm filter length]; lia.
Qed.

Lemma sleeps_of_rhythm (es : list event) :
  sleeps es = flat_map (fun b => match b with Sleep s => [s] | Attempt => [] end)
                (rhythm es).
Proof.
  induction es as [|ev es IH]; [reflexivity|].
  destruct ev; cbn [sleeps rhythm flat_map app]; now rewrite IH.
Qed.

Lemma retry_rhythm_counts (es : list event) (seconds : Z) (retries : nat) :
  rhythm es = retry_rhythm seconds retries ->
  attempts es = (retries + 1)%nat /\ sleeps es = repeat seconds retries.
Proof.
  intros H. rewrite attempts_of_rhythm, sleeps_of_rhythm, H. unfold retry_rhythm.
  cbn [filter flat_map length app]. clear H.
  induction retries as [|n [IHa IHs]]; [split; reflexivity|].
  cbn [repeat concat app filter flat_map length]. rewrite IHs.
  split; [cbn [length] in *; lia | reflexivity].
Qed.

Lemma count_calls_app (name : string) (es es' : list event) :
  Facade.count_calls name (es ++ es')
  = (Facade.count_calls name es + Facade.count_calls name es')%nat.
Proof.
  induction es as [|ev es IH]; [reflexivity|].
  destruct ev; simpl; rewrite ?IH; lia.
Qed.

Lemma silent_ret {A} (a : A) : silent (ret a).
Proof. intros sdk h. reflexivity. Qed.

Lemma silent_raise {A} (e : exn) : silent (@raise A e).
Proof. intros sdk h. reflexivity. Qed.

Lemma silent_perform {R} (c : call R) : silent (perform c).
Proof. intros sdk h. reflexivity. Qed.

Lemma silent_log_text (text : string) (sev : severity) (labels : label_set) :
  silent (log_text text sev labels).
Proof. intros sdk h. reflexivity. Qed.

Lemma silent_bind {A B} (m : M A) (f : A -> M B) :
  silent m -> (forall a, silent (f a)) -> silent (bind m f).
Proof.
  intros Hm Hf sdk h. unfold bind.
  specialize (Hm sdk h). destruct (m sdk h) as [es [a| |]]; try exact Hm.
  specialize (Hf a sdk (h ++ es)%list). destruct (f a sdk (h ++ es)%list) as [es' r].
  cbn [fst] in *. now rewrite rhythm_app, Hm, Hf.
Qed.

Lemma silent_try_except {A} (m : M A) (handler : exn -> M A) :
  silent m -> (forall e, silent (handler e)) -> silent (try_except m handler).
Proof.
  intros Hm Hh sdk h. unfold try_except.
  specialize (Hm sdk h). destruct (m sdk h) as [es [a|e|]]; try exact Hm.
  specialize (Hh e sdk (h ++ es)%list). destruct (handler e sdk (h ++ es)%list) as [es' r].
  cbn [fst] in *. now rewrite rhythm_app, Hm, Hh.
Qed.

Lemma silent_if {A} (b : bool) (m m' : M A) :
  silent m -> silent m' -> silent (if b then m else m').
Proof. destruct b; auto. Qed.

Lemma silent_fmap {A B} (f : A -> B) (m : M A) : silent m -> silent (Facade.fmap f m).
Proof.
  intros Hm sdk h. unfold Facade.fmap. specialize (Hm sdk h).
  destruct (m sdk h) as [es r]. exact Hm.
Qed.

Create HintDb silent.
#[export] Hint Resolve silent_ret silent_raise silent_perform silent_log_text
  silent_bind silent_try_except silent_if silent_fmap : silent.

(** The single steps of a run. *)
Lemma run_bind {A B} (m : M A) (f : A -> M B) sdk h es a :
  m sdk h = (es, Val a) ->
  bind m f sdk h = ((es ++ fst (f a sdk (h ++ es)))%list, snd (f a sdk (h ++ es)%list)).
Proof. intros E. unfold bind. rewrite E. now destruct (f a sdk (h ++ es)%list). Qed.

Lemma run_bind_exn {A B} (m : M A) (f : A -> M B) sdk h es e :
  m sdk h = (es, Exn e) -> bind m f sdk h = (es, Exn e).
Proof. intros E. unfold bind. now rewrite E. Qed.

Lemma run_try_exn {A} (m : M A) (handler : exn -> M A) sdk h es e :
  m sdk h = (es, Exn e) ->
  try_except m handler sdk h
  = ((es ++ fst (handler e sdk (h ++ es)))%list, snd (handler e sdk (h ++ es)%list)).
Proof. intros E. unfold try_except. rewrite E. now destruct (handler e sdk (h ++ es)%list). Qed.

Lemma run_try_val {A} (m : M A) (handler : exn -> M A) sdk h es a :
  m sdk h = (es, Val a) -> try_except m handler sdk h = (es, Val a).
Proof. intros E. unfold try_except. now rewrite E. Qed.

Lemma run_try_diverge {A} (m : M A) (handler : exn -> M A) sdk h es :
  m sdk h = (es, Diverge) -> try_except m handler sdk h = (es, Diverge).
Proof. intros E. unfold try_except. now rewrite E. Qed.

Lemma run_fmap {A B} (f : A -> B) (m : M A) sdk h :
  Facade.fmap f m sdk h
  = (fst (m sdk h),
     match snd (m sdk h) with Val a => Val (f a) | Exn e => Exn e | Diverge => Diverge end).
Proof. unfold Facade.fmap. now destruct (m sdk h). Qed.

Lemma fmap_exn {A B} (f : A -> B) (m : M A) sdk h es e :
  Facade.fmap f m sdk h = (es, Exn e) -> m sdk h = (es, Exn e).
Proof.
  rewrite run_fmap. destruct (m sdk h) as [es' [a|e'|]]; cbn [fst snd];
    intros E; inversion E; reflexivity.
Qed.

Lemma fmap_val {A B} (f : A -> B) (m : M A) sdk h es a :
  m sdk h = (es, Val a) -> Facade.fmap f m sdk h = (es, Val (f a)).
Proof. intros E. rewrite run_fmap, E. reflexivity. Qed.

Lemma retriable_classes (e : exn) :
  Facade.retriable e = true ->
  isinstance_Exception e = true /\ isinstance_NotFound e = false
  /\ isinstance_Conflict e = false.
Proof.
  unfold Facade.retriable. intros H.
  apply andb_prop in H. destruct H as [H H3].
  apply andb_prop in H. destruct H as [H1 H2].
  apply negb_true_iff in H2, H3. auto.
Qed.

(** Counting the attempts and collecting the sleeps of a list built from
    known events and known pieces. *)
Ltac tally :=
  repeat first
    [ rewrite attempts_app | rewrite sleeps_app | rewrite rhythm_app
    | rewrite attempts_cons | rewrite attempts_nil
    | progress cbn [sleeps rhythm is_attempt Nat.add app] ].

Ltac run_events :=
  unfold bind, log_text, sleep, attempt, emit, ret; cbn [fst snd app].

End RunFacts.

(* ================================================================= *)
(** ** The guarded blocks *)

Module Blocks.
Import PyStr Py Outcome RunFacts Facade.
Open Scope Z_scope.

Lemma silent_quiet_raise {A} (m : M A) : silent m -> quiet_raise m.
Proof. intros Hm sdk h es e E. specialize (Hm sdk h). now rewrite E in Hm. Qed.

Ltac silent_block blk :=
  unfold blk;
  repeat match goal with |- context [let (_, _) := ?p in _] => destruct p end;
  auto 30 with silent.

Lemma silent_move_file_gs_try labels a b d :
  silent (Storage.move_file_gs_try labels a b d).
Proof. silent_block Storage.move_file_gs_try. Qed.

Lemma silent_download_file_from_gs_try labels p l :
  silent (Storage.download_file_from_gs_try labels p l).
Proof. silent_block Storage.download_file_from_gs_try. Qed.

Lemma silent_upload_file_to_gs_try labels l p d :
  silent (Storage.upload_file_to_gs_try labels l p d).
Proof. silent_block Storage.upload_file_to_gs_try. Qed.

Lemma silent_delete_file_from_gs_try labels p :
  silent (Storage.delete_file_from_gs_try labels p).
Proof. silent_block Storage.delete_file_from_gs_try. Qed.

Lemma silent_rename_gs_try labels p n :
  silent (Storage.rename_gs_try labels p n).
Proof. silent_block Storage.rename_gs_try. Qed.

Lemma silent_wait_job labels timeout job_id text :
  silent (Bq.wait_job labels timeout job_id text).
Proof. silent_block Bq.wait_job. Qed.

#[local] Hint Resolve silent_wait_job : silent.

Lemma silent_insert_file_try labels timeout p d t s f w fd q lr mb :
  silent (Bq.insert_file_try labels timeout p d t s f w fd q lr mb).
Proof. silent_block Bq.insert_file_try. Qed.

Lemma silent_run_queryjob_try labels timeout d t q l w a :
  silent (Bq.run_queryjob_try labels timeout d t q l w a).
Proof. silent_block Bq.run_queryjob_try. Qed.

Lemma silent_run_extractjob_try labels timeout u d t c f fd ph :
  silent (Bq.run_extractjob_try labels timeout u d t c f fd ph).
Proof. silent_block Bq.run_extractjob_try. Qed.

Lemma silent_publish_try bytes_repr labels topic data attrs :
  silent (Publisher.publish_try bytes_repr labels topic data attrs).
Proof. silent_block Publisher.publish_try. Qed.

(** The confirmation loop takes every exception: it never ends with
    one. *)
Lemma wait_table_no_exn fuel d t b sdk h es e :
  Bq.wait_table fuel d t b sdk h <> (es, Exn e).
Proof.
  revert b h es. induction fuel as [|n IH]; intros [|] h es; cbn [Bq.wait_table];
    try discriminate.
  unfold try_except, perform. run_events.
  destruct (sdk unit h (get_table d t)) as [[]|e'|]; cbn [fst snd app];
    try discriminate;
    match goal with |- context [let (_, _) := ?run in _] =>
      destruct run as [es' r] eqn:E' end;
    intros E; inversion E; subst; now apply IH in E'.
Qed.

Lemma quiet_createwait_table_try labels fuel d t s :
  quiet_raise (Bq.createwait_table_try labels fuel d t s).
Proof.
  intros sdk h es e. unfold Bq.createwait_table_try, bind at 1, perform. cbv beta.
  destruct (sdk unit h (create_table d t s)) as [[]|e'|]; try discriminate.
  - unfold bind at 1.
    match goal with |- context [Bq.wait_table ?f ?d ?t ?b ?s ?h'] =>
      destruct (Bq.wait_table f d t b s h') as [es' [[]|e'|]] eqn:E' end.
    + run_events. discriminate.
    + now apply wait_table_no_exn in E'.
    + discriminate.
  - intros E. inversion E. reflexivity.
Qed.

End Blocks.

(* ================================================================= *)
(** ** The retry ceiling *)

Module RetryCeiling.
Import PyStr Py Outcome RunFacts Facade Blocks.
Open Scope Z_scope.

(** One attempt that fails in the retried class: the budget left tells
    how many more follow. *)
Tactic Notation "exhaust" reference(rec) constr(C) constr(Hfail) constr(Hquiet) :=
  let n := fresh "n" in
  let IH := fresh "IH" in
  let retry := fresh "retry" in
  let h := fresh "h" in
  let Hb := fresh "Hb" in
  let es := fresh "es" in
  let e := fresh "e" in
  let E := fresh "E" in
  let Hr := fresh "Hr" in
  let HE := fresh "HE" in
  let HN := fresh "HN" in
  let HC := fresh "HC" in
  let Hq := fresh "Hq" in
  intros budget; induction budget as [|n IH]; intros retry h Hb;
  cbn [rec];
  rewrite (run_bind _ _ _ _ [EAttempt _ retry] tt) by reflexivity;
  match goal with |- context [try_except ?m _ _ ?h'] =>
    destruct (Hfail h') as (es & e & E & Hr);
    pose proof (Hquiet _ _ _ _ E) as Hq
  end;
  apply retriable_classes in Hr; destruct Hr as (HE & HN & HC);
  rewrite (run_try_exn _ _ _ _ _ _ E);
  rewrite ?HN, ?HC; unfold Storage.except_Exception; rewrite HE;
  [ replace (retry <? C) with false by (symmetry; apply Z.ltb_ge; lia);
    run_events; eexists; split; [reflexivity|];
    tally; rewrite Hq; reflexivity
  | replace (retry <? C) with true by (symmetry; apply Z.ltb_lt; lia);
    run_events;
    match goal with |- context [let (_, _) := ?run in _] =>
      match run with
      | ?f ?h' =>
          let es' := fresh "es'" in
          let E' := fresh "E'" in
          let Hq' := fresh "Hq'" in
          destruct (IH (retry + 1) h' ltac:(lia)) as (es' & E' & Hq');
          rewrite E'; cbn [fst snd]; eexists; split; [reflexivity|];
          tally; rewrite Hq, Hq'; reflexivity
      end
    end ].

Lemma move_file_gs_exhausted labels a b d sdk :
  always_raises (Storage.move_file_gs_try labels a b d) sdk ->
  forall budget retry h, Z.to_nat (3 - retry) = budget ->
  exists es, Storage.move_file_gs_rec labels budget a b d retry sdk h = (es, Val false)
    /\ rhythm es = retry_rhythm 3 budget.
Proof.
  intros Hfail.
  exhaust Storage.move_file_gs_rec 3 Hfail
    (silent_quiet_raise _ (silent_move_file_gs_try labels a b d)).
Qed.

Lemma download_file_from_gs_exhausted labels p l sdk :
  always_raises (Storage.download_file_from_gs_try labels p l) sdk ->
  forall budget retry h, Z.to_nat (3 - retry) = budget ->
  exists es, Storage.download_file_from_gs_rec labels budget p l retry sdk h = (es, Val false)
    /\ rhythm es = retry_rhythm 3 budget.
Proof.
  intros Hfail.
  exhaust Storage.download_file_from_gs_rec 3 Hfail
    (silent_quiet_raise _ (silent_download_file_from_gs_try labels p l)).
Qed.

Lemma upload_file_to_gs_exhausted labels l p d sdk :
  always_raises (Storage.upload_file_to_gs_try labels l p d) sdk ->
  forall budget retry h, Z.to_nat (3 - retry) = budget ->
  exists es, Storage.upload_file_to_gs_rec labels budget l p d retry sdk h = (es, Val false)
    /\ rhythm es = retry_rhythm 3 budget.
Proof.
  intros Hfail.
  exhaust Storage.upload_file_to_gs_rec 3 Hfail
    (silent_quiet_raise _ (silent_upload_file_to_gs_try labels l p d)).
Qed.

Lemma delete_file_from_gs_exhausted labels p sdk :
  always_raises (Storage.delete_file_from_gs_try labels p) sdk ->
  forall budget retry h, Z.to_nat (2 - retry) = budget ->
  exists es, Storage.delete_file_from_gs_rec labels budget p retry sdk h = (es, Val false)
    /\ rhythm es = retry_rhythm 3 budget.
Proof.
  intros Hfail.
  exhaust Storage.delete_file_from_gs_rec 2 Hfail
    (silent_quiet_raise _ (silent_delete_file_from_gs_try labels p)).
Qed.

Lemma createwait_table_exhausted labels fuel d t s sdk :
  always_raises (Bq.createwait_table_try labels fuel d t s) sdk ->
  forall budget retry h, Z.to_nat (3 - retry) = budget ->
  exists es, Bq.createwait_table_rec labels budget fuel d t s retry sdk h = (es, Val false)
    /\ rhythm es = retry_rhythm 5 budget.
Proof.
  intros Hfail.
  exhaust Bq.createwait_table_rec 3 Hfail (quiet_createwait_table_try labels fuel d t s).
Qed.

Lemma insert_file_exhausted labels timeout p d t s f w fd q lr mb sdk :
  always_raises (Bq.insert_file_try labels timeout p d t s f w fd q lr mb) sdk ->
  forall budget retry h, Z.to_nat (3 - retry) = budget ->
  exists es,
    Bq.insert_file_rec labels timeout budget p d t s f w fd q lr mb retry sdk h
    = (es, Val (None, None))
    /\ rhythm es = retry_rhythm 5 budget.
Proof.
  intros Hfail.
  exhaust Bq.insert_file_rec 3 Hfail
    (silent_quiet_raise _ (silent_insert_file_try labels timeout p d t s f w fd q lr mb)).
Qed.

Lemma run_queryjob_exhausted labels timeout d t q l w a sdk :
  always_raises (Bq.run_queryjob_try labels timeout d t q l w a) sdk ->
  forall budget retry h, Z.to_nat (3 - retry) = budget ->
  exists es,
    Bq.run_queryjob_rec labels timeout budget d t q l w a retry sdk h = (es, Val (None, None))
    /\ rhythm es = retry_rhythm 5 budget.
Proof.
  intros Hfail.
  exhaust Bq.run_queryjob_rec 3 Hfail
    (silent_quiet_raise _ (silent_run_queryjob_try labels timeout d t q l w a)).
Qed.

Lemma run_extractjob_exhausted labels timeout u d t c f fd ph sdk :
  always_raises (Bq.run_extractjob_try labels timeout u d t c f fd ph) sdk ->
  forall budget retry h, Z.to_nat (3 - retry) = budget ->
  exists es,
    Bq.run_extractjob_rec labels timeout budget u d t c f fd ph retry sdk h
    = (es, Val (None, None))
    /\ rhythm es = retry_rhythm 5 budget.
Proof.
  intros Hfail.
  exhaust Bq.run_extractjob_rec 3 Hfail
    (silent_quiet_raise _ (silent_run_extractjob_try labels timeout u d t c f fd ph)).
Qed.

Lemma publish_exhausted json_dumps bytes_repr labels p t m a sdk :
  always_returns (Publisher.ensure_topic (Publisher.topic_path p t)) sdk ->
  always_raises
    (Publisher.publish_try bytes_repr labels (Publisher.topic_path p t) m
       (match a with Some d => json_dumps d | None => "" end)) sdk ->
  forall budget retry h, Z.to_nat (2 - retry) = budget ->
  exists es,
    Publisher.publish_rec json_dumps bytes_repr budget labels p t m a retry sdk h
    = (es, Val false)
    /\ rhythm es = retry_rhythm 10 budget.
Proof.
  intros Hens Hfail budget.
  induction budget as [|n IH]; intros retry h Hb; cbn [Publisher.publish_rec];
    rewrite (run_bind _ _ _ _ [EAttempt _ retry] tt) by reflexivity;
    destruct (Hens (h ++ [EAttempt "publish" retry])%list) as (es0 & st & E0 & Hq0);
    rewrite (run_bind _ _ _ _ _ _ E0);
    rewrite (run_bind _ _ _ _ [ELog _ _ _] tt) by reflexivity;
    destruct a as [dict|].
  all: match goal with
       | |- context [bind (ret ?v) _ _ ?h'] =>
           rewrite (run_bind (ret v) _ _ h' [] v) by reflexivity
       | |- context [bind (bind (log_text ?x ?y ?z) ?k) _ _ ?h'] =>
           rewrite (run_bind (bind (log_text x y z) k) _ _ h' [ELog y x z] "")
             by reflexivity
       end.
  all: match goal with |- context [try_except ?blk _ _ ?h'] =>
         destruct (Hfail h') as (es & e & E & Hr);
         pose proof (silent_quiet_raise _ (silent_publish_try _ _ _ _ _) _ _ _ _ E) as Hq;
         rewrite (run_try_exn _ _ _ _ _ _ E)
       end;
       apply retriable_classes in Hr; destruct Hr as (HE & _ & _);
       unfold Storage.except_Exception; rewrite HE.
  1, 2: replace (retry <? 2) with false by (symmetry; apply Z.ltb_ge; lia);
        run_events; eexists; (split; [reflexivity|]);
        tally; rewrite Hq, Hq0; reflexivity.
  all: replace (retry <? 2) with true by (symmetry; apply Z.ltb_lt; lia);
       run_events;
       match goal with |- context [let (_, _) := ?run in _] =>
         match run with
         | ?f ?h' =>
             destruct (IH (retry + 1) h' ltac:(lia)) as (es' & E' & Hq');
             rewrite E'; cbn [fst snd]; eexists; (split; [reflexivity|]);
             tally; rewrite Hq, Hq0, Hq'; reflexivity
         end
       end.
Qed.

Lemma always_raises_fmap {A B} (f : A -> B) (m : M A) sdk :
  always_raises (fmap f m) sdk -> always_raises m sdk.
Proof.
  intros H h. destruct (H h) as (es & e & E & Hr).
  exists es, e. split; [now apply fmap_exn in E | exact Hr].
Qed.

Lemma always_returns_fmap {A B} (f : A -> B) (m : M A) sdk :
  always_returns (fmap f m) sdk -> always_returns m sdk.
Proof.
  intros H h. destruct (H h) as (es & b & E & Hq).
  rewrite run_fmap in E. destruct (m sdk h) as [es' [a|e|]]; cbn [fst snd] in E;
    inversion E; subst. now exists es, a.
Qed.

End RetryCeiling.

(* ================================================================= *)
(** ** The not-found class *)

Module NotFoundClass.
Import PyStr Py Outcome RunFacts Facade Blocks.
Open Scope Z_scope.

Ltac not_found_now rec E HN :=
  match goal with |- context [rec _ ?budget] =>
    destruct budget; cbn [rec]
  end;
  rewrite (run_bind _ _ _ _ [EAttempt _ _] tt) by reflexivity;
  rewrite (run_try_exn _ _ _ _ _ _ E), HN;
  run_events; eexists; (split; [reflexivity|]).

(** [copy_file_gs] is the first attempt of a move that keeps its
    source. *)
Lemma copy_file_gs_is_move (cf : config) (a b : string) :
  fmap RBool (Storage.copy_file_gs (labels cf) a b) = invoke cf (Op_copy_file_gs a b) 0.
Proof. reflexivity. Qed.

(** C3, as amended.  On move_file_gs, copy_file_gs,
    download_file_from_gs and delete_file_from_gs, a NotFound raised in
    the guarded block of any attempt ends the call there: after the
    events of the block comes one WARNING line and nothing else, and
    [False] is returned; the run holds no attempt but the one under way
    and no sleep.  rename_gs ends the same way,
    but its line is logged at ERROR. *)
Theorem not_found_is_final (cf : config) (op : operation) (sev : severity)
        (retry : Z) (sdk : oracle) (h es : list event) (e : exn) :
  not_found_final op = Some sev ->
  guarded cf op sdk (h ++ entry op retry)%list = (es, Exn e) ->
  isinstance_NotFound e = true ->
  exists text,
    invoke cf op retry sdk h
    = ((entry op retry ++ es ++ [ELog sev text (labels cf)])%list, Val (failure op))
    /\ rhythm (entry op retry ++ es ++ [ELog sev text (labels cf)])
       = rhythm (entry op retry).
Proof.
  intros Hop E HN.
  destruct op; cbn [not_found_final] in Hop; inversion Hop; subst sev; clear Hop;
    cbn [guarded entry fn_name] in E; apply fmap_exn in E;
    cbn [invoke entry fn_name failure]; rewrite run_fmap.
  - pose proof (silent_quiet_raise _ (silent_move_file_gs_try _ _ _ _) _ _ _ _ E) as Hq.
    unfold Storage.move_file_gs.
    not_found_now Storage.move_file_gs_rec E HN; tally; rewrite Hq; reflexivity.
  - pose proof (silent_quiet_raise _ (silent_move_file_gs_try _ _ _ _) _ _ _ _ E) as Hq.
    unfold Storage.move_file_gs.
    not_found_now Storage.move_file_gs_rec E HN; tally; rewrite Hq; reflexivity.
  - pose proof (silent_quiet_raise _ (silent_rename_gs_try _ _ _) _ _ _ _ E) as Hq.
    unfold Storage.rename_gs. rewrite app_nil_r in E.
    rewrite (run_try_exn _ _ _ _ _ _ E). unfold Storage.except_Exception.
    replace (isinstance_Exception e) with true
      by (unfold isinstance_NotFound, isinstance_Exception in *; destruct (exn_cls e);
          (reflexivity || discriminate)).
    run_events. eexists. split; [reflexivity|].
    tally. rewrite Hq. reflexivity.
  - pose proof (silent_quiet_raise _ (silent_download_file_from_gs_try _ _ _) _ _ _ _ E)
      as Hq.
    unfold Storage.download_file_from_gs.
    not_found_now Storage.download_file_from_gs_rec E HN; tally; rewrite Hq; reflexivity.
  - pose proof (silent_quiet_raise _ (silent_delete_file_from_gs_try _ _) _ _ _ _ E)
      as Hq.
    unfold Storage.delete_file_from_gs.
    not_found_now Storage.delete_file_from_gs_rec E HN; tally; rewrite Hq; reflexivity.
Qed.

(** The theorem at the third attempt of a download whose bucket is
    gone. *)
Lemma not_found_is_final_witness :
  exists text,
    invoke Samples.imported (Op_download_file_from_gs "gs://b/x" "/tmp/x") 2
      (Samples.all_raise Samples.not_found) []
    = ([EAttempt "download_file_from_gs" 2; ECall (get_bucket "b");
        ELog WARNING text [("test", "myvalue")]], Val (RBool false)).
Proof.
  destruct (not_found_is_final Samples.imported
              (Op_download_file_from_gs "gs://b/x" "/tmp/x") WARNING 2
              (Samples.all_raise Samples.not_found) []
              [ECall (get_bucket "b")] Samples.not_found
              eq_refl eq_refl eq_refl) as (text & E & _).
  exists text. exact E.
Defined.

(** C3 as first stated fails twice on a missing bucket.
    upload_file_to_gs has no not-found handler: it retries three times,
    sleeping each time, before it returns [False].  rename_gs returns at
    once, but its one log line is an ERROR, not a WARNING. *)
Lemma not_found_counterexample :
  (let run := invoke Samples.imported (Op_upload_file_to_gs "/tmp/x" "gs://b/x" false) 0
                (Samples.all_raise Samples.not_found) [] in
   snd run = Val (RBool false) /\ attempts (fst run) = 4%nat
   /\ sleeps (fst run) = [3; 3; 3]
   /\ logs (fst run) = [WARNING; WARNING; WARNING; ERROR])
  /\
  (let run := invoke Samples.imported (Op_rename_gs "gs://b/x" "y") 0
                (Samples.all_raise Samples.not_found) [] in
   snd run = Val (RPath None) /\ logs (fst run) = [ERROR]).
Proof. repeat split. Qed.

End NotFoundClass.

(* ================================================================= *)
(** ** Creating tables, topics and subscriptions *)

Module Creation.
Import PyStr Py RunFacts Facade Blocks.
Open Scope Z_scope.

Lemma wait_table_done fuel d t (sdk : oracle) h :
  Bq.wait_table fuel d t true sdk h = ([], Val tt).
Proof. destruct fuel; reflexivity. Qed.

Lemma wait_table_check_ok fuel d t (sdk : oracle) h :
  sdk unit h (get_table d t) = Ret tt ->
  Bq.wait_table (S fuel) d t false sdk h = ([ECall (get_table d t)], Val tt).
Proof.
  intros E. cbn [Bq.wait_table]. unfold try_except, perform. run_events.
  rewrite E. cbn [fst snd app]. now rewrite wait_table_done.
Qed.

Lemma wait_table_check_failed fuel d t (sdk : oracle) h e :
  sdk unit h (get_table d t) = Raise e ->
  Bq.wait_table (S fuel) d t false sdk h
  = let (es, r) := Bq.wait_table fuel d t false sdk
                     (h ++ [ECall (get_table d t); ESleep 5])%list in
    (ECall (get_table d t) :: ESleep 5 :: es, r).
Proof.
  intros E. cbn [Bq.wait_table]. unfold try_except, perform. run_events.
  rewrite E. cbn [fst snd app]. reflexivity.
Qed.

Lemma wait_table_check_hangs fuel d t (sdk : oracle) h :
  sdk unit h (get_table d t) = Hang ->
  Bq.wait_table (S fuel) d t false sdk h = ([ECall (get_table d t)], Diverge).
Proof.
  intros E. cbn [Bq.wait_table]. unfold try_except, perform. run_events.
  rewrite E. reflexivity.
Qed.

Lemma failed_checks_S d t k :
  Bq.failed_checks d t (S k)
  = ECall (get_table d t) :: ESleep 5 :: Bq.failed_checks d t k.
Proof. reflexivity. Qed.

(** With every check failing the loop uses all the fuel it is given. *)
Lemma wait_table_never_confirmed d t (sdk : oracle) :
  (forall h, exists e, sdk unit h (get_table d t) = Raise e) ->
  forall fuel h,
    Bq.wait_table fuel d t false sdk h = (Bq.failed_checks d t fuel, Diverge).
Proof.
  intros Hfail fuel. induction fuel as [|n IH]; intros h; [reflexivity|].
  destruct (Hfail h) as [e E].
  rewrite (wait_table_check_failed _ _ _ _ _ _ E), IH. reflexivity.
Qed.

(** With the check passing after [k] failures the loop ends there, given
    more than [k] units of fuel. *)
Lemma wait_table_confirmed d t (sdk : oracle) :
  forall k fuel h,
    (forall i, (i < k)%nat ->
       exists e, sdk unit (h ++ Bq.failed_checks d t i)%list (get_table d t) = Raise e) ->
    sdk unit (h ++ Bq.failed_checks d t k)%list (get_table d t) = Ret tt ->
    (k < fuel)%nat ->
    Bq.wait_table fuel d t false sdk h
    = ((Bq.failed_checks d t k ++ [ECall (get_table d t)])%list, Val tt).
Proof.
  intros k. induction k as [|k IH]; intros fuel h Hfail Hok Hfuel;
    (destruct fuel as [|fuel]; [lia|]).
  - cbn [Bq.failed_checks repeat concat] in Hok. rewrite app_nil_r in Hok.
    now apply wait_table_check_ok.
  - destruct (Hfail 0%nat ltac:(lia)) as [e E].
    cbn [Bq.failed_checks repeat concat] in E. rewrite app_nil_r in E.
    rewrite (wait_table_check_failed _ _ _ _ _ _ E).
    rewrite (IH fuel (h ++ [ECall (get_table d t); ESleep 5])%list).
    + reflexivity.
    + intros i Hi. destruct (Hfail (S i) ltac:(lia)) as [e' E'].
      exists e'. rewrite <- app_assoc. exact E'.
    + rewrite <- app_assoc. exact Hok.
    + lia.
Qed.

(** When the loop ends, its last event is a check that passed. *)
Lemma wait_table_ends_confirmed d t (sdk : oracle) :
  forall fuel h es,
    Bq.wait_table fuel d t false sdk h = (es, Val tt) ->
    exists pre,
      es = (pre ++ [ECall (get_table d t)])%list
      /\ sdk unit (h ++ pre)%list (get_table d t) = Ret tt.
Proof.
  intros fuel. induction fuel as [|n IH]; intros h es E; [discriminate E|].
  destruct (sdk unit h (get_table d t)) as [[]|e|] eqn:Hc.
  - rewrite (wait_table_check_ok _ _ _ _ _ Hc) in E. inversion E.
    exists []. split; [reflexivity|]. now rewrite app_nil_r.
  - rewrite (wait_table_check_failed _ _ _ _ _ _ Hc) in E.
    match type of E with context [Bq.wait_table n d t false sdk ?h'] =>
      destruct (Bq.wait_table n d t false sdk h') as [es' r] eqn:E' end.
    inversion E; subst. apply IH in E'. destruct E' as (pre & -> & Hok).
    exists (ECall (get_table d t) :: ESleep 5 :: pre). split; [reflexivity|].
    rewrite <- app_assoc in Hok. exact Hok.
  - rewrite (wait_table_check_hangs _ _ _ _ _ Hc) in E. discriminate E.
Qed.

(** One invocation of [createwait_table] whose creation call went
    through: whatever the budget, what follows is the loop and the INFO
    line. *)
Lemma createwait_table_created labels fuel d t s retry (sdk : oracle) h :
  sdk unit (h ++ [EAttempt "createwait_table" retry])%list (create_table d t s) = Ret tt ->
  Bq.createwait_table labels fuel d t s retry sdk h
  = let (es, r) := Bq.wait_table fuel d t false sdk
                     (h ++ [EAttempt "createwait_table" retry; ECall (create_table d t s)])%list in
    match r with
    | Val _ =>
        (EAttempt "createwait_table" retry :: ECall (create_table d t s)
           :: es ++ [ELog INFO ("Table " ++ t ++ " created in BQ") labels], Val true)
    | Exn e => (EAttempt "createwait_table" retry :: ECall (create_table d t s) :: es, Exn e)
    | Diverge => (EAttempt "createwait_table" retry :: ECall (create_table d t s) :: es, Diverge)
    end.
Proof.
  intros E. unfold Bq.createwait_table.
  destruct (Z.to_nat (3 - retry)); cbn [Bq.createwait_table_rec];
    unfold Bq.createwait_table_try, try_except, perform; run_events;
    rewrite E; cbn [fst snd app]; rewrite <- app_assoc; cbn [app];
    match goal with |- context [Bq.wait_table ?f ?a ?b ?c ?o ?h'] =>
      destruct (Bq.wait_table f a b c o h') as [es [[]|e|]] eqn:E'
    end; try reflexivity;
    now apply wait_table_no_exn in E'.
Qed.

(** [createwait_table] starts every invocation with the creation call. *)
Lemma createwait_table_creates_first labels fuel d t s retry (sdk : oracle) h :
  exists rest,
    fst (Bq.createwait_table labels fuel d t s retry sdk h)
    = EAttempt "createwait_table" retry :: ECall (create_table d t s) :: rest.
Proof.
  assert (Htry : forall h', exists rest,
            fst (Bq.createwait_table_try labels fuel d t s sdk h')
            = ECall (create_table d t s) :: rest).
  { intros h'. unfold Bq.createwait_table_try. unfold bind at 1. unfold perform.
    cbv beta. destruct (sdk unit h' (create_table d t s)); [|eexists; reflexivity ..].
    match goal with |- context [let (_, _) := ?x in _] => destruct x end.
    eexists. reflexivity. }
  unfold Bq.createwait_table.
  destruct (Z.to_nat (3 - retry)); cbn [Bq.createwait_table_rec];
    rewrite (run_bind _ _ _ _ [EAttempt _ retry] tt) by reflexivity; cbn [fst];
    unfold try_except;
    match goal with |- context [Bq.createwait_table_try ?l ?f ?a ?b ?c ?o ?h'] =>
      destruct (Htry h') as [rest Hrest];
      destruct (Bq.createwait_table_try l f a b c o h') as [es [v|e|]]
    end; cbn [fst] in Hrest; subst es;
    try match goal with |- context [let (_, _) := ?x in _] => destruct x end;
    cbn [fst app]; eexists; reflexivity.
Qed.

(** C4, as amended.  [createwait_table] calls create_table first, with
    no existence check before it, and when that call fails with Conflict
    (the table already exists) it returns [True] after this one creation
    call, one INFO line and no sleep.  [publish] and [subscribe] check
    first instead: when get_topic, or get_subscription, succeeds, the
    resource is taken as it is and no creation call is made. *)
Theorem creation_of_existing (labels : label_set) (fuel : nat) (d t : string)
        (s : list SchemaField) (retry : Z) (topic subscription project_id topic_name : string)
        (bound : bool) (sdk : oracle) (h : list event) (e : exn) :
  sdk unit (h ++ [EAttempt "createwait_table" retry])%list (create_table d t s) = Raise e ->
  isinstance_Conflict e = true ->
  sdk unit h (get_topic topic) = Ret tt ->
  sdk unit h (get_subscription subscription) = Ret tt ->
  Bq.createwait_table labels fuel d t s retry sdk h
  = ([EAttempt "createwait_table" retry; ECall (create_table d t s);
      ELog INFO ("Table " ++ t ++ " already exists in BQ") labels], Val true)
  /\ (forall (sdk' : oracle) h', exists rest,
        fst (Bq.createwait_table labels fuel d t s retry sdk' h')
        = EAttempt "createwait_table" retry :: ECall (create_table d t s) :: rest)
  /\ Publisher.ensure_topic topic sdk h = ([ECall (get_topic topic)], Val "topic exists")
  /\ Subscriber.ensure_subscription bound project_id topic_name subscription sdk h
     = ([ECall (get_subscription subscription)], Val "Subscription exists").
Proof.
  intros Ecreate HC Etopic Esub. repeat split.
  - unfold Bq.createwait_table.
    destruct (Z.to_nat (3 - retry)); cbn [Bq.createwait_table_rec];
      unfold Bq.createwait_table_try, try_except, perform; run_events;
      rewrite Ecreate; cbn [fst snd app]; rewrite HC; reflexivity.
  - intros sdk' h'. apply createwait_table_creates_first.
  - unfold Publisher.ensure_topic, try_except, perform. run_events.
    rewrite Etopic. reflexivity.
  - unfold Subscriber.ensure_subscription, try_except, perform. run_events.
    rewrite Esub. reflexivity.
Qed.

(** The theorem where the table, the topic and the subscription are all
    there. *)
Lemma creation_of_existing_witness :
  Bq.createwait_table [] 8 "ds" "tbl" [] 0 Samples.table_exists []
  = ([EAttempt "createwait_table" 0; ECall (create_table "ds" "tbl" []);
      ELog INFO "Table tbl already exists in BQ" []], Val true).
Proof.
  apply (creation_of_existing [] 8 "ds" "tbl" [] 0 "projects/p/topics/t"
           "projects/p/subscriptions/s" "p" "t" false Samples.table_exists []
           Samples.already_exists); reflexivity.
Defined.

(** C4 as first stated fails on [publish].  With the topic there,
    [publish] checks it with get_topic and makes no creation call at all;
    and when that check fails for another reason, the AlreadyExists of
    create_topic is not taken as success: it leaves [publish] as an
    exception. *)
Lemma creation_precheck_counterexample :
  (let run := invoke Samples.imported (Op_publish "p" "t" "m" (Some [])) 0
                Samples.all_ok [] in
   run = ([EAttempt "publish" 0; ECall (get_topic "projects/p/topics/t");
           ELog DEBUG "Topic request status : topic exists" [("test", "myvalue")];
           ECall (client_publish "projects/p/topics/t" "m" "{}");
           ELog INFO "Message : b'm' published with attributes : {}" [("test", "myvalue")]],
          Val (RBool true))
   /\ count_calls "create_topic" (fst run) = 0%nat)
  /\
  invoke Samples.imported (Op_publish "p" "t" "m" (Some [])) 0 Samples.topic_check_down []
  = ([EAttempt "publish" 0; ECall (get_topic "projects/p/topics/t");
      ECall (create_topic "projects/p/topics/t")],
     Exn (mkExn AlreadyExists "409 Resource already exists")).
Proof. repeat split. Qed.

(** C5, as amended.  When the creation call of [createwait_table] goes
    through, the function returns [True] only after a get_table made
    after the creation has succeeded, and it does return [True] as soon
    as such a check succeeds.  [publish] makes its one existence check
    before it creates the topic and none after. *)
Theorem creation_confirmed (labels : label_set) (fuel : nat) (d t : string)
        (s : list SchemaField) (retry : Z) (topic : string)
        (sdk : oracle) (h : list event) (e : exn) :
  sdk unit (h ++ [EAttempt "createwait_table" retry])%list (create_table d t s) = Ret tt ->
  sdk unit h (get_topic topic) = Raise e ->
  sdk unit (h ++ [ECall (get_topic topic)])%list (create_topic topic) = Ret tt ->
  (forall es,
     Bq.createwait_table labels fuel d t s retry sdk h = (es, Val true) ->
     exists checks,
       es = (EAttempt "createwait_table" retry :: ECall (create_table d t s)
               :: checks ++ [ECall (get_table d t);
                             ELog INFO ("Table " ++ t ++ " created in BQ") labels])%list
       /\ sdk unit (h ++ EAttempt "createwait_table" retry :: ECall (create_table d t s)
                        :: checks)%list (get_table d t) = Ret tt)
  /\ (sdk unit (h ++ [EAttempt "createwait_table" retry; ECall (create_table d t s)])%list
         (get_table d t) = Ret tt ->
      Bq.createwait_table labels (S fuel) d t s retry sdk h
      = ([EAttempt "createwait_table" retry; ECall (create_table d t s);
          ECall (get_table d t); ELog INFO ("Table " ++ t ++ " created in BQ") labels],
         Val true))
  /\ Publisher.ensure_topic topic sdk h
     = ([ECall (get_topic topic); ECall (create_topic topic)], Val "topic created").
Proof.
  intros Ecreate Etopic Enew. repeat split.
  - intros es E. rewrite (createwait_table_created _ _ _ _ _ _ _ _ Ecreate) in E.
    match type of E with context [Bq.wait_table ?f ?a ?b ?c ?o ?h'] =>
      destruct (Bq.wait_table f a b c o h') as [es' [[]|e'|]] eqn:E'
    end; inversion E; subst.
    apply wait_table_ends_confirmed in E'. destruct E' as (pre & -> & Hok).
    exists pre. split.
    + now rewrite <- app_assoc.
    + rewrite <- app_assoc in Hok. exact Hok.
  - intros Hok. rewrite (createwait_table_created _ _ _ _ _ _ _ _ Ecreate).
    rewrite (wait_table_check_ok _ _ _ _ _ Hok). reflexivity.
  - unfold Publisher.ensure_topic, try_except, perform. run_events.
    rewrite Etopic. cbn [fst snd app]. rewrite Enew. reflexivity.
Qed.

(** The theorem where the table and the topic are both new. *)
Lemma creation_confirmed_witness :
  Bq.createwait_table [] 1 "ds" "tbl" [] 0 Samples.topic_missing []
  = ([EAttempt "createwait_table" 0; ECall (create_table "ds" "tbl" []);
      ECall (get_table "ds" "tbl"); ELog INFO "Table tbl created in BQ" []], Val true)
  /\ Publisher.ensure_topic "projects/p/topics/t" Samples.topic_missing []
     = ([ECall (get_topic "projects/p/topics/t"); ECall (create_topic "projects/p/topics/t")],
        Val "topic created").
Proof.
  destruct (creation_confirmed [] 0 "ds" "tbl" [] 0 "projects/p/topics/t"
              Samples.topic_missing [] Samples.not_found eq_refl eq_refl eq_refl)
    as (_ & Htable & Htopic).
  split; [apply Htable; reflexivity | exact Htopic].
Defined.

(** C5 as first stated fails on [publish]: with the topic missing it
    calls get_topic once, creates the topic and goes on to publish; no
    existence check follows the creation. *)
Lemma creation_unconfirmed_counterexample :
  let run := invoke Samples.imported (Op_publish "p" "t" "m" (Some [])) 0
               Samples.topic_missing [] in
  run = ([EAttempt "publish" 0; ECall (get_topic "projects/p/topics/t");
          ECall (create_topic "projects/p/topics/t");
          ELog DEBUG "Topic request status : topic created" [("test", "myvalue")];
          ECall (client_publish "projects/p/topics/t" "m" "{}");
          ELog INFO "Message : b'm' published with attributes : {}" [("test", "myvalue")]],
         Val (RBool true))
  /\ count_calls "create_topic" (fst run) = 1%nat
  /\ count_calls "get_topic" (fst run) = 1%nat.
Proof. repeat split. Qed.

(** C10.  After a creation call that went through, [createwait_table]
    has no ceiling on its confirmation loop.  If every get_table fails,
    the call never returns: whatever fuel the loop is given, it spends
    all of it, one check and one 5-second sleep per unit, within the one
    attempt.  It returns, and then returns [True], only after a get_table
    that succeeded; and when the check succeeds after [k] failures it
    does return [True], after [k] sleeps of 5 seconds. *)
Theorem confirmation_loop_has_no_ceiling (labels : label_set) (d t : string)
        (s : list SchemaField) (retry : Z) (sdk : oracle) (h : list event) :
  sdk unit (h ++ [EAttempt "createwait_table" retry])%list (create_table d t s) = Ret tt ->
  let created := [EAttempt "createwait_table" retry; ECall (create_table d t s)] in
  ((forall h', exists e, sdk unit h' (get_table d t) = Raise e) ->
   forall fuel,
     Bq.createwait_table labels fuel d t s retry sdk h
     = ((created ++ Bq.failed_checks d t fuel)%list, Diverge)
     /\ sleeps (created ++ Bq.failed_checks d t fuel) = repeat 5 fuel
     /\ count_calls "get_table" (created ++ Bq.failed_checks d t fuel) = fuel
     /\ attempts (created ++ Bq.failed_checks d t fuel) = 1%nat)
  /\ (forall fuel es v,
        Bq.createwait_table labels fuel d t s retry sdk h = (es, Val v) ->
        v = true
        /\ exists checks,
             sdk unit (h ++ created ++ checks)%list (get_table d t) = Ret tt)
  /\ (forall k fuel,
        (forall i, (i < k)%nat ->
           exists e, sdk unit (h ++ created ++ Bq.failed_checks d t i)%list (get_table d t)
                     = Raise e) ->
        sdk unit (h ++ created ++ Bq.failed_checks d t k)%list (get_table d t) = Ret tt ->
        (k < fuel)%nat ->
        Bq.createwait_table labels fuel d t s retry sdk h
        = ((created ++ Bq.failed_checks d t k
              ++ [ECall (get_table d t);
                  ELog INFO ("Table " ++ t ++ " created in BQ") labels])%list, Val true)
        /\ sleeps (Bq.failed_checks d t k) = repeat 5 k).
Proof.
  intros Ecreate created.
  assert (Hsleeps : forall k, sleeps (Bq.failed_checks d t k) = repeat 5 k).
  { intros k. induction k as [|k IH]; [reflexivity|].
    rewrite failed_checks_S. cbn [sleeps repeat]. now rewrite IH. }
  assert (Hcalls : forall k, count_calls "get_table" (Bq.failed_checks d t k) = k).
  { intros k. induction k as [|k IH]; [reflexivity|].
    rewrite failed_checks_S. cbn [count_calls call_name]. now rewrite IH. }
  assert (Hatt : forall k, attempts (Bq.failed_checks d t k) = 0%nat).
  { intros k. induction k as [|k IH]; [reflexivity|].
    rewrite failed_checks_S. now rewrite !attempts_cons, IH. }
  split; [|split].
  - intros Hfail n. split; [|split; [|split]].
    + rewrite (createwait_table_created _ _ _ _ _ _ _ _ Ecreate).
      now rewrite (wait_table_never_confirmed _ _ _ Hfail).
    + unfold created. cbn [app sleeps]. apply Hsleeps.
    + unfold created. cbn [app count_calls call_name]. apply Hcalls.
    + unfold created. cbn [app]. now rewrite !attempts_cons, Hatt.
  - intros n es v E.
    rewrite (createwait_table_created _ _ _ _ _ _ _ _ Ecreate) in E.
    match type of E with context [Bq.wait_table ?f ?a ?b ?c ?o ?h'] =>
      destruct (Bq.wait_table f a b c o h') as [es' [[]|e'|]] eqn:E'
    end; inversion E; subst. split; [reflexivity|].
    apply wait_table_ends_confirmed in E'. destruct E' as (pre & _ & Hok).
    exists pre. unfold created. rewrite <- app_assoc in Hok. exact Hok.
  - intros k n Hfail Hok Hk. split; [|apply Hsleeps].
    rewrite (createwait_table_created _ _ _ _ _ _ _ _ Ecreate).
    rewrite (wait_table_confirmed d t sdk k n).
    + unfold created. cbn [app]. now rewrite <- app_assoc.
    + intros i Hi. destruct (Hfail i Hi) as [e E]. exists e.
      unfold created in E. now rewrite <- app_assoc.
    + unfold created in Hok. now rewrite <- app_assoc.
    + assumption.
Qed.

(** The theorem on a table that is created and never becomes visible:
    three units of fuel give three checks, three sleeps and no result. *)
Lemma confirmation_loop_has_no_ceiling_witness :
  Bq.createwait_table [] 3 "ds" "tbl" [] 0 Samples.table_never_visible []
  = ([EAttempt "createwait_table" 0; ECall (create_table "ds" "tbl" []);
      ECall (get_table "ds" "tbl"); ESleep 5; ECall (get_table "ds" "tbl"); ESleep 5;
      ECall (get_table "ds" "tbl"); ESleep 5], Diverge).
Proof.
  destruct (confirmation_loop_has_no_ceiling [] "ds" "tbl" [] 0
              Samples.table_never_visible [] eq_refl) as (Hloop & _).
  apply (Hloop (fun _ => ex_intro _ Samples.not_found eq_refl) 3%nat).
Defined.

End Creation.

(* ================================================================= *)
(** ** Waiting for jobs *)

Module Jobs.
Import PyStr Py RunFacts Facade Blocks.
Open Scope Z_scope.

Ltac job_run Hjobs Hwait :=
  let Hu := fresh "Hu" in
  let Hopen := fresh "Hopen" in
  let Huri := fresh "Huri" in
  let Hfile := fresh "Hfile" in
  let Hquery := fresh "Hquery" in
  let Hextract := fresh "Hextract" in
  let Herrs := fresh "Herrs" in
  let e := fresh "e" in
  let HT := fresh "HT" in
  let Hw := fresh "Hw" in
  destruct Hjobs as (Hu & Hopen & Huri & Hfile & Hquery & Hextract & Herrs);
  destruct Hwait as [[Hw ->]|[(e & HT & Hw) ->]];
  unfold Bq.wait_job, try_except, perform, Storage.except_Exception; run_events;
  repeat first
    [ rewrite Hu | rewrite Hopen | rewrite Huri | rewrite Hfile | rewrite Hquery
    | rewrite Hextract | rewrite Herrs | rewrite Hw | rewrite HT
    | progress cbn [fst snd app] ];
  eexists; (split; [reflexivity|]); repeat split.

Lemma insert_file_waited labels timeout p d t s f w fd q lr mb retry
      (sdk : oracle) h u errs waited :
  accepts_jobs sdk u errs ->
  waits sdk waited ->
  exists es,
    Bq.insert_file labels timeout p d t s f w fd q lr mb retry sdk h
    = (es, Val (Some (d ++ "_" ++ t ++ "_loadFile-" ++ u), errs))
    /\ attempts es = 1%nat /\ sleeps es = [] /\ logs es = (waited ++ [INFO])%list.
Proof.
  intros Hjobs Hwait. unfold Bq.insert_file.
  destruct (Z.to_nat (3 - retry)); cbn [Bq.insert_file_rec];
    unfold Bq.insert_file_try; destruct (String.eqb (slice_to 3 p) "gs:");
    job_run Hjobs Hwait.
Qed.

Lemma run_queryjob_waited labels timeout d t q l w a retry (sdk : oracle) h u errs waited :
  accepts_jobs sdk u errs ->
  waits sdk waited ->
  exists es,
    Bq.run_queryjob labels timeout d t q l w a retry sdk h
    = (es, Val (Some (d ++ "_" ++ t ++ "_fromQuery-" ++ u), errs))
    /\ attempts es = 1%nat /\ sleeps es = [] /\ logs es = (waited ++ [INFO])%list.
Proof.
  intros Hjobs Hwait. unfold Bq.run_queryjob.
  destruct (Z.to_nat (3 - retry)); cbn [Bq.run_queryjob_rec];
    unfold Bq.run_queryjob_try; job_run Hjobs Hwait.
Qed.

Lemma run_extractjob_waited labels timeout uris d t c f fd ph retry
      (sdk : oracle) h u errs waited :
  accepts_jobs sdk u errs ->
  waits sdk waited ->
  exists es,
    Bq.run_extractjob labels timeout uris d t c f fd ph retry sdk h
    = (es, Val (Some (d ++ "_" ++ t ++ "_extractTable-" ++ u), errs))
    /\ attempts es = 1%nat /\ sleeps es = [] /\ logs es = (waited ++ [INFO])%list.
Proof.
  intros Hjobs Hwait. unfold Bq.run_extractjob.
  destruct (Z.to_nat (3 - retry)); cbn [Bq.run_extractjob_rec];
    unfold Bq.run_extractjob_try; job_run Hjobs Hwait.
Qed.



End Jobs.

(* ================================================================= *)
(** ** Building a schema from a dictionary *)

Module SchemaExample.
Import PyStr Py Facade.

(** C8, on the code as it runs.  On Python 3, which the f-strings of
    bq.py require, the name [unicode] is not bound.  The entry ["a"] is a
    [str] and is appended; at the entry ["b"] the test
    [isinstance(v, str) or isinstance(v, unicode)] evaluates [unicode],
    the NameError is caught by the function's own handler, and the
    descriptor returned has the one field ["a"]: the RECORD field is
    missing. *)
Theorem nested_schema_loses_record (labels : label_set) (sdk : oracle) (h : list event) :
  Bq.build_schema_from_dict labels false Samples.nested_schema "NULLABLE" sdk h
  = ([ELog ERROR "Error in build BQ schema from dict :: error name 'unicode' is not defined"
        labels],
     Val [mkField "a" "STRING" "NULLABLE" []])
  /\ (forall fields,
        snd (Bq.build_schema_from_dict labels false Samples.nested_schema "NULLABLE" sdk h)
        = Val fields -> length fields = 1%nat).
Proof.
  split; [reflexivity|]. intros fields E. cbn in E. inversion E. reflexivity.
Qed.

(** Were [unicode] bound, as on Python 2, the same call would give the
    two fields of the claim. *)
Lemma nested_schema_with_unicode (labels : label_set) (sdk : oracle) (h : list event) :
  snd (Bq.build_schema_from_dict labels true Samples.nested_schema "NULLABLE" sdk h)
  = Val [mkField "a" "STRING" "NULLABLE" [];
         mkField "b" "RECORD" "NULLABLE" [mkField "c" "INTEGER" "NULLABLE" []]].
Proof. reflexivity. Qed.

End SchemaExample.

(* ================================================================= *)
(** ** Subscribing *)

Module Subscribing.
Import PyStr Py RunFacts Facade.

(** C9, on the code as it runs.  [subscribe] reads the global
    [publisher_client] when the subscription is missing.  Imported as a
    module, subscriber.py does not bind that name: the call ends with a
    NameError right after the failed get_subscription, with no
    create_subscription, no subscribe and no wait for messages. *)
Theorem subscribe_cannot_create (labels : label_set)
        (project_id topic_name subscription_name callback : string)
        (sdk : oracle) (h : list event) (e : exn) :
  sdk unit h (get_subscription (Subscriber.subscription_path project_id subscription_name))
  = Raise e ->
  Subscriber.subscribe false labels project_id topic_name subscription_name callback sdk h
  = ([ECall (get_subscription (Subscriber.subscription_path project_id subscription_name))],
     Exn (mkExn NameError "name 'publisher_client' is not defined")).
Proof.
  intros E. unfold Subscriber.subscribe, Subscriber.ensure_subscription, try_except, perform.
  run_events. rewrite E. reflexivity.
Qed.

(** The theorem at a subscription that is not there yet. *)
Lemma subscribe_cannot_create_witness :
  invoke Samples.imported (Op_subscribe "p" "t" "s" "callback") 0
    Samples.subscription_missing []
  = ([ECall (get_subscription "projects/p/subscriptions/s")],
     Exn (mkExn NameError "name 'publisher_client' is not defined")).
Proof.
  cbn [invoke Samples.imported publisher_client_bound labels]. rewrite run_fmap.
  rewrite (subscribe_cannot_create [("test", "myvalue")] "p" "t" "s" "callback"
             Samples.subscription_missing [] Samples.not_found eq_refl).
  reflexivity.
Defined.

(** With the subscription there, [subscribe] uses it and goes on to
    block on the delivery of messages. *)
Lemma subscribe_uses_existing (bound : bool) (labels : label_set)
      (project_id topic_name subscription_name callback : string)
      (sdk : oracle) (h : list event) :
  let sub := Subscriber.subscription_path project_id subscription_name in
  sdk unit h (get_subscription sub) = Ret tt ->
  sdk unit (h ++ [ECall (get_subscription sub);
                  ELog DEBUG "Subscription request status : Subscription exists" labels])%list
      (client_subscribe sub callback) = Ret tt ->
  exists rest,
    fst (Subscriber.subscribe bound labels project_id topic_name subscription_name
           callback sdk h)
    = ECall (get_subscription sub)
        :: ELog DEBUG "Subscription request status : Subscription exists" labels
        :: ECall (client_subscribe sub callback) :: ECall (future_result sub) :: rest.
Proof.
  intros sub E1 E2.
  unfold Subscriber.subscribe, Subscriber.ensure_subscription, try_except, perform.
  run_events. fold sub. rewrite E1. cbn [fst snd app].
  rewrite <- !app_assoc. cbn [app String.append]. rewrite E2. cbn [fst snd app].
  destruct (sdk unit _ (future_result sub)) as [[]|e|]; cbn [fst snd app];
    try (eexists; reflexivity).
  destruct (exn_cls e); cbn [fst snd app]; eexists; reflexivity.
Qed.

(** With [publisher_client] bound, a missing subscription is created on
    the topic before the call blocks. *)
Lemma subscribe_creates_when_bound :
  fst (Subscriber.subscribe true [] "p" "t" "s" "callback" Samples.subscription_missing [])
  = [ECall (get_subscription "projects/p/subscriptions/s");
     ECall (create_subscription "projects/p/subscriptions/s" "projects/p/topics/t");
     ELog DEBUG "Subscription request status : Subscription created" [];
     ECall (client_subscribe "projects/p/subscriptions/s" "callback");
     ECall (future_result "projects/p/subscriptions/s")].
Proof. reflexivity. Qed.

End Subscribing.

(* ================================================================= *)
(** ** Where exceptions stop *)

Module Containment.
Import PyStr Py Outcome RunFacts Facade.
Open Scope Z_scope.

Create HintDb ends.

Section Ends.

Variable sdk : oracle.

(** Whether a run may go on for ever. *)
Variable d : Prop.

Hypothesis Htame : raises_only_Exception sdk.
Hypothesis Hhang : forall R h (c : call R), sdk R h c = Hang -> d.

Local Abbreviation ends := (Outcome.ends sdk d).

Lemma ends_ret {A} (Q : A -> Prop) E (a : A) : Q a -> ends Q E (ret a).
Proof. intros H h. exact H. Qed.

Lemma ends_bind {A B} (Q : A -> Prop) (Q' : B -> Prop) E (m : M A) (f : A -> M B) :
  ends Q E m -> (forall a, Q a -> ends Q' E (f a)) -> ends Q' E (bind m f).
Proof.
  intros Hm Hf h. unfold bind. specialize (Hm h).
  destruct (m sdk h) as [es [a|e|]]; cbn [snd] in *; try exact Hm.
  specialize (Hf a Hm (h ++ es)%list). now destruct (f a sdk (h ++ es)%list).
Qed.

Lemma ends_try {A} (Q : A -> Prop) E E' (m : M A) (handler : exn -> M A) :
  ends Q E m -> (forall e, E e -> ends Q E' (handler e)) ->
  ends Q E' (try_except m handler).
Proof.
  intros Hm Hh h. unfold try_except. specialize (Hm h).
  destruct (m sdk h) as [es [a|e|]]; cbn [snd] in *; try exact Hm.
  specialize (Hh e Hm (h ++ es)%list). now destruct (handler e sdk (h ++ es)%list).
Qed.

Lemma ends_weaken {A} (Q Q' : A -> Prop) (E E' : exn -> Prop) (m : M A) :
  ends Q E m -> (forall a, Q a -> Q' a) -> (forall e, E e -> E' e) -> ends Q' E' m.
Proof.
  intros Hm HQ HE h. specialize (Hm h). destruct (snd (m sdk h)); auto.
Qed.

Lemma any_ret {A} E (a : A) : ends any E (ret a).
Proof. now apply ends_ret. Qed.

Lemma any_bind {A B} E (m : M A) (f : A -> M B) :
  ends any E m -> (forall a, ends any E (f a)) -> ends any E (bind m f).
Proof. intros Hm Hf. apply (ends_bind any); auto. Qed.

Lemma any_try {A} E' (m : M A) (handler : exn -> M A) :
  ends any caught m -> (forall e, caught e -> ends any E' (handler e)) ->
  ends any E' (try_except m handler).
Proof. apply ends_try. Qed.

Lemma any_emit E (ev : event) : ends any E (emit ev).
Proof. intros h. exact I. Qed.

Lemma any_log_text E text sev labels : ends any E (log_text text sev labels).
Proof. apply any_emit. Qed.

Lemma any_sleep E seconds : ends any E (sleep seconds).
Proof. apply any_emit. Qed.

Lemma any_attempt E fn retry : ends any E (attempt fn retry).
Proof. apply any_emit. Qed.

Lemma caught_perform {R} (c : call R) : ends any caught (perform c).
Proof.
  intros h. unfold perform. cbn [snd].
  destruct (sdk R h c) eqn:E; [exact I | exact (Htame _ _ _ _ E) | exact (Hhang _ _ _ E)].
Qed.

Lemma caught_raise {A} (e : exn) : caught e -> ends (@any A) caught (raise e).
Proof. intros H h. exact H. Qed.

Lemma any_if {A} E (b : bool) (m m' : M A) :
  ends any E m -> ends any E m' -> ends any E (if b then m else m').
Proof. destruct b; auto. Qed.

Lemma any_except_Exception {A} E (handler : exn -> M A) (e : exn) :
  caught e -> ends any E (handler e) -> ends any E (Storage.except_Exception handler e).
Proof. intros He H. unfold Storage.except_Exception. now rewrite He. Qed.

Lemma any_fmap {A B} E (f : A -> B) (m : M A) : ends any E m -> ends any E (fmap f m).
Proof.
  intros Hm h. rewrite run_fmap. cbn [snd]. specialize (Hm h).
  now destruct (snd (m sdk h)).
Qed.

Lemma none_caught {A} (m : M A) : ends any none m -> ends any caught m.
Proof.
  intros Hm h. specialize (Hm h). destruct (snd (m sdk h)); auto. destruct Hm.
Qed.

#[local] Hint Resolve any_ret any_bind any_try any_emit any_log_text any_sleep
  any_attempt caught_perform caught_raise any_if any_except_Exception any_fmap : ends.
#[local] Hint Extern 1 (caught _) => reflexivity : ends.

Ltac block blk :=
  unfold blk;
  repeat match goal with |- context [let (_, _) := ?p in _] => destruct p end;
  auto 30 with ends.

(** The guarded blocks raise nothing but what the client raises. *)
Lemma caught_move_file_gs_try labels a b dl :
  ends any caught (Storage.move_file_gs_try labels a b dl).
Proof. block Storage.move_file_gs_try. Qed.

Lemma caught_rename_gs_try labels p n : ends any caught (Storage.rename_gs_try labels p n).
Proof. block Storage.rename_gs_try. Qed.

Lemma caught_download_file_from_gs_try labels p l :
  ends any caught (Storage.download_file_from_gs_try labels p l).
Proof. block Storage.download_file_from_gs_try. Qed.

Lemma caught_upload_file_to_gs_try labels l p dl :
  ends any caught (Storage.upload_file_to_gs_try labels l p dl).
Proof. block Storage.upload_file_to_gs_try. Qed.

Lemma caught_delete_file_from_gs_try labels p :
  ends any caught (Storage.delete_file_from_gs_try labels p).
Proof. block Storage.delete_file_from_gs_try. Qed.

Lemma caught_wait_job labels timeout job_id text :
  ends any caught (Bq.wait_job labels timeout job_id text).
Proof. block Bq.wait_job. Qed.

#[local] Hint Resolve caught_wait_job : ends.

Lemma caught_insert_file_try labels timeout p dn t s f w fd q lr mb :
  ends any caught (Bq.insert_file_try labels timeout p dn t s f w fd q lr mb).
Proof. block Bq.insert_file_try. Qed.

Lemma caught_run_queryjob_try labels timeout dn t q l w a :
  ends any caught (Bq.run_queryjob_try labels timeout dn t q l w a).
Proof. block Bq.run_queryjob_try. Qed.

Lemma caught_run_extractjob_try labels timeout u dn t c f fd ph :
  ends any caught (Bq.run_extractjob_try labels timeout u dn t c f fd ph).
Proof. block Bq.run_extractjob_try. Qed.

Lemma caught_publish_try bytes_repr labels topic data attrs :
  ends any caught (Publisher.publish_try bytes_repr labels topic data attrs).
Proof. block Publisher.publish_try. Qed.

Lemma caught_files_of_blobs bucket names :
  ends any caught (Storage.files_of_blobs bucket names).
Proof.
  induction names as [|name names IH]; cbn [Storage.files_of_blobs]; auto with ends.
  destruct (last_char name); auto with ends.
Qed.

#[local] Hint Resolve caught_move_file_gs_try caught_rename_gs_try
  caught_download_file_from_gs_try caught_upload_file_to_gs_try
  caught_delete_file_from_gs_try caught_insert_file_try caught_run_queryjob_try
  caught_run_extractjob_try caught_publish_try caught_files_of_blobs : ends.

(** The functions without a retry counter. *)
Lemma none_file_exist_gs labels p : ends any none (Storage.file_exist_gs labels p).
Proof. block Storage.file_exist_gs. Qed.

Lemma none_rename_gs labels p n : ends any none (Storage.rename_gs labels p n).
Proof. block Storage.rename_gs. Qed.

Lemma none_list_files_from_gs labels p r :
  ends any none (Storage.list_files_from_gs labels p r).
Proof.
  unfold Storage.list_files_from_gs. apply any_try; [|auto 10 with ends].
  destruct (last_char p); [|auto with ends].
  match goal with |- context [let (_, _) := ?x in _] => destruct x end.
  auto 20 with ends.
Qed.

Lemma none_build_schema_from_list labels l m :
  ends any none (Bq.build_schema_from_list labels l m).
Proof.
  unfold Bq.build_schema_from_list. apply any_try; [|auto 10 with ends].
  apply any_bind; [|auto with ends].
  intros h. cbn [snd]. clear h.
  induction l as [|[[name type] mode] l IH]; cbn [Bq.fields_of_list]; [exact I|].
  destruct m as [m|]; [|destruct mode as [mode|]; [|reflexivity]];
    destruct (Bq.fields_of_list l _); auto.
Qed.

Lemma none_build_schema_from_non_dict labels v :
  ends any none (Bq.build_schema_from_non_dict labels v).
Proof. block Bq.build_schema_from_non_dict. Qed.

#[local] Hint Resolve none_build_schema_from_non_dict : ends.

Lemma stopped_vals_loop labels ub k v vals acc :
  ends stopped none (Bq.vals_loop labels ub k v vals acc).
Proof.
  revert acc. induction vals as [|val vals IH]; intros acc; cbn [Bq.vals_loop].
  - now apply ends_ret.
  - destruct val; [apply IH|..];
      (destruct ub; cbn [Bq.or_isinstance_unicode];
       [ apply (ends_bind any); [auto with ends | intros; apply IH]
       | apply ends_ret; reflexivity ]).
Qed.

Lemma none_build_schema_from_dict labels ub v m :
  ends any none (Bq.build_schema_from_dict labels ub v m).
Proof.
  induction v as [s|items IH|elems|s t] using pyval_nested_ind;
    cbn [Bq.build_schema_from_dict]; auto with ends.
  apply (ends_bind stopped).
  - match goal with |- ends _ _ (?loop items []) =>
      enough (Hloop : forall acc, ends stopped none (loop items acc)) by apply Hloop
    end.
    induction IH as [|[k v] items Hv _ IHitems]; intros acc.
    + now apply ends_ret.
    + cbn [snd] in Hv. lazy beta iota fix.
      destruct v as [s|sub|vals|s t]; [apply IHitems|..];
        (destruct ub; cbn [Bq.or_isinstance_unicode];
         [|apply ends_ret; reflexivity]).
      * apply (ends_bind any); [exact Hv | intros; apply IHitems].
      * apply (ends_bind stopped); [apply stopped_vals_loop|].
        intros [sb [e|]] Hr; [now apply ends_ret | apply IHitems].
      * apply (ends_bind any); [auto with ends | intros; apply IHitems].
  - intros [sb [e|]] Hr; [|auto with ends].
    apply any_except_Exception; [exact Hr | auto with ends].
Qed.

(** The topic check ends with what its creation call ends with. *)
Lemma ensure_topic_ends topic :
  (forall h es e, Publisher.ensure_topic topic sdk h <> (es, Exn e)) ->
  ends any none (Publisher.ensure_topic topic).
Proof.
  intros Hno h. specialize (Hno h).
  assert (Hd : ends any caught (Publisher.ensure_topic topic)).
  { unfold Publisher.ensure_topic. apply ends_try with (E := fun _ => True).
    - apply (ends_weaken any any caught); auto with ends.
    - auto with ends. }
  specialize (Hd h).
  destruct (Publisher.ensure_topic topic sdk h) as [es [a|e|]]; cbn [snd] in *; auto.
  now apply (Hno es e).
Qed.

(** The functions with a retry counter, on a budget that covers the
    retries left. *)
Tactic Notation "contain" reference(rec) constr(C) :=
  let n := fresh "n" in
  let IH := fresh "IH" in
  let retry := fresh "retry" in
  let Hb := fresh "Hb" in
  let e := fresh "e" in
  let He := fresh "He" in
  intros budget; induction budget as [|n IH]; intros retry Hb;
  cbn [rec];
  (apply any_bind; [apply any_attempt | intros _]);
  (apply any_try; [auto with ends | intros e He]);
  unfold Storage.except_Exception; rewrite ?He;
  repeat match goal with
  | |- ends _ _ (if isinstance_NotFound ?e then _ else _) =>
      destruct (isinstance_NotFound e); [auto with ends|]
  | |- ends _ _ (if isinstance_Conflict ?e then _ else _) =>
      destruct (isinstance_Conflict e); [auto with ends|]
  end;
  rewrite ?He;
  try (apply any_bind; [apply any_log_text | intros _]);
  (destruct (Z.ltb_spec retry C); [|auto with ends]);
  repeat (apply any_bind; [auto with ends | intros _]);
  first [ apply IH; lia | exfalso; lia ].

Lemma none_move_file_gs_rec labels a b dl :
  forall budget retry, (Z.to_nat (3 - retry) <= budget)%nat ->
  ends any none (Storage.move_file_gs_rec labels budget a b dl retry).
Proof.
  contain Storage.move_file_gs_rec 3.
Qed.

Lemma none_download_file_from_gs_rec labels p l :
  forall budget retry, (Z.to_nat (3 - retry) <= budget)%nat ->
  ends any none (Storage.download_file_from_gs_rec labels budget p l retry).
Proof. contain Storage.download_file_from_gs_rec 3. Qed.

Lemma none_upload_file_to_gs_rec labels l p dl :
  forall budget retry, (Z.to_nat (3 - retry) <= budget)%nat ->
  ends any none (Storage.upload_file_to_gs_rec labels budget l p dl retry).
Proof. contain Storage.upload_file_to_gs_rec 3. Qed.

Lemma none_delete_file_from_gs_rec labels p :
  forall budget retry, (Z.to_nat (2 - retry) <= budget)%nat ->
  ends any none (Storage.delete_file_from_gs_rec labels budget p retry).
Proof. contain Storage.delete_file_from_gs_rec 2. Qed.

Lemma none_insert_file_rec labels timeout p dn t s f w fd q lr mb :
  forall budget retry, (Z.to_nat (3 - retry) <= budget)%nat ->
  ends any none (Bq.insert_file_rec labels timeout budget p dn t s f w fd q lr mb retry).
Proof. contain Bq.insert_file_rec 3. Qed.

Lemma none_run_queryjob_rec labels timeout dn t q l w a :
  forall budget retry, (Z.to_nat (3 - retry) <= budget)%nat ->
  ends any none (Bq.run_queryjob_rec labels timeout budget dn t q l w a retry).
Proof. contain Bq.run_queryjob_rec 3. Qed.

Lemma none_run_extractjob_rec labels timeout u dn t c f fd ph :
  forall budget retry, (Z.to_nat (3 - retry) <= budget)%nat ->
  ends any none (Bq.run_extractjob_rec labels timeout budget u dn t c f fd ph retry).
Proof. contain Bq.run_extractjob_rec 3. Qed.

(** The confirmation loop may use up its fuel: it needs [d]. *)
Lemma any_wait_table E fuel dn t b : d -> ends any E (Bq.wait_table fuel dn t b).
Proof.
  intros Hd. revert b. induction fuel as [|n IH]; intros [|]; cbn [Bq.wait_table];
    auto with ends.
  intros h. exact Hd.
Qed.

Lemma caught_createwait_table_try labels fuel dn t s :
  d -> ends any caught (Bq.createwait_table_try labels fuel dn t s).
Proof.
  intros Hd. unfold Bq.createwait_table_try.
  apply any_bind; [auto with ends | intros _].
  apply any_bind; [now apply any_wait_table | auto with ends].
Qed.

Lemma none_createwait_table_rec labels fuel dn t s :
  d ->
  forall budget retry, (Z.to_nat (3 - retry) <= budget)%nat ->
  ends any none (Bq.createwait_table_rec labels budget fuel dn t s retry).
Proof.
  intros Hd. pose proof (caught_createwait_table_try labels fuel dn t s Hd) as Htry.
  contain Bq.createwait_table_rec 3.
Qed.

Lemma none_publish_rec json_dumps bytes_repr labels p t m a :
  ends any none (Publisher.ensure_topic (Publisher.topic_path p t)) ->
  forall budget retry, (Z.to_nat (2 - retry) <= budget)%nat ->
  ends any none (Publisher.publish_rec json_dumps bytes_repr budget labels p t m a retry).
Proof.
  intros Hens budget. induction budget as [|n IH]; intros retry Hb;
    cbn [Publisher.publish_rec];
    (apply any_bind; [apply any_attempt | intros _]);
    (apply any_bind; [exact Hens | intros status]);
    (apply any_bind; [apply any_log_text | intros _]);
    (apply any_bind; [destruct a; auto with ends | intros attrs]);
    (apply any_try; [auto with ends | intros e He]);
    (apply any_except_Exception; [exact He|]);
    (apply any_bind; [apply any_log_text | intros _]);
    (destruct (Z.ltb_spec retry 2); [|auto with ends]);
    (apply any_bind; [apply any_sleep | intros _]);
    first [ apply IH; lia | exfalso; lia ].
Qed.

(** Every operation that guards its calls ends without an exception. *)
Lemma none_invoke (cf : config) (op : operation) (retry : Z) :
  guards_calls op = true ->
  (loops op = true -> d) ->
  (forall h es e, unguarded op sdk h <> (es, Exn e)) ->
  ends any none (invoke cf op retry).
Proof.
  intros Hop Hloop Hpre.
  destruct op; try discriminate Hop; cbn [invoke]; apply any_fmap.
  - apply none_file_exist_gs.
  - unfold Storage.move_file_gs. apply none_move_file_gs_rec, le_n.
  - unfold Storage.move_file_gs. apply none_move_file_gs_rec, le_n.
  - apply none_rename_gs.
  - unfold Storage.download_file_from_gs. apply none_download_file_from_gs_rec, le_n.
  - unfold Storage.upload_file_to_gs. apply none_upload_file_to_gs_rec, le_n.
  - apply none_list_files_from_gs.
  - unfold Storage.delete_file_from_gs. apply none_delete_file_from_gs_rec, le_n.
  - unfold Bq.createwait_table.
    apply none_createwait_table_rec; [now apply Hloop | apply le_n].
  - apply none_build_schema_from_list.
  - apply none_build_schema_from_dict.
  - unfold Bq.insert_file. apply none_insert_file_rec, le_n.
  - unfold Bq.run_queryjob. apply none_run_queryjob_rec, le_n.
  - unfold Bq.run_extractjob. apply none_run_extractjob_rec, le_n.
  - unfold Publisher.publish. apply none_publish_rec; [|apply le_n].
    apply ensure_topic_ends. intros h es e E.
    apply (Hpre h es e). cbn [unguarded]. now rewrite run_fmap, E.
Qed.

End Ends.




End Containment.

(* ================================================================= *)
(** ** One attempt after another *)

Module RetrySteps.
Import PyStr Py Outcome RunFacts Facade Blocks Derived.
Open Scope Z_scope.

Lemma keyboard_interrupt_classes (e : exn) :
  isinstance_Exception e = false ->
  isinstance_NotFound e = false /\ isinstance_Conflict e = false.
Proof.
  unfold isinstance_Exception, isinstance_NotFound, isinstance_Conflict.
  destruct (exn_cls e); intros H; try discriminate H; split; reflexivity.
Qed.

Lemma fmap_val_inv {A B} (f : A -> B) (m : M A) sdk h es v :
  fmap f m sdk h = (es, Val v) -> exists a, m sdk h = (es, Val a) /\ v = f a.
Proof.
  rewrite run_fmap. destruct (m sdk h) as [es' [a|e|]]; cbn [fst snd];
    intros E; inversion E; subst. now exists a.
Qed.

(** A failed attempt below the ceiling, function by function. *)
Tactic Notation "one_step" reference(fn) reference(rec) constr(C) constr(E) constr(Hr)
       constr(Hlt) :=
  let HE := fresh "HE" in
  let HN := fresh "HN" in
  let HC := fresh "HC" in
  destruct (retriable_classes _ Hr) as (HE & HN & HC);
  unfold fn;
  match goal with |- context [Z.to_nat (C - ?retry)] =>
    replace (Z.to_nat (C - retry)) with (S (Z.to_nat (C - (retry + 1)))) by lia
  end;
  cbn [rec];
  rewrite (run_bind _ _ _ _ [EAttempt _ _] tt) by reflexivity;
  rewrite (run_try_exn _ _ _ _ _ _ E);
  rewrite ?HN, ?HC; unfold Storage.except_Exception; rewrite HE;
  match goal with |- context [?retry <? C] =>
    replace (retry <? C) with true by (symmetry; apply Z.ltb_lt; lia)
  end;
  rewrite (run_bind _ _ _ _ [ELog _ _ _] tt) by reflexivity;
  rewrite (run_bind _ _ _ _ [ESleep _] tt) by reflexivity;
  cbn [fst snd app]; rewrite <- !app_assoc; cbn [app];
  eexists; reflexivity.

(** An attempt whose guarded block returns. *)
Tactic Notation "first_try" reference(fn) reference(rec) constr(C) constr(E) :=
  unfold fn;
  match goal with |- context [Z.to_nat (C - ?retry)] =>
    destruct (Z.to_nat (C - retry))
  end;
  cbn [rec];
  rewrite (run_bind _ _ _ _ [EAttempt _ _] tt) by reflexivity;
  rewrite (run_try_val _ _ _ _ _ _ E); reflexivity.

(** An attempt whose guarded block raises what no handler takes. *)
Tactic Notation "not_taken" reference(fn) reference(rec) constr(C) constr(E) constr(HE) :=
  let HN := fresh "HN" in
  let HC := fresh "HC" in
  destruct (keyboard_interrupt_classes _ HE) as (HN & HC);
  unfold fn;
  match goal with |- context [Z.to_nat (C - ?retry)] =>
    destruct (Z.to_nat (C - retry))
  end;
  cbn [rec];
  rewrite (run_bind _ _ _ _ [EAttempt _ _] tt) by reflexivity;
  rewrite (run_try_exn _ _ _ _ _ _ E);
  rewrite ?HN, ?HC; unfold Storage.except_Exception; rewrite HE;
  unfold raise; cbn [fst snd app]; rewrite app_nil_r; reflexivity.

(** The attempt at or above the ceiling: an ERROR line and the
    sentinel. *)
Tactic Notation "last_try" reference(fn) reference(rec) constr(C) constr(E) constr(Hr)
       constr(Hge) :=
  let HE := fresh "HE" in
  let HN := fresh "HN" in
  let HC := fresh "HC" in
  destruct (retriable_classes _ Hr) as (HE & HN & HC);
  unfold fn;
  match goal with |- context [Z.to_nat (C - ?retry)] =>
    destruct (Z.to_nat (C - retry))
  end;
  cbn [rec];
  rewrite (run_bind _ _ _ _ [EAttempt _ _] tt) by reflexivity;
  rewrite (run_try_exn _ _ _ _ _ _ E);
  rewrite ?HN, ?HC; unfold Storage.except_Exception; rewrite HE;
  match goal with |- context [?retry <? C] =>
    replace (retry <? C) with false by (symmetry; apply Z.ltb_ge; lia)
  end;
  run_events; eexists; reflexivity.

Lemma move_file_gs_step labels a b dl retry (sdk : oracle) h es e :
  Storage.move_file_gs_try labels a b dl sdk (h ++ [EAttempt "move_file_gs" retry])%list = (es, Exn e) ->
  retriable e = true -> retry < 3 ->
  exists text,
    Storage.move_file_gs labels a b dl retry sdk h
    = (let next := Storage.move_file_gs labels a b dl (retry + 1) sdk
                     (h ++ EAttempt "move_file_gs" retry
                        :: es ++ [ELog WARNING text labels; ESleep 3])%list in
       ((EAttempt "move_file_gs" retry :: es ++ ELog WARNING text labels :: ESleep 3
           :: fst next)%list, snd next)).
Proof.
  intros E Hr Hlt. one_step Storage.move_file_gs Storage.move_file_gs_rec 3 E Hr Hlt.
Qed.

Lemma move_file_gs_first labels a b dl retry (sdk : oracle) h es v :
  Storage.move_file_gs_try labels a b dl sdk (h ++ [EAttempt "move_file_gs" retry])%list = (es, Val v) ->
  Storage.move_file_gs labels a b dl retry sdk h = (EAttempt "move_file_gs" retry :: es, Val v).
Proof. intros E. first_try Storage.move_file_gs Storage.move_file_gs_rec 3 E. Qed.

Lemma move_file_gs_not_taken labels a b dl retry (sdk : oracle) h es e :
  Storage.move_file_gs_try labels a b dl sdk (h ++ [EAttempt "move_file_gs" retry])%list = (es, Exn e) ->
  isinstance_Exception e = false ->
  Storage.move_file_gs labels a b dl retry sdk h = (EAttempt "move_file_gs" retry :: es, Exn e).
Proof. intros E HE. not_taken Storage.move_file_gs Storage.move_file_gs_rec 3 E HE. Qed.

Lemma download_file_from_gs_step labels p l retry (sdk : oracle) h es e :
  Storage.download_file_from_gs_try labels p l sdk (h ++ [EAttempt "download_file_from_gs" retry])%list = (es, Exn e) ->
  retriable e = true -> retry < 3 ->
  exists text,
    Storage.download_file_from_gs labels p l retry sdk h
    = (let next := Storage.download_file_from_gs labels p l (retry + 1) sdk
                     (h ++ EAttempt "download_file_from_gs" retry
                        :: es ++ [ELog WARNING text labels; ESleep 3])%list in
       ((EAttempt "download_file_from_gs" retry :: es ++ ELog WARNING text labels :: ESleep 3
           :: fst next)%list, snd next)).
Proof.
  intros E Hr Hlt. one_step Storage.download_file_from_gs Storage.download_file_from_gs_rec 3 E Hr Hlt.
Qed.

Lemma download_file_from_gs_first labels p l retry (sdk : oracle) h es v :
  Storage.download_file_from_gs_try labels p l sdk (h ++ [EAttempt "download_file_from_gs" retry])%list = (es, Val v) ->
  Storage.download_file_from_gs labels p l retry sdk h = (EAttempt "download_file_from_gs" retry :: es, Val v).
Proof. intros E. first_try Storage.download_file_from_gs Storage.download_file_from_gs_rec 3 E. Qed.

Lemma download_file_from_gs_not_taken labels p l retry (sdk : oracle) h es e :
  Storage.download_file_from_gs_try labels p l sdk (h ++ [EAttempt "download_file_from_gs" retry])%list = (es, Exn e) ->
  isinstance_Exception e = false ->
  Storage.download_file_from_gs labels p l retry sdk h = (EAttempt "download_file_from_gs" retry :: es, Exn e).
Proof. intros E HE. not_taken Storage.download_file_from_gs Storage.download_file_from_gs_rec 3 E HE. Qed.

Lemma upload_file_to_gs_step labels l p dl retry (sdk : oracle) h es e :
  Storage.upload_file_to_gs_try labels l p dl sdk (h ++ [EAttempt "upload_file_to_gs" retry])%list = (es, Exn e) ->
  retriable e = true -> retry < 3 ->
  exists text,
    Storage.upload_file_to_gs labels l p dl retry sdk h
    = (let next := Storage.upload_file_to_gs labels l p dl (retry + 1) sdk
                     (h ++ EAttempt "upload_file_to_gs" retry
                        :: es ++ [ELog WARNING text labels; ESleep 3])%list in
       ((EAttempt "upload_file_to_gs" retry :: es ++ ELog WARNING text labels :: ESleep 3
           :: fst next)%list, snd next)).
Proof.
  intros E Hr Hlt. one_step Storage.upload_file_to_gs Storage.upload_file_to_gs_rec 3 E Hr Hlt.
Qed.

Lemma upload_file_to_gs_first labels l p dl retry (sdk : oracle) h es v :
  Storage.upload_file_to_gs_try labels l p dl sdk (h ++ [EAttempt "upload_file_to_gs" retry])%list = (es, Val v) ->
  Storage.upload_file_to_gs labels l p dl retry sdk h = (EAttempt "upload_file_to_gs" retry :: es, Val v).
Proof. intros E. first_try Storage.upload_file_to_gs Storage.upload_file_to_gs_rec 3 E. Qed.

Lemma upload_file_to_gs_not_taken labels l p dl retry (sdk : oracle) h es e :
  Storage.upload_file_to_gs_try labels l p dl sdk (h ++ [EAttempt "upload_file_to_gs" retry])%list = (es, Exn e) ->
  isinstance_Exception e = false ->
  Storage.upload_file_to_gs labels l p dl retry sdk h = (EAttempt "upload_file_to_gs" retry :: es, Exn e).
Proof. intros E HE. not_taken Storage.upload_file_to_gs Storage.upload_file_to_gs_rec 3 E HE. Qed.

Lemma delete_file_from_gs_step labels p retry (sdk : oracle) h es e :
  Storage.delete_file_from_gs_try labels p sdk (h ++ [EAttempt "delete_file_from_gs" retry])%list = (es, Exn e) ->
  retriable e = true -> retry < 2 ->
  exists text,
    Storage.delete_file_from_gs labels p retry sdk h
    = (let next := Storage.delete_file_from_gs labels p (retry + 1) sdk
                     (h ++ EAttempt "delete_file_from_gs" retry
                        :: es ++ [ELog WARNING text labels; ESleep 3])%list in
       ((EAttempt "delete_file_from_gs" retry :: es ++ ELog WARNING text labels :: ESleep 3
           :: fst next)%list, snd next)).
Proof.
  intros E Hr Hlt. one_step Storage.delete_file_from_gs Storage.delete_file_from_gs_rec 2 E Hr Hlt.
Qed.

Lemma delete_file_from_gs_first labels p retry (sdk : oracle) h es v :
  Storage.delete_file_from_gs_try labels p sdk (h ++ [EAttempt "delete_file_from_gs" retry])%list = (es, Val v) ->
  Storage.delete_file_from_gs labels p retry sdk h = (EAttempt "delete_file_from_gs" retry :: es, Val v).
Proof. intros E. first_try Storage.delete_file_from_gs Storage.delete_file_from_gs_rec 2 E. Qed.

Lemma delete_file_from_gs_not_taken labels p retry (sdk : oracle) h es e :
  Storage.delete_file_from_gs_try labels p sdk (h ++ [EAttempt "delete_file_from_gs" retry])%list = (es, Exn e) ->
  isinstance_Exception e = false ->
  Storage.delete_file_from_gs labels p retry sdk h = (EAttempt "delete_file_from_gs" retry :: es, Exn e).
Proof. intros E HE. not_taken Storage.delete_file_from_gs Storage.delete_file_from_gs_rec 2 E HE. Qed.

Lemma createwait_table_step labels fuel dn t s retry (sdk : oracle) h es e :
  Bq.createwait_table_try labels fuel dn t s sdk (h ++ [EAttempt "createwait_table" retry])%list = (es, Exn e) ->
  retriable e = true -> retry < 3 ->
  exists text,
    Bq.createwait_table labels fuel dn t s retry sdk h
    = (let next := Bq.createwait_table labels fuel dn t s (retry + 1) sdk
                     (h ++ EAttempt "createwait_table" retry
                        :: es ++ [ELog WARNING text labels; ESleep 5])%list in
       ((EAttempt "createwait_table" retry :: es ++ ELog WARNING text labels :: ESleep 5
           :: fst next)%list, snd next)).
Proof.
  intros E Hr Hlt. one_step Bq.createwait_table Bq.createwait_table_rec 3 E Hr Hlt.
Qed.

Lemma createwait_table_first labels fuel dn t s retry (sdk : oracle) h es v :
  Bq.createwait_table_try labels fuel dn t s sdk (h ++ [EAttempt "createwait_table" retry])%list = (es, Val v) ->
  Bq.createwait_table labels fuel dn t s retry sdk h = (EAttempt "createwait_table" retry :: es, Val v).
Proof. intros E. first_try Bq.createwait_table Bq.createwait_table_rec 3 E. Qed.

Lemma createwait_table_not_taken labels fuel dn t s retry (sdk : oracle) h es e :
  Bq.createwait_table_try labels fuel dn t s sdk (h ++ [EAttempt "createwait_table" retry])%list = (es, Exn e) ->
  isinstance_Exception e = false ->
  Bq.createwait_table labels fuel dn t s retry sdk h = (EAttempt "createwait_table" retry :: es, Exn e).
Proof. intros E HE. not_taken Bq.createwait_table Bq.createwait_table_rec 3 E HE. Qed.

Lemma insert_file_step labels timeout p dn t s f w fd q lr mb retry (sdk : oracle) h es e :
  Bq.insert_file_try labels timeout p dn t s f w fd q lr mb sdk (h ++ [EAttempt "insert_file" retry])%list = (es, Exn e) ->
  retriable e = true -> retry < 3 ->
  exists text,
    Bq.insert_file labels timeout p dn t s f w fd q lr mb retry sdk h
    = (let next := Bq.insert_file labels timeout p dn t s f w fd q lr mb (retry + 1) sdk
                     (h ++ EAttempt "insert_file" retry
                        :: es ++ [ELog WARNING text labels; ESleep 5])%list in
       ((EAttempt "insert_file" retry :: es ++ ELog WARNING text labels :: ESleep 5
           :: fst next)%list, snd next)).
Proof.
  intros E Hr Hlt. one_step Bq.insert_file Bq.insert_file_rec 3 E Hr Hlt.
Qed.

Lemma insert_file_first labels timeout p dn t s f w fd q lr mb retry (sdk : oracle) h es v :
  Bq.insert_file_try labels timeout p dn t s f w fd q lr mb sdk (h ++ [EAttempt "insert_file" retry])%list = (es, Val v) ->
  Bq.insert_file labels timeout p dn t s f w fd q lr mb retry sdk h = (EAttempt "insert_file" retry :: es, Val v).
Proof. intros E. first_try Bq.insert_file Bq.insert_file_rec 3 E. Qed.

Lemma insert_file_not_taken labels timeout p dn t s f w fd q lr mb retry (sdk : oracle) h es e :
  Bq.insert_file_try labels timeout p dn t s f w fd q lr mb sdk (h ++ [EAttempt "insert_file" retry])%list = (es, Exn e) ->
  isinstance_Exception e = false ->
  Bq.insert_file labels timeout p dn t s f w fd q lr mb retry sdk h = (EAttempt "insert_file" retry :: es, Exn e).
Proof. intros E HE. not_taken Bq.insert_file Bq.insert_file_rec 3 E HE. Qed.

Lemma run_queryjob_step labels timeout dn t q l w a retry (sdk : oracle) h es e :
  Bq.run_queryjob_try labels timeout dn t q l w a sdk (h ++ [EAttempt "run_queryjob" retry])%list = (es, Exn e) ->
  retriable e = true -> retry < 3 ->
  exists text,
    Bq.run_queryjob labels timeout dn t q l w a retry sdk h
    = (let next := Bq.run_queryjob labels timeout dn t q l w a (retry + 1) sdk
                     (h ++ EAttempt "run_queryjob" retry
                        :: es ++ [ELog WARNING text labels; ESleep 5])%list in
       ((EAttempt "run_queryjob" retry :: es ++ ELog WARNING text labels :: ESleep 5
           :: fst next)%list, snd next)).
Proof.
  intros E Hr Hlt. one_step Bq.run_queryjob Bq.run_queryjob_rec 3 E Hr Hlt.
Qed.

Lemma run_queryjob_first labels timeout dn t q l w a retry (sdk : oracle) h es v :
  Bq.run_queryjob_try labels timeout dn t q l w a sdk (h ++ [EAttempt "run_queryjob" retry])%list = (es, Val v) ->
  Bq.run_queryjob labels timeout dn t q l w a retry sdk h = (EAttempt "run_queryjob" retry :: es, Val v).
Proof. intros E. first_try Bq.run_queryjob Bq.run_queryjob_rec 3 E. Qed.

Lemma run_queryjob_not_taken labels timeout dn t q l w a retry (sdk : oracle) h es e :
  Bq.run_queryjob_try labels timeout dn t q l w a sdk (h ++ [EAttempt "run_queryjob" retry])%list = (es, Exn e) ->
  isinstance_Exception e = false ->
  Bq.run_queryjob labels timeout dn t q l w a retry sdk h = (EAttempt "run_queryjob" retry :: es, Exn e).
Proof. intros E HE. not_taken Bq.run_queryjob Bq.run_queryjob_rec 3 E HE. Qed.

Lemma run_extractjob_step labels timeout u dn t c f fd ph retry (sdk : oracle) h es e :
  Bq.run_extractjob_try labels timeout u dn t c f fd ph sdk (h ++ [EAttempt "run_extractjob" retry])%list = (es, Exn e) ->
  retriable e = true -> retry < 3 ->
  exists text,
    Bq.run_extractjob labels timeout u dn t c f fd ph retry sdk h
    = (let next := Bq.run_extractjob labels timeout u dn t c f fd ph (retry + 1) sdk
                     (h ++ EAttempt "run_extractjob" retry
                        :: es ++ [ELog WARNING text labels; ESleep 5])%list in
       ((EAttempt "run_extractjob" retry :: es ++ ELog WARNING text labels :: ESleep 5
           :: fst next)%list, snd next)).
Proof.
  intros E Hr Hlt. one_step Bq.run_extractjob Bq.run_extractjob_rec 3 E Hr Hlt.
Qed.

Lemma run_extractjob_first labels timeout u dn t c f fd ph retry (sdk : oracle) h es v :
  Bq.run_extractjob_try labels timeout u dn t c f fd ph sdk (h ++ [EAttempt "run_extractjob" retry])%list = (es, Val v) ->
  Bq.run_extractjob labels timeout u dn t c f fd ph retry sdk h = (EAttempt "run_extractjob" retry :: es, Val v).
Proof. intros E. first_try Bq.run_extractjob Bq.run_extractjob_rec 3 E. Qed.

Lemma run_extractjob_not_taken labels timeout u dn t c f fd ph retry (sdk : oracle) h es e :
  Bq.run_extractjob_try labels timeout u dn t c f fd ph sdk (h ++ [EAttempt "run_extractjob" retry])%list = (es, Exn e) ->
  isinstance_Exception e = false ->
  Bq.run_extractjob labels timeout u dn t c f fd ph retry sdk h = (EAttempt "run_extractjob" retry :: es, Exn e).
Proof. intros E HE. not_taken Bq.run_extractjob Bq.run_extractjob_rec 3 E HE. Qed.

Lemma move_file_gs_last labels a b dl retry (sdk : oracle) h es e :
  Storage.move_file_gs_try labels a b dl sdk (h ++ [EAttempt "move_file_gs" retry])%list = (es, Exn e) ->
  retriable e = true -> 3 <= retry ->
  exists text,
    Storage.move_file_gs labels a b dl retry sdk h
    = ((EAttempt "move_file_gs" retry :: es ++ [ELog ERROR text labels])%list, Val false).
Proof. intros E Hr Hge. last_try Storage.move_file_gs Storage.move_file_gs_rec 3 E Hr Hge. Qed.

Lemma download_file_from_gs_last labels p l retry (sdk : oracle) h es e :
  Storage.download_file_from_gs_try labels p l sdk (h ++ [EAttempt "download_file_from_gs" retry])%list = (es, Exn e) ->
  retriable e = true -> 3 <= retry ->
  exists text,
    Storage.download_file_from_gs labels p l retry sdk h
    = ((EAttempt "download_file_from_gs" retry :: es ++ [ELog ERROR text labels])%list, Val false).
Proof. intros E Hr Hge. last_try Storage.download_file_from_gs Storage.download_file_from_gs_rec 3 E Hr Hge. Qed.

Lemma upload_file_to_gs_last labels l p dl retry (sdk : oracle) h es e :
  Storage.upload_file_to_gs_try labels l p dl sdk (h ++ [EAttempt "upload_file_to_gs" retry])%list = (es, Exn e) ->
  retriable e = true -> 3 <= retry ->
  exists text,
    Storage.upload_file_to_gs labels l p dl retry sdk h
    = ((EAttempt "upload_file_to_gs" retry :: es ++ [ELog ERROR text labels])%list, Val false).
Proof. intros E Hr Hge. last_try Storage.upload_file_to_gs Storage.upload_file_to_gs_rec 3 E Hr Hge. Qed.

Lemma delete_file_from_gs_last labels p retry (sdk : oracle) h es e :
  Storage.delete_file_from_gs_try labels p sdk (h ++ [EAttempt "delete_file_from_gs" retry])%list = (es, Exn e) ->
  retriable e = true -> 2 <= retry ->
  exists text,
    Storage.delete_file_from_gs labels p retry sdk h
    = ((EAttempt "delete_file_from_gs" retry :: es ++ [ELog ERROR text labels])%list, Val false).
Proof. intros E Hr Hge. last_try Storage.delete_file_from_gs Storage.delete_file_from_gs_rec 2 E Hr Hge. Qed.

Lemma createwait_table_last labels fuel dn t s retry (sdk : oracle) h es e :
  Bq.createwait_table_try labels fuel dn t s sdk (h ++ [EAttempt "createwait_table" retry])%list = (es, Exn e) ->
  retriable e = true -> 3 <= retry ->
  exists text,
    Bq.createwait_table labels fuel dn t s retry sdk h
    = ((EAttempt "createwait_table" retry :: es ++ [ELog ERROR text labels])%list, Val false).
Proof. intros E Hr Hge. last_try Bq.createwait_table Bq.createwait_table_rec 3 E Hr Hge. Qed.

Lemma insert_file_last labels timeout p dn t s f w fd q lr mb retry (sdk : oracle) h es e :
  Bq.insert_file_try labels timeout p dn t s f w fd q lr mb sdk (h ++ [EAttempt "insert_file" retry])%list = (es, Exn e) ->
  retriable e = true -> 3 <= retry ->
  exists text,
    Bq.insert_file labels timeout p dn t s f w fd q lr mb retry sdk h
    = ((EAttempt "insert_file" retry :: es ++ [ELog ERROR text labels])%list, Val (None, None)).
Proof. intros E Hr Hge. last_try Bq.insert_file Bq.insert_file_rec 3 E Hr Hge. Qed.

Lemma run_queryjob_last labels timeout dn t q l w a retry (sdk : oracle) h es e :
  Bq.run_queryjob_try labels timeout dn t q l w a sdk (h ++ [EAttempt "run_queryjob" retry])%list = (es, Exn e) ->
  retriable e = true -> 3 <= retry ->
  exists text,
    Bq.run_queryjob labels timeout dn t q l w a retry sdk h
    = ((EAttempt "run_queryjob" retry :: es ++ [ELog ERROR text labels])%list, Val (None, None)).
Proof. intros E Hr Hge. last_try Bq.run_queryjob Bq.run_queryjob_rec 3 E Hr Hge. Qed.

Lemma run_extractjob_last labels timeout u dn t c f fd ph retry (sdk : oracle) h es e :
  Bq.run_extractjob_try labels timeout u dn t c f fd ph sdk (h ++ [EAttempt "run_extractjob" retry])%list = (es, Exn e) ->
  retriable e = true -> 3 <= retry ->
  exists text,
    Bq.run_extractjob labels timeout u dn t c f fd ph retry sdk h
    = ((EAttempt "run_extractjob" retry :: es ++ [ELog ERROR text labels])%list, Val (None, None)).
Proof. intros E Hr Hge. last_try Bq.run_extractjob Bq.run_extractjob_rec 3 E Hr Hge. Qed.

(** The same two steps for the operations as one family. *)
Lemma invoke_step (cf : config) (op : operation) (C : nat) (retry : Z)
      (sdk : oracle) (h es : list event) (e : exn) :
  ceiling op = Some C ->
  warns_then_sleeps op = true ->
  retry < Z.of_nat C ->
  guarded cf op sdk (h ++ entry op retry)%list = (es, Exn e) ->
  retriable e = true ->
  exists text,
    invoke cf op retry sdk h
    = (let next := invoke cf op (retry + 1) sdk
                     (h ++ entry op retry ++ es
                        ++ [ELog WARNING text (labels cf); ESleep (delay op)])%list in
       ((entry op retry ++ es ++ ELog WARNING text (labels cf) :: ESleep (delay op)
           :: fst next)%list, snd next)).
Proof.
  intros HC Hw Hlt E Hr.
  destruct op; cbn [ceiling] in HC; inversion HC; subst C; clear HC;
    try discriminate Hw; cbn [guarded entry fn_name] in E; apply fmap_exn in E;
    cbn [invoke entry fn_name delay app]; cbn in Hlt.
  - destruct (move_file_gs_step _ _ _ _ _ _ _ _ _ E Hr Hlt) as [text Ht].
    exists text. rewrite !run_fmap, Ht. reflexivity.
  - destruct (download_file_from_gs_step _ _ _ _ _ _ _ _ E Hr Hlt) as [text Ht].
    exists text. rewrite !run_fmap, Ht. reflexivity.
  - destruct (upload_file_to_gs_step _ _ _ _ _ _ _ _ _ E Hr Hlt) as [text Ht].
    exists text. rewrite !run_fmap, Ht. reflexivity.
  - destruct (delete_file_from_gs_step _ _ _ _ _ _ _ E Hr Hlt) as [text Ht].
    exists text. rewrite !run_fmap, Ht. reflexivity.
  - destruct (createwait_table_step _ _ _ _ _ _ _ _ _ _ E Hr Hlt) as [text Ht].
    exists text. rewrite !run_fmap, Ht. reflexivity.
  - destruct (insert_file_step _ _ _ _ _ _ _ _ _ _ _ _ _ _ _ _ _ E Hr Hlt) as [text Ht].
    exists text. rewrite !run_fmap, Ht. reflexivity.
  - destruct (run_queryjob_step _ _ _ _ _ _ _ _ _ _ _ _ _ E Hr Hlt) as [text Ht].
    exists text. rewrite !run_fmap, Ht. reflexivity.
  - destruct (run_extractjob_step _ _ _ _ _ _ _ _ _ _ _ _ _ _ E Hr Hlt) as [text Ht].
    exists text. rewrite !run_fmap, Ht. reflexivity.
Qed.

Lemma invoke_last (cf : config) (op : operation) (C : nat) (retry : Z)
      (sdk : oracle) (h es : list event) (e : exn) :
  ceiling op = Some C ->
  warns_then_sleeps op = true ->
  Z.of_nat C <= retry ->
  guarded cf op sdk (h ++ entry op retry)%list = (es, Exn e) ->
  retriable e = true ->
  exists text,
    invoke cf op retry sdk h
    = ((entry op retry ++ es ++ [ELog ERROR text (labels cf)])%list, Val (failure op)).
Proof.
  intros HC Hw Hge E Hr.
  destruct op; cbn [ceiling] in HC; inversion HC; subst C; clear HC;
    try discriminate Hw; cbn [guarded entry fn_name] in E; apply fmap_exn in E;
    cbn [invoke entry fn_name failure app]; cbn in Hge.
  - destruct (move_file_gs_last _ _ _ _ _ _ _ _ _ E Hr Hge) as [text Ht].
    exists text. rewrite !run_fmap, Ht. reflexivity.
  - destruct (download_file_from_gs_last _ _ _ _ _ _ _ _ E Hr Hge) as [text Ht].
    exists text. rewrite !run_fmap, Ht. reflexivity.
  - destruct (upload_file_to_gs_last _ _ _ _ _ _ _ _ _ E Hr Hge) as [text Ht].
    exists text. rewrite !run_fmap, Ht. reflexivity.
  - destruct (delete_file_from_gs_last _ _ _ _ _ _ _ E Hr Hge) as [text Ht].
    exists text. rewrite !run_fmap, Ht. reflexivity.
  - destruct (createwait_table_last _ _ _ _ _ _ _ _ _ _ E Hr Hge) as [text Ht].
    exists text. rewrite !run_fmap, Ht. reflexivity.
  - destruct (insert_file_last _ _ _ _ _ _ _ _ _ _ _ _ _ _ _ _ _ E Hr Hge) as [text Ht].
    exists text. rewrite !run_fmap, Ht. reflexivity.
  - destruct (run_queryjob_last _ _ _ _ _ _ _ _ _ _ _ _ _ E Hr Hge) as [text Ht].
    exists text. rewrite !run_fmap, Ht. reflexivity.
  - destruct (run_extractjob_last _ _ _ _ _ _ _ _ _ _ _ _ _ _ E Hr Hge) as [text Ht].
    exists text. rewrite !run_fmap, Ht. reflexivity.
Qed.

(** X1.  One failed attempt, on every retried function but [publish].
    When the guarded block of the attempt numbered [retry] fails in the
    retried class, then below the ceiling the call logs one WARNING
    line, sleeps the operation's delay and is from there on the same
    call with [retry + 1], whose events and result follow as they are;
    at the ceiling or above it the call logs one ERROR line and returns
    the failure sentinel without sleeping. *)
Theorem failed_attempt_is_retried (cf : config) (op : operation) (C : nat) (retry : Z)
        (sdk : oracle) (h es : list event) (e : exn) :
  ceiling op = Some C ->
  warns_then_sleeps op = true ->
  guarded cf op sdk (h ++ entry op retry)%list = (es, Exn e) ->
  retriable e = true ->
  (retry < Z.of_nat C ->
   exists text,
     invoke cf op retry sdk h
     = (let next := invoke cf op (retry + 1) sdk
                      (h ++ entry op retry ++ es
                         ++ [ELog WARNING text (labels cf); ESleep (delay op)])%list in
        ((entry op retry ++ es ++ ELog WARNING text (labels cf) :: ESleep (delay op)
            :: fst next)%list, snd next)))
  /\ (Z.of_nat C <= retry ->
      exists text,
        invoke cf op retry sdk h
        = ((entry op retry ++ es ++ [ELog ERROR text (labels cf)])%list,
           Val (failure op))).
Proof.
  intros HC Hw E Hr. split; intros Hretry.
  - now apply (invoke_step cf op C retry sdk h es e).
  - now apply (invoke_last cf op C retry sdk h es e).
Qed.

(** The theorem at the first and at the last attempt of an upload that
    meets an outage. *)
Lemma failed_attempt_is_retried_witness :
  (exists text,
     invoke Samples.imported (Op_upload_file_to_gs "/tmp/x" "gs://b/x" false) 0
       (Samples.all_raise Samples.unavailable) []
     = (let next := invoke Samples.imported (Op_upload_file_to_gs "/tmp/x" "gs://b/x" false)
                      (0 + 1) (Samples.all_raise Samples.unavailable)
                      ([EAttempt "upload_file_to_gs" 0; ECall (get_bucket "b");
                        ELog WARNING text [("test", "myvalue")]; ESleep 3]) in
        ((EAttempt "upload_file_to_gs" 0 :: ECall (get_bucket "b")
            :: ELog WARNING text [("test", "myvalue")] :: ESleep 3 :: fst next)%list,
         snd next)))
  /\ (exists text,
        invoke Samples.imported (Op_upload_file_to_gs "/tmp/x" "gs://b/x" false) 3
          (Samples.all_raise Samples.unavailable) []
        = ([EAttempt "upload_file_to_gs" 3; ECall (get_bucket "b");
            ELog ERROR text [("test", "myvalue")]], Val (RBool false))).
Proof.
  split.
  - apply (failed_attempt_is_retried Samples.imported
             (Op_upload_file_to_gs "/tmp/x" "gs://b/x" false) 3 0
             (Samples.all_raise Samples.unavailable) [] [ECall (get_bucket "b")]
             Samples.unavailable); reflexivity.
  - apply (failed_attempt_is_retried Samples.imported
             (Op_upload_file_to_gs "/tmp/x" "gs://b/x" false) 3 3
             (Samples.all_raise Samples.unavailable) [] [ECall (get_bucket "b")]
             Samples.unavailable); first [reflexivity | discriminate].
Defined.

(** X2.  A call whose first attempt fails in the retried class and
    whose second attempt goes through returns the value of the second
    attempt: between the events of the two guarded blocks lie one
    WARNING line and one sleep of the operation's delay, and nothing
    follows the second block. *)
Theorem transient_failure_recovers (cf : config) (op : operation) (C : nat)
        (sdk : oracle) (h es1 es2 : list event) (e : exn) (v : pyres) :
  ceiling op = Some C ->
  warns_then_sleeps op = true ->
  guarded cf op sdk (h ++ entry op 0)%list = (es1, Exn e) ->
  retriable e = true ->
  (forall text,
     guarded cf op sdk
       (h ++ entry op 0 ++ es1
          ++ [ELog WARNING text (labels cf); ESleep (delay op)] ++ entry op 1)%list
     = (es2, Val v)) ->
  exists text,
    invoke cf op 0 sdk h
    = ((entry op 0 ++ es1 ++ [ELog WARNING text (labels cf); ESleep (delay op)]
          ++ entry op 1 ++ es2)%list, Val v).
Proof.
  intros HC Hw E Hr Hnext.
  destruct op; cbn [ceiling] in HC; inversion HC; subst C; clear HC;
    try discriminate Hw; cbn [guarded entry fn_name] in E, Hnext; apply fmap_exn in E;
    cbn [invoke entry fn_name delay app] in *.
  - destruct (move_file_gs_step _ _ _ _ _ _ _ _ _ E Hr eq_refl) as [text Ht].
    exists text. specialize (Hnext text). apply fmap_val_inv in Hnext.
    destruct Hnext as (a & Hnext & ->).
    rewrite run_fmap, Ht. cbn [fst snd].
    rewrite (move_file_gs_first _ _ _ _ (0 + 1) _ _ es2 a).
    + reflexivity.
    + rewrite <- Hnext. f_equal. rewrite <- ?app_assoc. cbn [app].
      rewrite <- ?app_assoc. reflexivity.
  - destruct (download_file_from_gs_step _ _ _ _ _ _ _ _ E Hr eq_refl) as [text Ht].
    exists text. specialize (Hnext text). apply fmap_val_inv in Hnext.
    destruct Hnext as (a & Hnext & ->).
    rewrite run_fmap, Ht. cbn [fst snd].
    rewrite (download_file_from_gs_first _ _ _ (0 + 1) _ _ es2 a).
    + reflexivity.
    + rewrite <- Hnext. f_equal. rewrite <- ?app_assoc. cbn [app].
      rewrite <- ?app_assoc. reflexivity.
  - destruct (upload_file_to_gs_step _ _ _ _ _ _ _ _ _ E Hr eq_refl) as [text Ht].
    exists text. specialize (Hnext text). apply fmap_val_inv in Hnext.
    destruct Hnext as (a & Hnext & ->).
    rewrite run_fmap, Ht. cbn [fst snd].
    rewrite (upload_file_to_gs_first _ _ _ _ (0 + 1) _ _ es2 a).
    + reflexivity.
    + rewrite <- Hnext. f_equal. rewrite <- ?app_assoc. cbn [app].
      rewrite <- ?app_assoc. reflexivity.
  - destruct (delete_file_from_gs_step _ _ _ _ _ _ _ E Hr eq_refl) as [text Ht].
    exists text. specialize (Hnext text). apply fmap_val_inv in Hnext.
    destruct Hnext as (a & Hnext & ->).
    rewrite run_fmap, Ht. cbn [fst snd].
    rewrite (delete_file_from_gs_first _ _ (0 + 1) _ _ es2 a).
    + reflexivity.
    + rewrite <- Hnext. f_equal. rewrite <- ?app_assoc. cbn [app].
      rewrite <- ?app_assoc. reflexivity.
  - destruct (createwait_table_step _ _ _ _ _ _ _ _ _ _ E Hr eq_refl) as [text Ht].
    exists text. specialize (Hnext text). apply fmap_val_inv in Hnext.
    destruct Hnext as (a & Hnext & ->).
    rewrite run_fmap, Ht. cbn [fst snd].
    rewrite (createwait_table_first _ _ _ _ _ (0 + 1) _ _ es2 a).
    + reflexivity.
    + rewrite <- Hnext. f_equal. rewrite <- ?app_assoc. cbn [app].
      rewrite <- ?app_assoc. reflexivity.
  - destruct (insert_file_step _ _ _ _ _ _ _ _ _ _ _ _ _ _ _ _ _ E Hr eq_refl) as [text Ht].
    exists text. specialize (Hnext text). apply fmap_val_inv in Hnext.
    destruct Hnext as (a & Hnext & ->).
    rewrite run_fmap, Ht. cbn [fst snd].
    rewrite (insert_file_first _ _ _ _ _ _ _ _ _ _ _ _ (0 + 1) _ _ es2 a).
    + reflexivity.
    + rewrite <- Hnext. f_equal. rewrite <- ?app_assoc. cbn [app].
      rewrite <- ?app_assoc. reflexivity.
  - destruct (run_queryjob_step _ _ _ _ _ _ _ _ _ _ _ _ _ E Hr eq_refl) as [text Ht].
    exists text. specialize (Hnext text). apply fmap_val_inv in Hnext.
    destruct Hnext as (a & Hnext & ->).
    rewrite run_fmap, Ht. cbn [fst snd].
    rewrite (run_queryjob_first _ _ _ _ _ _ _ _ (0 + 1) _ _ es2 a).
    + reflexivity.
    + rewrite <- Hnext. f_equal. rewrite <- ?app_assoc. cbn [app].
      rewrite <- ?app_assoc. reflexivity.
  - destruct (run_extractjob_step _ _ _ _ _ _ _ _ _ _ _ _ _ _ E Hr eq_refl) as [text Ht].
    exists text. specialize (Hnext text). apply fmap_val_inv in Hnext.
    destruct Hnext as (a & Hnext & ->).
    rewrite run_fmap, Ht. cbn [fst snd].
    rewrite (run_extractjob_first _ _ _ _ _ _ _ _ _ (0 + 1) _ _ es2 a).
    + reflexivity.
    + rewrite <- Hnext. f_equal. rewrite <- ?app_assoc. cbn [app].
      rewrite <- ?app_assoc. reflexivity.
Qed.

(** The theorem at a delete that meets one outage. *)
Lemma transient_failure_recovers_witness :
  exists text,
    invoke Samples.imported (Op_delete_file_from_gs "gs://b/x") 0 blip []
    = ([EAttempt "delete_file_from_gs" 0; ECall (get_bucket "b");
        ELog WARNING text [("test", "myvalue")]; ESleep 3;
        EAttempt "delete_file_from_gs" 1; ECall (get_bucket "b");
        ECall (blob_delete "b" "x");
        ELog INFO "File deleted from GS :: gsPath x" [("test", "myvalue")]],
       Val (RBool true)).
Proof.
  apply (transient_failure_recovers Samples.imported (Op_delete_file_from_gs "gs://b/x")
           2 blip [] [ECall (get_bucket "b")]
           [ECall (get_bucket "b"); ECall (blob_delete "b" "x");
            ELog INFO "File deleted from GS :: gsPath x" [("test", "myvalue")]]
           Samples.unavailable (RBool true)); reflexivity.
Defined.

(** X3.  The [retry] argument is taken at face value.  When every
    attempt fails in the retried class, a call entered with any [retry]
    makes [max (C - retry) 0] retries before it returns the sentinel: a
    caller who passes [retry >= C] gets one attempt and no sleep, and a
    negative [retry] buys retries beyond the ceiling. *)
Theorem retry_argument_sets_attempts (cf : config) (op : operation) (C : nat)
        (retry : Z) (sdk : oracle) (h : list event) :
  ceiling op = Some C ->
  always_returns (unguarded op) sdk ->
  always_raises (guarded cf op) sdk ->
  exists es,
    invoke cf op retry sdk h = (es, Val (failure op))
    /\ rhythm es = retry_rhythm (delay op) (Z.to_nat (Z.of_nat C - retry))
    /\ attempts es = (Z.to_nat (Z.of_nat C - retry) + 1)%nat
    /\ sleeps es = repeat (delay op) (Z.to_nat (Z.of_nat C - retry)).
Proof.
  intros HC Hpre Hfail.
  assert (Hdone : forall A (f : A -> pyres) (m : M A) (a : A) n (s : Z),
            (exists es, m sdk h = (es, Val a) /\ rhythm es = retry_rhythm s n) ->
            exists es, fmap f m sdk h = (es, Val (f a))
                       /\ rhythm es = retry_rhythm s n
                       /\ attempts es = (n + 1)%nat /\ sleeps es = repeat s n).
  { intros A f m a n s (es & E & Hq). exists es.
    split; [exact (fmap_val f _ _ _ _ _ E)|]. split; [exact Hq|].
    now apply retry_rhythm_counts. }
  destruct op; cbn [ceiling] in HC; inversion HC; subst C; clear HC;
    cbn [guarded unguarded] in Hfail, Hpre;
    apply RetryCeiling.always_raises_fmap in Hfail; cbn [invoke failure delay];
    change (Z.of_nat 3) with 3; change (Z.of_nat 2) with 2.
  - apply (Hdone _ RBool).
    exact (RetryCeiling.move_file_gs_exhausted _ _ _ _ _ Hfail _ retry h eq_refl).
  - apply (Hdone _ RBool).
    exact (RetryCeiling.download_file_from_gs_exhausted _ _ _ _ Hfail _ retry h eq_refl).
  - apply (Hdone _ RBool).
    exact (RetryCeiling.upload_file_to_gs_exhausted _ _ _ _ _ Hfail _ retry h eq_refl).
  - apply (Hdone _ RBool).
    exact (RetryCeiling.delete_file_from_gs_exhausted _ _ _ Hfail _ retry h eq_refl).
  - apply (Hdone _ RBool).
    exact (RetryCeiling.createwait_table_exhausted _ _ _ _ _ _ Hfail _ retry h eq_refl).
  - apply (Hdone _ RJob).
    exact (RetryCeiling.insert_file_exhausted _ _ _ _ _ _ _ _ _ _ _ _ _ Hfail _ retry h
             eq_refl).
  - apply (Hdone _ RJob).
    exact (RetryCeiling.run_queryjob_exhausted _ _ _ _ _ _ _ _ _ Hfail _ retry h eq_refl).
  - apply (Hdone _ RJob).
    exact (RetryCeiling.run_extractjob_exhausted _ _ _ _ _ _ _ _ _ _ Hfail _ retry h
             eq_refl).
  - apply RetryCeiling.always_returns_fmap in Hpre. apply (Hdone _ RBool).
    exact (RetryCeiling.publish_exhausted (json_dumps cf) _ _ _ _ _ _ _ Hpre Hfail _
             retry h eq_refl).
Qed.

(** The theorem at a download entered with [retry = 7] and at one
    entered with [retry = -1]. *)
Lemma retry_argument_sets_attempts_witness :
  (exists es,
     invoke Samples.imported (Op_download_file_from_gs "gs://b/x" "/tmp/x") 7
       (Samples.all_raise Samples.unavailable) [] = (es, Val (RBool false))
     /\ rhythm es = [Attempt])
  /\ (exists es,
        invoke Samples.imported (Op_download_file_from_gs "gs://b/x" "/tmp/x") (-1)
          (Samples.all_raise Samples.unavailable) [] = (es, Val (RBool false))
        /\ attempts es = 5%nat).
Proof.
  assert (Hfail : always_raises
            (guarded Samples.imported (Op_download_file_from_gs "gs://b/x" "/tmp/x"))
            (Samples.all_raise Samples.unavailable)).
  { intros h. exists [ECall (get_bucket "b")], Samples.unavailable. split; reflexivity. }
  assert (Hpre : always_returns (unguarded (Op_download_file_from_gs "gs://b/x" "/tmp/x"))
            (Samples.all_raise Samples.unavailable)).
  { intros h. exists [], tt. split; reflexivity. }
  split.
  - destruct (retry_argument_sets_attempts Samples.imported
                (Op_download_file_from_gs "gs://b/x" "/tmp/x") 3 7
                (Samples.all_raise Samples.unavailable) [] eq_refl Hpre Hfail)
      as (es & E & Hq & _).
    exists es. split; [exact E | exact Hq].
  - destruct (retry_argument_sets_attempts Samples.imported
                (Op_download_file_from_gs "gs://b/x" "/tmp/x") 3 (-1)
                (Samples.all_raise Samples.unavailable) [] eq_refl Hpre Hfail)
      as (es & E & _ & Ha & _).
    exists es. split; [exact E | exact Ha].
Defined.

(** X4.  An exception outside the [Exception] hierarchy, such as a
    KeyboardInterrupt, raised in the guarded block of any attempt leaves
    the call at once: nothing is logged, nothing is slept, nothing is
    retried, and the exception reaches the caller unchanged. *)
Theorem base_exception_leaves_at_once (cf : config) (op : operation) (retry : Z)
        (sdk : oracle) (h es : list event) (e : exn) :
  has_guarded_block op = true ->
  guarded cf op sdk (h ++ entry op retry)%list = (es, Exn e) ->
  isinstance_Exception e = false ->
  invoke cf op retry sdk h = ((entry op retry ++ es)%list, Exn e).
Proof.
  intros Hop E HE.
  destruct op; try discriminate Hop;
    cbn [guarded entry fn_name] in E; apply fmap_exn in E;
    cbn [invoke entry fn_name app].
  - rewrite run_fmap, (move_file_gs_not_taken _ _ _ _ _ _ _ _ _ E HE). reflexivity.
  - rewrite run_fmap, (move_file_gs_not_taken _ _ _ _ _ _ _ _ _ E HE). reflexivity.
  - rewrite app_nil_r in E. rewrite run_fmap. unfold Storage.rename_gs.
    rewrite (run_try_exn _ _ _ _ _ _ E). unfold Storage.except_Exception.
    rewrite HE. unfold raise. cbn [fst snd app]. now rewrite app_nil_r.
  - rewrite run_fmap, (download_file_from_gs_not_taken _ _ _ _ _ _ _ _ E HE). reflexivity.
  - rewrite run_fmap, (upload_file_to_gs_not_taken _ _ _ _ _ _ _ _ _ E HE). reflexivity.
  - rewrite run_fmap, (delete_file_from_gs_not_taken _ _ _ _ _ _ _ E HE). reflexivity.
  - rewrite run_fmap, (createwait_table_not_taken _ _ _ _ _ _ _ _ _ _ E HE). reflexivity.
  - rewrite run_fmap, (insert_file_not_taken _ _ _ _ _ _ _ _ _ _ _ _ _ _ _ _ _ E HE). reflexivity.
  - rewrite run_fmap, (run_queryjob_not_taken _ _ _ _ _ _ _ _ _ _ _ _ _ E HE). reflexivity.
  - rewrite run_fmap, (run_extractjob_not_taken _ _ _ _ _ _ _ _ _ _ _ _ _ _ E HE). reflexivity.
Qed.

(** The theorem at the second attempt of a query that is interrupted
    while the job is submitted. *)
Lemma base_exception_leaves_at_once_witness :
  invoke Samples.imported (Op_run_queryjob "ds" "tbl" "SELECT 1" false "WRITE_EMPTY" false)
    1 (Samples.all_raise Samples.interrupted) []
  = ([EAttempt "run_queryjob" 1; ECall uuid4], Exn Samples.interrupted).
Proof.
  apply (base_exception_leaves_at_once Samples.imported
           (Op_run_queryjob "ds" "tbl" "SELECT 1" false "WRITE_EMPTY" false) 1
           (Samples.all_raise Samples.interrupted) [] [ECall uuid4] Samples.interrupted);
    reflexivity.
Defined.

(** The same count for a function whose only handler is
    [except Exception]: the class of the exception does not matter. *)
Tactic Notation "exhaust_any" reference(rec) constr(C) constr(Hfail) constr(Hquiet) :=
  let n := fresh "n" in
  let IH := fresh "IH" in
  let retry := fresh "retry" in
  let h := fresh "h" in
  let Hb := fresh "Hb" in
  let es := fresh "es" in
  let e := fresh "e" in
  let E := fresh "E" in
  let HE := fresh "HE" in
  let Hq := fresh "Hq" in
  intros budget; induction budget as [|n IH]; intros retry h Hb;
  cbn [rec];
  rewrite (run_bind _ _ _ _ [EAttempt _ retry] tt) by reflexivity;
  match goal with |- context [try_except ?m _ _ ?h'] =>
    destruct (Hfail h') as (es & e & E & HE);
    pose proof (Hquiet _ _ _ _ E) as Hq
  end;
  rewrite (run_try_exn _ _ _ _ _ _ E);
  unfold Storage.except_Exception; rewrite HE;
  [ replace (retry <? C) with false by (symmetry; apply Z.ltb_ge; lia);
    run_events; eexists; split; [reflexivity|];
    tally; rewrite Hq; reflexivity
  | replace (retry <? C) with true by (symmetry; apply Z.ltb_lt; lia);
    run_events;
    match goal with |- context [let (_, _) := ?run in _] =>
      match run with
      | ?f ?h' =>
          let es' := fresh "es'" in
          let E' := fresh "E'" in
          let Hq' := fresh "Hq'" in
          destruct (IH (retry + 1) h' ltac:(lia)) as (es' & E' & Hq');
          rewrite E'; cbn [fst snd]; eexists; split; [reflexivity|];
          tally; rewrite Hq, Hq'; reflexivity
      end
    end ].

Lemma upload_file_to_gs_fails_through labels l p dl (sdk : oracle) :
  always_fails (Storage.upload_file_to_gs_try labels l p dl) sdk ->
  forall budget retry h, Z.to_nat (3 - retry) = budget ->
  exists es, Storage.upload_file_to_gs_rec labels budget l p dl retry sdk h = (es, Val false)
    /\ rhythm es = retry_rhythm 3 budget.
Proof.
  intros Hfail.
  exhaust_any Storage.upload_file_to_gs_rec 3 Hfail (silent_quiet_raise _ (silent_upload_file_to_gs_try labels l p dl)).
Qed.

Lemma insert_file_fails_through labels timeout p dn t s f w fd q lr mb (sdk : oracle) :
  always_fails (Bq.insert_file_try labels timeout p dn t s f w fd q lr mb) sdk ->
  forall budget retry h, Z.to_nat (3 - retry) = budget ->
  exists es, Bq.insert_file_rec labels timeout budget p dn t s f w fd q lr mb retry sdk h = (es, Val (None, None))
    /\ rhythm es = retry_rhythm 5 budget.
Proof.
  intros Hfail.
  exhaust_any Bq.insert_file_rec 3 Hfail (silent_quiet_raise _ (silent_insert_file_try labels timeout p dn t s f w fd q lr mb)).
Qed.

Lemma run_queryjob_fails_through labels timeout dn t q l w a (sdk : oracle) :
  always_fails (Bq.run_queryjob_try labels timeout dn t q l w a) sdk ->
  forall budget retry h, Z.to_nat (3 - retry) = budget ->
  exists es, Bq.run_queryjob_rec labels timeout budget dn t q l w a retry sdk h = (es, Val (None, None))
    /\ rhythm es = retry_rhythm 5 budget.
Proof.
  intros Hfail.
  exhaust_any Bq.run_queryjob_rec 3 Hfail (silent_quiet_raise _ (silent_run_queryjob_try labels timeout dn t q l w a)).
Qed.

Lemma run_extractjob_fails_through labels timeout u dn t c f fd ph (sdk : oracle) :
  always_fails (Bq.run_extractjob_try labels timeout u dn t c f fd ph) sdk ->
  forall budget retry h, Z.to_nat (3 - retry) = budget ->
  exists es, Bq.run_extractjob_rec labels timeout budget u dn t c f fd ph retry sdk h = (es, Val (None, None))
    /\ rhythm es = retry_rhythm 5 budget.
Proof.
  intros Hfail.
  exhaust_any Bq.run_extractjob_rec 3 Hfail (silent_quiet_raise _ (silent_run_extractjob_try labels timeout u dn t c f fd ph)).
Qed.

Lemma always_fails_fmap {A B} (f : A -> B) (m : M A) sdk :
  always_fails (fmap f m) sdk -> always_fails m sdk.
Proof.
  intros H h. destruct (H h) as (es & e & E & Hr).
  exists es, e. split; [now apply fmap_exn in E | exact Hr].
Qed.

(** X5.  upload_file_to_gs, insert_file, run_queryjob and
    run_extractjob have no handler but [except Exception]: a NotFound or
    a Conflict is retried like any other failure.  When every attempt
    ends with an exception of any class under [Exception], the call
    makes the 3 retries, sleeping the delay before each, and returns the
    sentinel. *)
Theorem every_Exception_is_retried (cf : config) (op : operation)
        (sdk : oracle) (h : list event) :
  only_except_Exception op = true ->
  always_fails (guarded cf op) sdk ->
  exists es,
    invoke cf op 0 sdk h = (es, Val (failure op))
    /\ rhythm es = retry_rhythm (delay op) 3
    /\ attempts es = 4%nat
    /\ sleeps es = repeat (delay op) 3.
Proof.
  intros Hop Hfail.
  assert (Hdone : forall A (f : A -> pyres) (m : M A) (a : A) (s : Z),
            (exists es, m sdk h = (es, Val a) /\ rhythm es = retry_rhythm s 3) ->
            exists es, fmap f m sdk h = (es, Val (f a))
                       /\ rhythm es = retry_rhythm s 3
                       /\ attempts es = 4%nat /\ sleeps es = repeat s 3).
  { intros A f m a s (es & E & Hq). exists es.
    split; [exact (fmap_val f _ _ _ _ _ E)|]. split; [exact Hq|].
    now apply (retry_rhythm_counts es s 3). }
  destruct op; try discriminate Hop; cbn [guarded] in Hfail;
    apply always_fails_fmap in Hfail; cbn [invoke failure delay].
  - apply (Hdone _ RBool).
    exact (upload_file_to_gs_fails_through _ _ _ _ _ Hfail 3%nat 0 h eq_refl).
  - apply (Hdone _ RJob).
    exact (insert_file_fails_through _ _ _ _ _ _ _ _ _ _ _ _ _ Hfail 3%nat 0 h eq_refl).
  - apply (Hdone _ RJob).
    exact (run_queryjob_fails_through _ _ _ _ _ _ _ _ _ Hfail 3%nat 0 h eq_refl).
  - apply (Hdone _ RJob).
    exact (run_extractjob_fails_through _ _ _ _ _ _ _ _ _ _ Hfail 3%nat 0 h eq_refl).
Qed.

(** The theorem at an upload into a bucket that does not exist. *)
Lemma every_Exception_is_retried_witness :
  exists es,
    invoke Samples.imported (Op_upload_file_to_gs "/tmp/x" "gs://b/x" true) 0
      (Samples.all_raise Samples.not_found) [] = (es, Val (RBool false))
    /\ rhythm es = [Attempt; Sleep 3; Attempt; Sleep 3; Attempt; Sleep 3; Attempt].
Proof.
  destruct (every_Exception_is_retried Samples.imported
              (Op_upload_file_to_gs "/tmp/x" "gs://b/x" true)
              (Samples.all_raise Samples.not_found) [] eq_refl) as (es & E & Hq & _).
  - intros h. exists [ECall (get_bucket "b")], Samples.not_found. split; reflexivity.
  - exists es. split; [exact E | exact Hq].
Defined.

End RetrySteps.

(* ================================================================= *)
(** ** The run that uses up the retries *)

Module Exhaustion.
Import PyStr Py Outcome RunFacts Facade Blocks Derived.
Open Scope Z_scope.

(** The retried functions whose attempt is its guarded block. *)
Lemma retried_exhausts (cf : config) (op : operation) (C : nat) (sdk : oracle) :
  ceiling op = Some C ->
  warns_then_sleeps op = true ->
  always_raises (guarded cf op) sdk ->
  forall n retry h,
    Z.to_nat (Z.of_nat C - retry) = n ->
    exists es,
      invoke cf op retry sdk h = (es, Val (failure op))
      /\ exhausts cf op sdk n retry h es.
Proof.
  intros HC Hw Hfail.
  assert (Hpre : forall h', unguarded op sdk h' = ([], Val tt))
    by (destruct op; try discriminate Hw; reflexivity).
  assert (Hmid : interlude cf op [])
    by (destruct op; try discriminate Hw; reflexivity).
  assert (Hsev : retry_severity op = WARNING)
    by (destruct op; try discriminate Hw; reflexivity).
  intros n. induction n as [|n IH]; intros retry h Hn;
    destruct (Hfail (h ++ entry op retry)%list) as (blk & e & E & Hr).
  - destruct (RetrySteps.invoke_last cf op C retry sdk h blk e HC Hw ltac:(lia) E Hr)
      as [text Ht].
    rewrite Ht. eexists. split; [reflexivity|].
    cbn [exhausts]. exists [], [], blk, e, text.
    rewrite Hpre. cbn [app]. rewrite app_nil_r. auto.
  - destruct (RetrySteps.invoke_step cf op C retry sdk h blk e HC Hw ltac:(lia) E Hr)
      as [text Ht].
    rewrite Ht. cbv zeta.
    match goal with |- context [invoke cf op (retry + 1) sdk ?h'] =>
      destruct (IH (retry + 1) h' ltac:(lia)) as (rest & E' & Hrest)
    end.
    rewrite E'. cbn [fst snd]. eexists. split; [reflexivity|].
    cbn [exhausts]. exists [], [], blk, e, text.
    rewrite Hpre, Hsev. cbn [app]. rewrite app_nil_r.
    split; [reflexivity|]. split; [exact Hmid|]. split; [exact E|].
    exists rest. split; [reflexivity | exact Hrest].
Qed.

(** [publish]: each attempt checks the topic first, outside the guarded
    block. *)
Lemma publish_exhausts (cf : config) (p t m : string)
      (a : option (list (string * string))) (sdk : oracle) :
  always_returns (unguarded (Op_publish p t m a)) sdk ->
  always_raises (guarded cf (Op_publish p t m a)) sdk ->
  forall n retry h,
    Z.to_nat (2 - retry) = n ->
    exists es,
      Publisher.publish_rec (json_dumps cf) (bytes_repr cf) n (labels cf) p t m a retry sdk h
      = (es, Val false)
      /\ exhausts cf (Op_publish p t m a) sdk n retry h es.
Proof.
  intros Hens Hfail n.
  induction n as [|n IH]; intros retry h Hn; cbn [Publisher.publish_rec];
    rewrite (run_bind _ _ _ _ [EAttempt _ retry] tt) by reflexivity;
    destruct (Hens (h ++ [EAttempt "publish" retry])%list) as (pre & u & Epre & _);
    destruct u;
    destruct (RetrySteps.fmap_val_inv _ _ _ _ _ _ Epre) as (st & E0 & _);
    rewrite (run_bind _ _ _ _ _ _ E0);
    rewrite (run_bind _ _ _ _ [ELog _ _ _] tt) by reflexivity;
    destruct a as [dict|].
  all: match goal with
       | |- context [bind (ret ?v) _ _ ?h'] =>
           rewrite (run_bind (ret v) _ _ h' [] v) by reflexivity
       | |- context [bind (bind (log_text ?x ?y ?z) ?k) _ _ ?h'] =>
           rewrite (run_bind (bind (log_text x y z) k) _ _ h' [ELog y x z] "")
             by reflexivity
       end.
  all: match goal with |- context [try_except ?blk _ _ ?h'] =>
         destruct (Hfail h') as (es & e & E & Hr);
         pose proof (fmap_exn _ _ _ _ _ _ E) as Eblk;
         rewrite (run_try_exn _ _ _ _ _ _ Eblk)
       end;
       apply retriable_classes in Hr; destruct Hr as (HE & _ & _);
       unfold Storage.except_Exception; rewrite HE.
  all: rewrite (run_bind _ _ _ _ [ELog _ _ _] tt) by reflexivity; cbn [fst snd].
  1, 2: replace (retry <? 2) with false by (symmetry; apply Z.ltb_ge; lia);
        unfold ret; cbn [fst snd app]; eexists; (split; [reflexivity|]);
        cbn [exhausts]; exists pre; eexists; exists es, e; eexists;
        (split; [exact Epre|]);
        (split; [cbn [interlude]; exists st; reflexivity|]);
        (split; [cbn [entry fn_name app]; rewrite <- ?app_assoc in E; cbn [app] in E;
                 rewrite <- ?app_assoc; exact E|]);
        cbn [entry fn_name app]; rewrite <- ?app_assoc; reflexivity.
  all: replace (retry <? 2) with true by (symmetry; apply Z.ltb_lt; lia);
       rewrite (run_bind _ _ _ _ [ESleep _] tt) by reflexivity; cbn [fst snd];
       match goal with |- context [Publisher.publish_rec _ _ _ _ _ _ _ _ (?r + 1) _ ?h'] =>
         destruct (IH (r + 1) h' ltac:(lia)) as (rest & E' & Hrest)
       end;
       rewrite E'; cbn [fst snd]; eexists; (split; [reflexivity|]);
       cbn [exhausts]; exists pre; eexists; exists es, e; eexists;
       (split; [exact Epre|]);
       (split; [cbn [interlude]; exists st; reflexivity|]);
       (split; [cbn [entry fn_name app]; rewrite <- ?app_assoc in E; cbn [app] in E;
                rewrite <- ?app_assoc; exact E|]);
       exists rest; cbn [entry fn_name retry_severity delay app];
       (split; [rewrite <- ?app_assoc; reflexivity|]);
       rewrite <- ?app_assoc in Hrest; cbn [app] in Hrest; rewrite <- ?app_assoc;
       exact Hrest.
Qed.

(** The attempts and the sleeps of the run, in their order. *)
Lemma ceiling_rhythm (cf : config) (op : operation) (C : nat)
        (sdk : oracle) (h : list event) :
  ceiling op = Some C ->
  always_returns (unguarded op) sdk ->
  always_raises (guarded cf op) sdk ->
  exists es,
    invoke cf op 0 sdk h = (es, Val (failure op))
    /\ rhythm es = retry_rhythm (delay op) C
    /\ attempts es = (C + 1)%nat
    /\ sleeps es = repeat (delay op) C.
Proof.
  intros HC Hpre Hfail.
  assert (Hdone : forall A (f : A -> pyres) (m : M A) (a : A) n (s : Z),
            (exists es, m sdk h = (es, Val a) /\ rhythm es = retry_rhythm s n) ->
            exists es, fmap f m sdk h = (es, Val (f a))
                       /\ rhythm es = retry_rhythm s n
                       /\ attempts es = (n + 1)%nat /\ sleeps es = repeat s n).
  { intros A f m a n s (es & E & Hq). exists es.
    split; [exact (fmap_val f _ _ _ _ _ E)|]. split; [exact Hq|].
    now apply retry_rhythm_counts. }
  destruct op; cbn [ceiling] in HC; inversion HC; subst C; clear HC;
    cbn [guarded unguarded] in Hfail, Hpre;
    apply RetryCeiling.always_raises_fmap in Hfail; cbn [invoke failure delay].
  - apply (Hdone _ RBool).
    exact (RetryCeiling.move_file_gs_exhausted _ _ _ _ _ Hfail 3%nat 0 h eq_refl).
  - apply (Hdone _ RBool).
    exact (RetryCeiling.download_file_from_gs_exhausted _ _ _ _ Hfail 3%nat 0 h eq_refl).
  - apply (Hdone _ RBool).
    exact (RetryCeiling.upload_file_to_gs_exhausted _ _ _ _ _ Hfail 3%nat 0 h eq_refl).
  - apply (Hdone _ RBool).
    exact (RetryCeiling.delete_file_from_gs_exhausted _ _ _ Hfail 2%nat 0 h eq_refl).
  - apply (Hdone _ RBool).
    exact (RetryCeiling.createwait_table_exhausted _ _ _ _ _ _ Hfail 3%nat 0 h eq_refl).
  - apply (Hdone _ RJob).
    exact (RetryCeiling.insert_file_exhausted _ _ _ _ _ _ _ _ _ _ _ _ _ Hfail 3%nat 0 h eq_refl).
  - apply (Hdone _ RJob).
    exact (RetryCeiling.run_queryjob_exhausted _ _ _ _ _ _ _ _ _ Hfail 3%nat 0 h eq_refl).
  - apply (Hdone _ RJob).
    exact (RetryCeiling.run_extractjob_exhausted _ _ _ _ _ _ _ _ _ _ Hfail 3%nat 0 h eq_refl).
  - apply RetryCeiling.always_returns_fmap in Hpre. apply (Hdone _ RBool).
    exact (RetryCeiling.publish_exhausted (json_dumps cf) _ _ _ _ _ _ _ Hpre Hfail 2%nat 0 h eq_refl).
Qed.

(** C1, as amended.  Take an operation with a retry ceiling [C]: 3 for
    move_file_gs, download_file_from_gs, upload_file_to_gs,
    createwait_table, insert_file, run_queryjob and run_extractjob, 2
    for delete_file_from_gs and publish.  Let the guarded block of every
    attempt end with an exception of the retried class (an Exception
    that is neither NotFound nor Conflict/AlreadyExists) and, for
    [publish], let the topic check, which every attempt runs before its
    guarded block and outside it, return.  Then the call with
    [retry = 0] is [C + 1] attempts in a row, each of which runs the
    guarded block, at the history it has reached, to the exception; the
    call logs one line after each block, sleeps the operation's fixed
    delay between each attempt and the next and at no other time, and
    returns the failure sentinel ([False], or [(None, None)] for the job
    functions). *)
Theorem retry_ceiling_exhausted (cf : config) (op : operation) (C : nat)
        (sdk : oracle) (h : list event) :
  ceiling op = Some C ->
  always_returns (unguarded op) sdk ->
  always_raises (guarded cf op) sdk ->
  exists es,
    invoke cf op 0 sdk h = (es, Val (failure op))
    /\ exhausts cf op sdk C 0 h es
    /\ rhythm es = retry_rhythm (delay op) C
    /\ attempts es = (C + 1)%nat
    /\ sleeps es = repeat (delay op) C.
Proof.
  intros HC Hpre Hfail.
  destruct (ceiling_rhythm cf op C sdk h HC Hpre Hfail) as (es & E & Hrh & Ha & Hs).
  exists es. split; [exact E|]. split; [|auto].
  destruct (warns_then_sleeps op) eqn:Hw.
  - destruct (retried_exhausts cf op C sdk HC Hw Hfail C 0 h ltac:(lia))
      as (es' & E' & Hx).
    rewrite E in E'. inversion E'. subst es'. exact Hx.
  - destruct op; cbn [ceiling] in HC; inversion HC; subst C; try discriminate Hw.
    destruct (publish_exhausts cf project_id topic_name message attributes sdk Hpre Hfail
                2%nat 0 h eq_refl) as (es' & E' & Hx).
    cbn [invoke] in E. unfold Publisher.publish in E.
    change (Z.to_nat (2 - 0)) with 2%nat in E.
    rewrite run_fmap, E' in E. inversion E. subst es'. exact Hx.
Qed.

(** The theorem at a publish whose topic exists and whose client call
    fails every time. *)
Lemma retry_ceiling_exhausted_witness :
  exists es,
    invoke Samples.imported (Op_publish "p" "t" "m" (Some [])) 0 Samples.publish_outage []
    = (es, Val (RBool false))
    /\ exhausts Samples.imported (Op_publish "p" "t" "m" (Some [])) Samples.publish_outage
         2 0 [] es
    /\ rhythm es = [Attempt; Sleep 10; Attempt; Sleep 10; Attempt]
    /\ attempts es = 3%nat /\ sleeps es = [10; 10].
Proof.
  apply (retry_ceiling_exhausted Samples.imported (Op_publish "p" "t" "m" (Some []))
           2 Samples.publish_outage []).
  - reflexivity.
  - intros h. exists [ECall (get_topic "projects/p/topics/t")], tt.
    repeat split.
  - intros h. exists [ECall (client_publish "projects/p/topics/t" "m" "{}")], Samples.unavailable.
    split; reflexivity.
Defined.

(** C1 as first stated fails on [publish].  Its topic check runs
    outside the guarded block, with a bare [except] whose handler calls
    create_topic.  When every client call raises an exception of the
    retried class, the first attempt ends in the topic check: the
    exception of create_topic reaches the caller after one attempt,
    with no sleep, no retry and no sentinel. *)
Lemma retry_ceiling_counterexample :
  let run := invoke Samples.imported (Op_publish "p" "t" "m" (Some [])) 0
               (Samples.all_raise Samples.unavailable) [] in
  retriable Samples.unavailable = true
  /\ run = ([EAttempt "publish" 0; ECall (get_topic "projects/p/topics/t");
             ECall (create_topic "projects/p/topics/t")],
            Exn Samples.unavailable)
  /\ attempts (fst run) = 1%nat
  /\ sleeps (fst run) = [].
Proof. repeat split. Qed.

End Exhaustion.

(* ================================================================= *)
(** ** Locators in and out *)

Module LocatorUses.
Import PyStr Py Locator Outcome RunFacts Facade Derived LocatorFacts.

Lemma first_segment_no_slash (s : string) : has_char slash (first_segment s) = false.
Proof.
  induction s as [|c s IH]; [reflexivity|].
  cbn [first_segment]. destruct (Ascii.eqb c slash) eqn:E; [reflexivity|].
  cbn [has_char]. now rewrite Ascii.eqb_sym, E, IH.
Qed.

Lemma bucket_no_slash (gsPath : string) :
  has_char slash (fst (extractBucketFile gsPath)) = false.
Proof.
  unfold extractBucketFile. cbn [fst]. rewrite split_first_segment.
  apply first_segment_no_slash.
Qed.

(** X6.  Whatever string it is given, [extractBucketFile] returns a
    container without ['/'], and an item path whose length is that of
    the input less [len(container) + 6], or zero: six characters are
    counted for the scheme and the separator whether the input has them
    or not. *)
Theorem extractBucketFile_shape (gsPath : string) :
  has_char slash (fst (extractBucketFile gsPath)) = false
  /\ String.length (snd (extractBucketFile gsPath))
     = (String.length gsPath - (String.length (fst (extractBucketFile gsPath)) + 6))%nat.
Proof.
  split; [apply bucket_no_slash|].
  unfold extractBucketFile. cbn [fst snd].
  generalize (String.length (nth 0 (split slash (replace "gs://" "" gsPath)) "") + 6)%nat
    as n.
  induction gsPath as [|c s IH]; intros [|n]; cbn [slice_from String.length];
    try reflexivity.
  rewrite IH. reflexivity.
Qed.

Lemma startswith_scheme_has_colon (s : string) :
  startswith "gs://" s = true -> has_char ":"%char s = true.
Proof.
  intros H.
  destruct s as [|a1 s]; [discriminate H|].
  cbn [startswith] in H. apply andb_prop in H. destruct H as [_ H].
  destruct s as [|a2 s]; [discriminate H|].
  cbn [startswith] in H. apply andb_prop in H. destruct H as [_ H].
  destruct s as [|a3 s]; [discriminate H|].
  cbn [startswith] in H. apply andb_prop in H. destruct H as [E3 _].
  cbn [has_char]. rewrite E3. now rewrite !orb_true_r.
Qed.

Lemma replace_without_colon (s : string) :
  has_char ":"%char s = false -> replace "gs://" "" s = s.
Proof.
  unfold replace. induction s as [|c s IH]; intros H; [reflexivity|].
  cbn [replace_from].
  destruct (startswith "gs://" (String c s)) eqn:E.
  - apply startswith_scheme_has_colon in E. rewrite E in H. discriminate H.
  - cbn [has_char] in H. apply orb_false_iff in H. now rewrite IH.
Qed.

Lemma has_char_app (a : ascii) (s t : string) :
  has_char a (s ++ t) = has_char a s || has_char a t.
Proof.
  induction s as [|c s IH]; [reflexivity|].
  cbn [String.append has_char]. now rewrite IH, orb_assoc.
Qed.

(** X7.  A locator written without the scheme is not refused: the
    container is still its first segment, and the item path loses its
    first five characters, the length of the missing ["gs://"]. *)
Theorem extractBucketFile_without_scheme (c p : string) :
  has_char slash c = false ->
  has_char ":"%char c = false ->
  has_char ":"%char p = false ->
  extractBucketFile (c ++ "/" ++ p) = (c, slice_from 5 p).
Proof.
  intros Hslash Hc Hp. unfold extractBucketFile.
  rewrite replace_without_colon, split_first_segment.
  - change (c ++ "/" ++ p) with (c ++ String slash p).
    rewrite (first_segment_of_container c p Hslash). f_equal.
    clear. induction c as [|a c IH]; [reflexivity|].
    cbn [String.length String.append Nat.add slice_from]. exact IH.
  - rewrite !has_char_app, Hc, Hp. reflexivity.
Qed.

(** The theorem at ["bucket/folder/x.csv"]. *)
Lemma extractBucketFile_without_scheme_witness :
  extractBucketFile "bucket/folder/x.csv" = ("bucket", "r/x.csv").
Proof.
  apply (extractBucketFile_without_scheme "bucket" "folder/x.csv"); reflexivity.
Defined.

Lemma locator_decomposes (c p : string) :
  has_char slash c = false ->
  endswith "gs:" c && startswith "/" p = false ->
  extractBucketFile ("gs://" ++ c ++ "/" ++ p) = (c, p).
Proof.
  intros Hc Hclash. unfold extractBucketFile.
  rewrite replace_scheme_prefix, split_first_segment.
  change (c ++ "/" ++ p) with (c ++ String slash p).
  rewrite (first_segment_container c p Hc Hclash). f_equal.
  change ("gs://" ++ c ++ String slash p)
    with (String "g" (String "s" (String ":" (String "/" (String "/"
            (c ++ String slash p)))))).
  rewrite Nat.add_comm. cbn [Nat.add slice_from].
  clear. induction c as [|a c IH]; [reflexivity|].
  cbn [String.length String.append slice_from]. exact IH.
Qed.

Lemma last_char_slash (p : string) : last_char (p ++ "/") = Some slash.
Proof.
  induction p as [|a p IH]; [reflexivity|].
  cbn [String.append last_char]. rewrite IH.
  destruct p; reflexivity.
Qed.

(** X8.  When both client calls go through, [rename_gs] returns the
    locator of the new name in the container of the old one, and, unless
    the container ends with ["gs:"] while the new name begins with
    ['/'], that locator decomposes again into this container and the new
    name. *)
Theorem rename_gs_returns_new_locator (labels : label_set) (gsPath newName : string)
        (sdk : oracle) (h : list event) :
  let bucket := fst (extractBucketFile gsPath) in
  let name := snd (extractBucketFile gsPath) in
  sdk unit h (get_bucket bucket) = Ret tt ->
  sdk unit (h ++ [ECall (get_bucket bucket)])%list (rename_blob bucket name newName)
  = Ret tt ->
  endswith "gs:" bucket && startswith "/" newName = false ->
  Storage.rename_gs labels gsPath newName sdk h
  = ([ECall (get_bucket bucket); ECall (rename_blob bucket name newName);
      ELog INFO ("File " ++ gsPath ++ " renamed to " ++ newName) labels],
     Val (Some ("gs://" ++ bucket ++ "/" ++ newName)))
  /\ extractBucketFile ("gs://" ++ bucket ++ "/" ++ newName) = (bucket, newName).
Proof.
  intros bucket name E1 E2 Hclash. split.
  - unfold Storage.rename_gs, Storage.rename_gs_try, try_except, perform.
    rewrite (surjective_pairing (extractBucketFile gsPath)).
    fold bucket name. run_events. rewrite E1. cbn [fst snd app]. rewrite E2.
    reflexivity.
  - apply locator_decomposes; [apply bucket_no_slash | exact Hclash].
Qed.

(** The theorem at a rename inside the bucket ["b"]. *)
Lemma rename_gs_returns_new_locator_witness :
  Storage.rename_gs [] "gs://b/old.csv" "new.csv" Samples.all_ok []
  = ([ECall (get_bucket "b"); ECall (rename_blob "b" "old.csv" "new.csv");
      ELog INFO "File gs://b/old.csv renamed to new.csv" []],
     Val (Some "gs://b/new.csv"))
  /\ extractBucketFile "gs://b/new.csv" = ("b", "new.csv").
Proof.
  apply (rename_gs_returns_new_locator [] "gs://b/old.csv" "new.csv" Samples.all_ok []);
    reflexivity.
Defined.

(** X9.  A directory locator may be given with or without its final
    ['/']: [list_files_from_gs] is the same computation on both. *)
Theorem list_files_trailing_slash (labels : label_set) (gsPath : string) (recurse : bool)
        (c : ascii) :
  last_char gsPath = Some c ->
  Ascii.eqb c slash = false ->
  Storage.list_files_from_gs labels gsPath recurse
  = Storage.list_files_from_gs labels (gsPath ++ "/") recurse.
Proof.
  intros Hlast Hc. unfold Storage.list_files_from_gs.
  rewrite last_char_slash, Hlast, Hc. cbn [Ascii.eqb]. 
  replace (Ascii.eqb slash slash) with true by reflexivity. reflexivity.
Qed.

(** The theorem at ["gs://b/dir"]. *)
Lemma list_files_trailing_slash_witness :
  Storage.list_files_from_gs [] "gs://b/dir" false
  = Storage.list_files_from_gs [] "gs://b/dir/" false.
Proof.
  apply (list_files_trailing_slash [] "gs://b/dir" false "r"%char); reflexivity.
Defined.

Lemma last_char_nonempty (a : ascii) (s : string) :
  exists c, last_char (String a s) = Some c.
Proof.
  revert a. induction s as [|b s IH]; intros a; [now exists a|].
  destruct (IH b) as [c Hc]. exists c. cbn [last_char] in *. exact Hc.
Qed.

Lemma files_of_named_blobs (bucket : string) (names : list string) (sdk : oracle) h :
  forallb (fun name => negb (String.eqb name "")) names = true ->
  Storage.files_of_blobs bucket names sdk h = ([], Val (listed bucket names)).
Proof.
  revert h. induction names as [|name names IH]; intros h Hall; [reflexivity|].
  cbn [forallb] in Hall. apply andb_prop in Hall. destruct Hall as [Hname Hall].
  destruct name as [|a name]; [discriminate Hname|].
  destruct (last_char_nonempty a name) as [c Hlast].
  cbn [Storage.files_of_blobs]. rewrite Hlast. unfold bind. rewrite (IH _ Hall).
  unfold ret, listed, is_dir. cbn [filter fst snd app]. rewrite Hlast.
  destruct (Ascii.eqb c slash); reflexivity.
Qed.

Lemma files_of_unnamed_blob (bucket : string) (names : list string) (sdk : oracle) h :
  forallb (fun name => negb (String.eqb name "")) names = false ->
  Storage.files_of_blobs bucket names sdk h
  = ([], Exn (mkExn IndexError "string index out of range")).
Proof.
  revert h. induction names as [|name names IH]; intros h Hall; [discriminate Hall|].
  cbn [forallb] in Hall. cbn [Storage.files_of_blobs].
  destruct name as [|a name]; [reflexivity|].
  cbn [String.eqb negb andb] in Hall.
  destruct (last_char_nonempty a name) as [c ->].
  unfold bind. now rewrite (IH _ Hall).
Qed.

(** The two calls of a listing that go through. *)
Lemma list_files_calls (bucket prefix : string) (delimiter : option string)
      (sdk : oracle) (h : list event) (names : list string)
      {A} (k : list string -> M A) :
  sdk unit h (get_bucket bucket) = Ret tt ->
  sdk _ (h ++ [ECall (get_bucket bucket)])%list (list_blobs bucket prefix delimiter)
  = Ret names ->
  bind (perform (get_bucket bucket))
    (fun _ => bind (perform (list_blobs bucket prefix delimiter))
       (fun names' => bind (Storage.files_of_blobs bucket names') k)) sdk h
  = (let run := bind (Storage.files_of_blobs bucket names) k sdk
                  (h ++ [ECall (get_bucket bucket);
                         ECall (list_blobs bucket prefix delimiter)])%list in
     (ECall (get_bucket bucket) :: ECall (list_blobs bucket prefix delimiter) :: fst run,
      snd run)).
Proof.
  intros E1 E2.
  rewrite (run_bind _ _ _ _ [ECall (get_bucket bucket)] tt)
    by (unfold perform; now rewrite E1).
  rewrite (run_bind _ _ _ _ [ECall (list_blobs bucket prefix delimiter)] names)
    by (unfold perform; now rewrite E2).
  rewrite <- app_assoc. reflexivity.
Qed.

(** A listing of named blobs. *)
Lemma list_files_named (labels : label_set) (gsPath : string) (recurse : bool)
      (sdk : oracle) (h : list event) (names : list string) (c : ascii) :
  let bucket := fst (extractBucketFile (as_directory gsPath)) in
  let prefix := snd (extractBucketFile (as_directory gsPath)) in
  let listing := list_blobs bucket prefix (if recurse then None else Some "/") in
  last_char gsPath = Some c ->
  sdk unit h (get_bucket bucket) = Ret tt ->
  sdk _ (h ++ [ECall (get_bucket bucket)])%list listing = Ret names ->
  forallb (fun name => negb (String.eqb name "")) names = true ->
  exists text,
    Storage.list_files_from_gs labels gsPath recurse sdk h
    = ([ECall (get_bucket bucket); ECall listing; ELog INFO text labels],
       Val (Some (listed bucket names))).
Proof.
  intros bucket prefix listing Hlast E1 E2 Hnames.
  unfold Storage.list_files_from_gs. cbv zeta. fold (as_directory gsPath).
  rewrite Hlast. rewrite (surjective_pairing (extractBucketFile (as_directory gsPath))).
  fold bucket prefix. fold listing.
  unfold try_except. unfold listing. rewrite (list_files_calls _ _ _ _ _ names _ E1 E2).
  rewrite (run_bind _ _ _ _ [] (listed bucket names))
    by (now apply files_of_named_blobs).
  run_events. eexists. reflexivity.
Qed.

(** X10.  On a path that is not empty, with the bucket found and the
    listing answered, [list_files_from_gs] returns one locator
    ["gs://" + bucket + "/" + name] for each listed name that does not
    end with ['/'], in the order of the listing; [recurse] only decides
    whether the listing is asked with the delimiter ['/'].  One listed
    name that is empty turns the whole result into [None]. *)
Theorem list_files_result (labels : label_set) (gsPath : string) (recurse : bool)
        (sdk : oracle) (h : list event) (names : list string) (c : ascii) :
  let bucket := fst (extractBucketFile (as_directory gsPath)) in
  let prefix := snd (extractBucketFile (as_directory gsPath)) in
  let listing := list_blobs bucket prefix (if recurse then None else Some "/") in
  last_char gsPath = Some c ->
  sdk unit h (get_bucket bucket) = Ret tt ->
  sdk _ (h ++ [ECall (get_bucket bucket)])%list listing = Ret names ->
  (forallb (fun name => negb (String.eqb name "")) names = true ->
   exists text,
     Storage.list_files_from_gs labels gsPath recurse sdk h
     = ([ECall (get_bucket bucket); ECall listing; ELog INFO text labels],
        Val (Some (listed bucket names))))
  /\ (forallb (fun name => negb (String.eqb name "")) names = false ->
      exists text,
        Storage.list_files_from_gs labels gsPath recurse sdk h
        = ([ECall (get_bucket bucket); ECall listing; ELog ERROR text labels],
           Val None)).
Proof.
  intros bucket prefix listing Hlast E1 E2. split; intros Hnames.
  - now apply (list_files_named labels gsPath recurse sdk h names c).
  - unfold Storage.list_files_from_gs. cbv zeta. fold (as_directory gsPath).
    rewrite Hlast. rewrite (surjective_pairing (extractBucketFile (as_directory gsPath))).
    fold bucket prefix. fold listing.
    unfold try_except. unfold listing. rewrite (list_files_calls _ _ _ _ _ names _ E1 E2).
    rewrite (run_bind_exn _ _ _ _ [] (mkExn IndexError "string index out of range"))
      by (now apply files_of_unnamed_blob).
    unfold Storage.except_Exception. run_events. eexists. reflexivity.
Qed.

(** The theorem at a listing that holds a file, a directory marker and
    a nested file. *)
Lemma list_files_result_witness :
  exists text,
    Storage.list_files_from_gs [] "gs://b/dir" true dir_listing []
    = ([ECall (get_bucket "b"); ECall (list_blobs "b" "dir/" None); ELog INFO text []],
       Val (Some ["gs://b/dir/a.csv"; "gs://b/dir/sub/b.csv"])).
Proof.
  destruct (list_files_result [] "gs://b/dir" true dir_listing []
              ["dir/a.csv"; "dir/sub/"; "dir/sub/b.csv"] "r"%char
              eq_refl eq_refl eq_refl) as [H _].
  exact (H eq_refl).
Defined.

(** An empty path is no error for the caller: before any client call
    the function logs one ERROR line and returns [None]. *)
Lemma list_files_of_empty_path (labels : label_set) (recurse : bool)
        (sdk : oracle) (h : list event) :
  Storage.list_files_from_gs labels "" recurse sdk h
  = ([ELog ERROR "Error in list files from GS :: gsPath  :: string index out of range"
        labels], Val None).
Proof. reflexivity. Qed.

(** The locators of a listing name the blobs listed. *)
Lemma listed_in (bucket : string) (names : list string) (loc : string) :
  In loc (listed bucket names) ->
  exists name, In name names /\ is_dir name = false
               /\ loc = "gs://" ++ bucket ++ "/" ++ name.
Proof.
  unfold listed. rewrite in_map_iff. intros (name & <- & Hin).
  apply filter_In in Hin. destruct Hin as [Hin Hdir].
  exists name. repeat split; [exact Hin | now apply negb_true_iff in Hdir].
Qed.

(** X11.  What [list_files_from_gs] returns can be handed to the other
    functions: unless the bucket name ends with ["gs:"], every locator
    of the result is taken apart by [extractBucketFile] into the bucket
    that was listed and the name of a listed blob that is not a
    directory marker. *)
Theorem listed_files_decompose (labels : label_set) (gsPath : string) (recurse : bool)
        (sdk : oracle) (h : list event) (names : list string) (c : ascii) :
  let bucket := fst (extractBucketFile (as_directory gsPath)) in
  let prefix := snd (extractBucketFile (as_directory gsPath)) in
  let listing := list_blobs bucket prefix (if recurse then None else Some "/") in
  last_char gsPath = Some c ->
  sdk unit h (get_bucket bucket) = Ret tt ->
  sdk _ (h ++ [ECall (get_bucket bucket)])%list listing = Ret names ->
  forallb (fun name => negb (String.eqb name "")) names = true ->
  endswith "gs:" bucket = false ->
  exists files,
    snd (Storage.list_files_from_gs labels gsPath recurse sdk h) = Val (Some files)
    /\ forall loc, In loc files ->
         exists name, In name names /\ is_dir name = false
                      /\ extractBucketFile loc = (bucket, name).
Proof.
  intros bucket prefix listing Hlast E1 E2 Hnames Hgs.
  destruct (list_files_named labels gsPath recurse sdk h names c Hlast E1 E2 Hnames)
    as [text E].
  fold bucket in E. exists (listed bucket names). split; [now rewrite E|].
  intros loc Hin. apply listed_in in Hin. destruct Hin as (name & Hin & Hdir & ->).
  exists name. repeat split; [exact Hin | exact Hdir |].
  apply locator_decomposes; [apply bucket_no_slash | now rewrite Hgs].
Qed.

(** The theorem at a listing that holds a file, a directory marker and
    a nested file. *)
Lemma listed_files_decompose_witness :
  exists files,
    snd (Storage.list_files_from_gs [] "gs://b/dir" true dir_listing []) = Val (Some files)
    /\ forall loc, In loc files ->
         exists name, In name ["dir/a.csv"; "dir/sub/"; "dir/sub/b.csv"]
                      /\ is_dir name = false
                      /\ extractBucketFile loc = ("b", name).
Proof.
  apply (listed_files_decompose [] "gs://b/dir" true dir_listing []
           ["dir/a.csv"; "dir/sub/"; "dir/sub/b.csv"] "r"%char); reflexivity.
Defined.

End LocatorUses.

(* ================================================================= *)
(** ** The calls an operation makes *)

Module Effects.
Import PyStr Py Locator Outcome RunFacts Facade Derived.
Open Scope Z_scope.

Lemma never_calls_ret name {A} (a : A) : never_calls name (ret a).
Proof. intros sdk h. reflexivity. Qed.

Lemma never_calls_raise name {A} (e : exn) : never_calls name (@raise A e).
Proof. intros sdk h. reflexivity. Qed.

Lemma never_calls_diverge name {A} : never_calls name (@diverge A).
Proof. intros sdk h. reflexivity. Qed.

Lemma never_calls_log_text name text sev labels :
  never_calls name (log_text text sev labels).
Proof. intros sdk h. reflexivity. Qed.

Lemma never_calls_sleep name seconds : never_calls name (sleep seconds).
Proof. intros sdk h. reflexivity. Qed.

Lemma never_calls_attempt name fn retry : never_calls name (attempt fn retry).
Proof. intros sdk h. reflexivity. Qed.

Lemma never_calls_perform name {R} (c : call R) :
  String.eqb (call_name c) name = false -> never_calls name (perform c).
Proof. intros H sdk h. unfold perform. cbn [fst count_calls]. now rewrite H. Qed.

Lemma never_calls_bind name {A B} (m : M A) (f : A -> M B) :
  never_calls name m -> (forall a, never_calls name (f a)) -> never_calls name (bind m f).
Proof.
  intros Hm Hf sdk h. unfold bind.
  specialize (Hm sdk h). destruct (m sdk h) as [es [a| |]]; try exact Hm.
  specialize (Hf a sdk (h ++ es)%list). destruct (f a sdk (h ++ es)%list) as [es' r].
  cbn [fst] in *. now rewrite count_calls_app, Hm, Hf.
Qed.

Lemma never_calls_try name {A} (m : M A) (handler : exn -> M A) :
  never_calls name m -> (forall e, never_calls name (handler e)) ->
  never_calls name (try_except m handler).
Proof.
  intros Hm Hh sdk h. unfold try_except.
  specialize (Hm sdk h). destruct (m sdk h) as [es [a|e|]]; try exact Hm.
  specialize (Hh e sdk (h ++ es)%list). destruct (handler e sdk (h ++ es)%list) as [es' r].
  cbn [fst] in *. now rewrite count_calls_app, Hm, Hh.
Qed.

Lemma never_calls_if name {A} (b : bool) (m m' : M A) :
  never_calls name m -> never_calls name m' -> never_calls name (if b then m else m').
Proof. destruct b; auto. Qed.

Lemma never_calls_except_Exception name {A} (handler : exn -> M A) (e : exn) :
  never_calls name (handler e) -> never_calls name (Storage.except_Exception handler e).
Proof.
  intros H. unfold Storage.except_Exception.
  destruct (isinstance_Exception e); [exact H | apply never_calls_raise].
Qed.

Lemma never_calls_fmap name {A B} (f : A -> B) (m : M A) :
  never_calls name m -> never_calls name (fmap f m).
Proof. intros Hm sdk h. rewrite run_fmap. apply Hm. Qed.

Create HintDb calls.
#[local] Hint Resolve never_calls_ret never_calls_raise never_calls_diverge
  never_calls_log_text never_calls_sleep never_calls_attempt never_calls_perform
  never_calls_bind never_calls_try never_calls_if never_calls_except_Exception
  never_calls_fmap : calls.

(** The method of a call is not the one looked for: by computation, or
    from what is known of the name. *)
Ltac name_cases H :=
  lazymatch type of H with
  | _ \/ _ =>
      let H1 := fresh in
      let H2 := fresh in
      destruct H as [H1|H2]; [rewrite H1; reflexivity | name_cases H2]
  | _ = _ => rewrite H; reflexivity
  end.

Ltac other_call :=
  first
    [ reflexivity
    | match goal with
      | H : ?n = _ |- String.eqb _ ?n = false => name_cases H
      | H : ?n = _ \/ _ |- String.eqb _ ?n = false => name_cases H
      end ].

#[local] Hint Extern 1 (String.eqb _ _ = false) => other_call : calls.

Ltac calls_block blk :=
  unfold blk;
  repeat match goal with |- context [let (_, _) := ?p in _] => destruct p end;
  auto 30 with calls.

Tactic Notation "calls_rec" reference(rec) :=
  let n := fresh "n" in
  let IH := fresh "IH" in
  let retry := fresh "retry" in
  intros budget; induction budget as [|n IH]; intros retry; cbn [rec];
  auto 40 with calls.

Section Removals.

Variable name : string.
Hypothesis Hname : name = "delete" \/ name = "os.remove".

Lemma removal_file_exist_gs labels p : never_calls name (Storage.file_exist_gs labels p).
Proof. calls_block Storage.file_exist_gs. Qed.

Lemma removal_move_file_gs_try labels a b dl :
  (dl = true -> name = "os.remove") ->
  never_calls name (Storage.move_file_gs_try labels a b dl).
Proof.
  intros Hdl. destruct dl; [specialize (Hdl eq_refl)|clear Hdl];
    calls_block Storage.move_file_gs_try.
Qed.

Lemma removal_move_file_gs_rec labels a b dl :
  (dl = true -> name = "os.remove") ->
  forall budget retry, never_calls name (Storage.move_file_gs_rec labels budget a b dl retry).
Proof.
  intros Hdl. pose proof (removal_move_file_gs_try labels a b dl Hdl) as Htry.
  calls_rec Storage.move_file_gs_rec.
Qed.

Lemma removal_rename_gs labels p n : never_calls name (Storage.rename_gs labels p n).
Proof. unfold Storage.rename_gs. calls_block Storage.rename_gs_try. Qed.

Lemma removal_download_file_from_gs_try labels p l :
  never_calls name (Storage.download_file_from_gs_try labels p l).
Proof.
  unfold Storage.download_file_from_gs_try.
  repeat match goal with |- context [let (_, _) := ?p in _] => destruct p end.
  apply never_calls_bind; [auto with calls | intros _].
  apply never_calls_bind; [auto with calls | intros [|]]; auto 20 with calls.
Qed.

Lemma removal_download_file_from_gs_rec labels p l :
  forall budget retry,
    never_calls name (Storage.download_file_from_gs_rec labels budget p l retry).
Proof.
  pose proof (removal_download_file_from_gs_try labels p l) as Htry.
  calls_rec Storage.download_file_from_gs_rec.
Qed.

Lemma removal_upload_file_to_gs_try labels l p dl :
  (dl = true -> name = "delete") ->
  never_calls name (Storage.upload_file_to_gs_try labels l p dl).
Proof.
  intros Hdl. destruct dl; [specialize (Hdl eq_refl)|clear Hdl];
    calls_block Storage.upload_file_to_gs_try.
Qed.

Lemma removal_upload_file_to_gs_rec labels l p dl :
  (dl = true -> name = "delete") ->
  forall budget retry,
    never_calls name (Storage.upload_file_to_gs_rec labels budget l p dl retry).
Proof.
  intros Hdl. pose proof (removal_upload_file_to_gs_try labels l p dl Hdl) as Htry.
  calls_rec Storage.upload_file_to_gs_rec.
Qed.

Lemma removal_files_of_blobs bucket names :
  never_calls name (Storage.files_of_blobs bucket names).
Proof.
  induction names as [|n names IH]; cbn [Storage.files_of_blobs]; auto with calls.
  destruct (last_char n); auto with calls.
Qed.

Lemma removal_list_files_from_gs labels p r :
  never_calls name (Storage.list_files_from_gs labels p r).
Proof.
  pose proof removal_files_of_blobs as Hfiles.
  unfold Storage.list_files_from_gs. apply never_calls_try; [|auto 10 with calls].
  destruct (last_char p); [|auto with calls].
  match goal with |- context [let (_, _) := ?x in _] => destruct x end.
  auto 20 with calls.
Qed.

Lemma removal_delete_file_from_gs_rec labels p :
  name = "os.remove" ->
  forall budget retry, never_calls name (Storage.delete_file_from_gs_rec labels budget p retry).
Proof.
  intros Hn.
  assert (Htry : never_calls name (Storage.delete_file_from_gs_try labels p))
    by calls_block Storage.delete_file_from_gs_try.
  calls_rec Storage.delete_file_from_gs_rec.
Qed.

Lemma removal_wait_table fuel d t b : never_calls name (Bq.wait_table fuel d t b).
Proof.
  revert b. induction fuel as [|n IH]; intros [|]; cbn [Bq.wait_table];
    auto 20 with calls.
Qed.

Lemma removal_createwait_table_rec labels fuel d t s :
  forall budget retry,
    never_calls name (Bq.createwait_table_rec labels budget fuel d t s retry).
Proof.
  pose proof (removal_wait_table fuel d t false) as Hwait.
  assert (Htry : never_calls name (Bq.createwait_table_try labels fuel d t s))
    by calls_block Bq.createwait_table_try.
  calls_rec Bq.createwait_table_rec.
Qed.

Lemma removal_build_schema_from_list labels l m :
  never_calls name (Bq.build_schema_from_list labels l m).
Proof.
  unfold Bq.build_schema_from_list. apply never_calls_try; [|auto 10 with calls].
  apply never_calls_bind; [|auto with calls].
  intros sdk h. reflexivity.
Qed.

Lemma removal_build_schema_from_non_dict labels v :
  never_calls name (Bq.build_schema_from_non_dict labels v).
Proof. calls_block Bq.build_schema_from_non_dict. Qed.

Lemma removal_vals_loop labels ub k v vals acc :
  never_calls name (Bq.vals_loop labels ub k v vals acc).
Proof.
  pose proof (removal_build_schema_from_non_dict labels v) as Hnon.
  revert acc. induction vals as [|val vals IH]; intros acc; cbn [Bq.vals_loop];
    [auto with calls|].
  destruct val; [apply IH|..];
    (destruct ub; cbn [Bq.or_isinstance_unicode]; auto with calls).
Qed.

Lemma removal_build_schema_from_dict labels ub v m :
  never_calls name (Bq.build_schema_from_dict labels ub v m).
Proof.
  induction v as [s|items IH|elems|s t] using pyval_nested_ind;
    cbn [Bq.build_schema_from_dict];
    try apply removal_build_schema_from_non_dict.
  apply never_calls_bind.
  - match goal with |- never_calls _ (?loop items []) =>
      enough (Hloop : forall acc, never_calls name (loop items acc)) by apply Hloop
    end.
    induction IH as [|[k v] items Hv _ IHitems]; intros acc.
    + apply never_calls_ret.
    + cbn [snd] in Hv. lazy beta iota fix.
      destruct v as [s|sub|vals|s t]; [apply IHitems|..];
        (destruct ub; cbn [Bq.or_isinstance_unicode]; [|apply never_calls_ret]).
      * apply never_calls_bind; [exact Hv | intros; apply IHitems].
      * apply never_calls_bind; [apply removal_vals_loop|].
        intros [sb [e|]]; [apply never_calls_ret | apply IHitems].
      * apply never_calls_bind; [apply never_calls_log_text | intros; apply IHitems].
  - intros [sb [e|]]; auto 10 with calls.
Qed.

Lemma removal_wait_job labels timeout job_id text :
  never_calls name (Bq.wait_job labels timeout job_id text).
Proof. calls_block Bq.wait_job. Qed.

Lemma removal_insert_file_rec labels timeout p d t s f w fd q lr mb :
  forall budget retry,
    never_calls name (Bq.insert_file_rec labels timeout budget p d t s f w fd q lr mb retry).
Proof.
  pose proof removal_wait_job as Hwait.
  assert (Htry : never_calls name (Bq.insert_file_try labels timeout p d t s f w fd q lr mb))
    by calls_block Bq.insert_file_try.
  calls_rec Bq.insert_file_rec.
Qed.

Lemma removal_run_queryjob_rec labels timeout d t q l w a :
  forall budget retry,
    never_calls name (Bq.run_queryjob_rec labels timeout budget d t q l w a retry).
Proof.
  pose proof removal_wait_job as Hwait.
  assert (Htry : never_calls name (Bq.run_queryjob_try labels timeout d t q l w a))
    by calls_block Bq.run_queryjob_try.
  calls_rec Bq.run_queryjob_rec.
Qed.

Lemma removal_run_extractjob_rec labels timeout u d t c f fd ph :
  forall budget retry,
    never_calls name (Bq.run_extractjob_rec labels timeout budget u d t c f fd ph retry).
Proof.
  pose proof removal_wait_job as Hwait.
  assert (Htry : never_calls name (Bq.run_extractjob_try labels timeout u d t c f fd ph))
    by calls_block Bq.run_extractjob_try.
  calls_rec Bq.run_extractjob_rec.
Qed.

Lemma removal_publish_rec json_dumps bytes_repr labels p t m a :
  forall budget retry,
    never_calls name (Publisher.publish_rec json_dumps bytes_repr budget labels p t m a retry).
Proof.
  assert (Hens : forall topic, never_calls name (Publisher.ensure_topic topic))
    by (intros topic; calls_block Publisher.ensure_topic).
  assert (Htry : forall topic data attrs,
            never_calls name (Publisher.publish_try bytes_repr labels topic data attrs))
    by (intros topic data attrs; calls_block Publisher.publish_try).
  intros budget. induction budget as [|n IH]; intros retry; cbn [Publisher.publish_rec];
    destruct a; auto 40 with calls.
Qed.

Lemma removal_subscribe bound labels p t s c :
  never_calls name (Subscriber.subscribe bound labels p t s c).
Proof.
  unfold Subscriber.subscribe, Subscriber.ensure_subscription.
  apply never_calls_bind; [destruct bound; auto 20 with calls | intros status].
  apply never_calls_bind; [auto with calls | intros _].
  apply never_calls_bind; [auto with calls | intros _].
  apply never_calls_try; [auto with calls | intros e].
  destruct (exn_cls e); auto with calls.
Qed.

End Removals.

(** X12.  Nothing is removed that was not asked for.  [blob.delete] is
    called by [move_file_gs] with [delete=True] and by
    [delete_file_from_gs] only, and [os.remove] by [upload_file_to_gs]
    with [delete=True] only: on any outside world, from any history and
    at any attempt, no other operation makes either call, whatever fails
    and however often it is retried.  In particular [copy_file_gs] never
    deletes its source. *)
Theorem nothing_else_is_removed (cf : config) (op : operation) (retry : Z) (name : string) :
  is_removal name = true ->
  removes op name = false ->
  never_calls name (invoke cf op retry).
Proof.
  intros Hn Hop.
  assert (Hname : name = "delete" \/ name = "os.remove").
  { unfold is_removal in Hn. apply orb_prop in Hn.
    destruct Hn as [H|H]; apply String.eqb_eq in H; auto. }
  assert (Hother : forall a b : string,
            name = a \/ name = b -> String.eqb name a = false -> name = b).
  { intros a b [->| ->] H; [|reflexivity]. now rewrite String.eqb_refl in H. }
  clear Hn.
  destruct op; cbn [invoke]; apply never_calls_fmap.
  - now apply removal_file_exist_gs.
  - unfold Storage.move_file_gs. apply removal_move_file_gs_rec; [assumption|].
    intros ->. cbn [removes] in Hop. exact (Hother _ _ Hname Hop).
  - unfold Storage.move_file_gs. apply removal_move_file_gs_rec; [assumption|].
    discriminate.
  - now apply removal_rename_gs.
  - unfold Storage.download_file_from_gs. now apply removal_download_file_from_gs_rec.
  - unfold Storage.upload_file_to_gs. apply removal_upload_file_to_gs_rec; [assumption|].
    intros ->. cbn [removes] in Hop.
    apply (Hother "os.remove" "delete"); [tauto | exact Hop].
  - now apply removal_list_files_from_gs.
  - unfold Storage.delete_file_from_gs. apply removal_delete_file_from_gs_rec.
    cbn [removes] in Hop. exact (Hother _ _ Hname Hop).
  - unfold Bq.createwait_table. now apply removal_createwait_table_rec.
  - now apply removal_build_schema_from_list.
  - now apply removal_build_schema_from_dict.
  - unfold Bq.insert_file. now apply removal_insert_file_rec.
  - unfold Bq.run_queryjob. now apply removal_run_queryjob_rec.
  - unfold Bq.run_extractjob. now apply removal_run_extractjob_rec.
  - unfold Publisher.publish. now apply removal_publish_rec.
  - now apply removal_subscribe.
Qed.

(** The theorem at a copy: the source is never deleted. *)
Lemma nothing_else_is_removed_witness :
  never_calls "delete" (invoke Samples.imported (Op_copy_file_gs "gs://a/x" "gs://b/y") 0).
Proof.
  apply (nothing_else_is_removed Samples.imported (Op_copy_file_gs "gs://a/x" "gs://b/y")
           0 "delete"); reflexivity.
Defined.

Lemma calls_insert_file_rec name labels timeout p d t s f w fd q lr mb :
  never_calls name (Bq.insert_file_try labels timeout p d t s f w fd q lr mb) ->
  forall budget retry,
    never_calls name (Bq.insert_file_rec labels timeout budget p d t s f w fd q lr mb retry).
Proof. intros Htry. calls_rec Bq.insert_file_rec. Qed.

(** X13.  [insert_file] chooses the way of loading by the first three
    characters of the path and never tries the other one, whatever
    fails: a path that begins with ["gs:"] is never opened as a local
    file, and any other path is never handed to load_table_from_uri. *)
Theorem insert_file_takes_one_source (labels : label_set) (timeout : Z)
        (file_path dataset_name table_name : string) (schema_bq : list SchemaField)
        (format_input write_disposition field_delimiter quote_character : string)
        (leading_rows max_bad_records retry : Z) (name : string) :
  In name (other_source file_path) ->
  never_calls name
    (Bq.insert_file labels timeout file_path dataset_name table_name schema_bq format_input
       write_disposition field_delimiter quote_character leading_rows max_bad_records retry).
Proof.
  intros Hin. unfold Bq.insert_file. apply calls_insert_file_rec.
  unfold other_source in Hin. unfold Bq.insert_file_try, Bq.wait_job.
  destruct (String.eqb (slice_to 3 file_path) "gs:"); cbn [In] in Hin;
    repeat match type of Hin with _ \/ _ => destruct Hin as [Hin|Hin] end;
    try contradiction; subst name; auto 30 with calls.
Qed.

(** The theorem at a path in a bucket: no local file is opened. *)
Lemma insert_file_takes_one_source_witness :
  never_calls "open"
    (Bq.insert_file [] 180 "gs://b/x.csv" "ds" "tbl" [] "CSV" "WRITE_EMPTY" "," "'" 0 0 0).
Proof.
  apply (insert_file_takes_one_source [] 180 "gs://b/x.csv" "ds" "tbl" [] "CSV"
           "WRITE_EMPTY" "," "'" 0 0 0 "open").
  left. reflexivity.
Defined.

End Effects.

(* ================================================================= *)
(** ** What a retry repeats *)

Module Repeats.
Import PyStr Py Locator Outcome RunFacts Facade Blocks Derived.
Open Scope Z_scope.

Lemma entry_no_calls name op retry : count_calls name (entry op retry) = 0%nat.
Proof. destruct op; reflexivity. Qed.

(** With every guarded block failing in the retried class after [k]
    calls of a method, the call that has [n] retries left makes
    [(n + 1) * k] of them. *)
Lemma calls_repeat (cf : config) (op : operation) (C : nat) (sdk : oracle)
      (name : string) (k : nat) :
  ceiling op = Some C ->
  warns_then_sleeps op = true ->
  (forall h, exists es e,
      guarded cf op sdk h = (es, Exn e) /\ retriable e = true
      /\ count_calls name es = k) ->
  forall n retry h,
    retry = Z.of_nat C - Z.of_nat n ->
    exists es,
      invoke cf op retry sdk h = (es, Val (failure op))
      /\ count_calls name es = (S n * k)%nat.
Proof.
  intros HC Hw Hfail n. induction n as [|n IH]; intros retry h Hretry;
    destruct (Hfail (h ++ entry op retry)%list) as (es0 & e & E & Hr & Hk).
  - destruct (RetrySteps.invoke_last cf op C retry sdk h es0 e HC Hw ltac:(lia) E Hr)
      as [text Ht].
    rewrite Ht. eexists. split; [reflexivity|].
    rewrite !count_calls_app, entry_no_calls, Hk. cbn [count_calls]. lia.
  - destruct (RetrySteps.invoke_step cf op C retry sdk h es0 e HC Hw ltac:(lia) E Hr)
      as [text Ht].
    rewrite Ht. cbv zeta.
    match goal with |- context [invoke cf op (retry + 1) sdk ?h'] =>
      destruct (IH (retry + 1) h' ltac:(lia)) as (es' & E' & Hc')
    end.
    rewrite E'. cbn [fst snd]. eexists. split; [reflexivity|].
    rewrite !count_calls_app, entry_no_calls, Hk. cbn [count_calls].
    rewrite Hc'. lia.
Qed.

(** X14.  A retry runs the whole guarded block again: on every retried
    function but [publish], when each attempt fails in the retried class
    after [k] calls of some client method, the call returns the failure
    sentinel after [(C + 1) * k] calls of that method.  What an attempt
    did before it failed is done again, not undone. *)
Theorem retries_repeat_calls (cf : config) (op : operation) (C : nat) (sdk : oracle)
        (h : list event) (name : string) (k : nat) :
  ceiling op = Some C ->
  warns_then_sleeps op = true ->
  (forall h', exists es e,
      guarded cf op sdk h' = (es, Exn e) /\ retriable e = true
      /\ count_calls name es = k) ->
  exists es,
    invoke cf op 0 sdk h = (es, Val (failure op))
    /\ count_calls name es = ((C + 1) * k)%nat.
Proof.
  intros HC Hw Hfail.
  destruct (calls_repeat cf op C sdk name k HC Hw Hfail C 0 h ltac:(lia))
    as (es & E & Hc).
  exists es. split; [exact E|]. rewrite Hc. f_equal. lia.
Qed.

(** The theorem at a move whose source may not be deleted: the blob is
    copied four times, and the call reports [False] with the copy in
    place. *)
Lemma retries_repeat_calls_witness :
  exists es,
    invoke Samples.imported (Op_move_file_gs "gs://a/x" "gs://b/y" true) 0 delete_denied []
    = (es, Val (RBool false))
    /\ count_calls "copy_blob" es = 4%nat.
Proof.
  apply (retries_repeat_calls Samples.imported (Op_move_file_gs "gs://a/x" "gs://b/y" true)
           3 delete_denied [] "copy_blob" 1); [reflexivity | reflexivity |].
  intros h'. eexists. eexists. repeat split.
Defined.

(** The guarded block of a job function whose wait breaks: the job has
    been submitted, and its errors are not read. *)
Lemma job_block_fails (cf : config) (op : operation) (sdk : oracle) (u : string)
      (errs : option (list string)) (e : exn) :
  is_job op = true ->
  accepts_jobs sdk u errs ->
  (forall h id timeout, sdk unit h (job_result id timeout) = Raise e) ->
  isinstance_TimeoutError e = false ->
  forall h, exists es,
    guarded cf op sdk h = (es, Exn e)
    /\ count_calls (submission op) es = 1%nat
    /\ count_calls "uuid4" es = 1%nat
    /\ count_calls "errors" es = 0%nat.
Proof.
  intros Hop (Hu & Hopen & Huri & Hfile & Hquery & Hextract & Herrs) Hw HT h.
  destruct op; try discriminate Hop; cbn [guarded submission]; rewrite run_fmap;
    unfold Bq.insert_file_try, Bq.run_queryjob_try, Bq.run_extractjob_try;
    try destruct (String.eqb (slice_to 3 file_path) "gs:");
    unfold Bq.wait_job, try_except, perform, raise; run_events;
    repeat first
      [ rewrite Hu | rewrite Hopen | rewrite Huri | rewrite Hfile | rewrite Hquery
      | rewrite Hextract | rewrite Hw | rewrite HT | progress cbn [fst snd app] ];
    eexists; repeat split.
Qed.



(** X16.  A blob that is not there is no NotFound for
    [download_file_from_gs]: [get_blob] returns [None], the download
    call on it is an AttributeError, and that is retried like an outage.
    With the bucket found and the blob missing, the call looks the blob
    up four times, sleeping 3 seconds between the attempts, never
    downloads, and returns [False]. *)
Theorem missing_blob_is_retried (cf : config) (gsPath localPath : string)
        (sdk : oracle) (h : list event) :
  (forall h' bucket, sdk unit h' (get_bucket bucket) = Ret tt) ->
  (forall h' bucket name, sdk bool h' (get_blob bucket name) = Ret false) ->
  exists es,
    invoke cf (Op_download_file_from_gs gsPath localPath) 0 sdk h = (es, Val (RBool false))
    /\ count_calls "get_blob" es = 4%nat
    /\ count_calls "download_to_filename" es = 0%nat
    /\ attempts es = 4%nat
    /\ sleeps es = [3; 3; 3].
Proof.
  intros Hbucket Hblob.
  set (op := Op_download_file_from_gs gsPath localPath).
  assert (Hblock : forall h', exists es e,
            guarded cf op sdk h' = (es, Exn e) /\ retriable e = true
            /\ count_calls "get_blob" es = 1%nat
            /\ count_calls "download_to_filename" es = 0%nat).
  { intros h'. unfold op. cbn [guarded]. rewrite run_fmap.
    unfold Storage.download_file_from_gs_try.
    destruct (extractBucketFile gsPath) as [bucket name].
    unfold perform, raise. run_events. rewrite Hbucket. cbn [fst snd app].
    rewrite Hblob. cbn [fst snd app]. eexists. eexists. repeat split. }
  destruct (calls_repeat cf op 3 sdk "get_blob" 1 eq_refl eq_refl) with (n := 3%nat)
    (retry := 0) (h := h) as (es & E & H1); [|reflexivity|].
  { intros h'. destruct (Hblock h') as (es & e & E & Hr & Hc & _). now exists es, e. }
  destruct (calls_repeat cf op 3 sdk "download_to_filename" 0 eq_refl eq_refl)
    with (n := 3%nat) (retry := 0) (h := h) as (es2 & E2 & H2); [|reflexivity|].
  { intros h'. destruct (Hblock h') as (es' & e & E' & Hr & _ & Hc). now exists es', e. }
  rewrite E in E2. inversion E2. subst es2.
  exists es. split; [exact E|]. split; [exact H1|]. split; [exact H2|].
  assert (Hfail : always_raises (Storage.download_file_from_gs_try (labels cf) gsPath localPath)
            sdk).
  { intros h'. destruct (Hblock h') as (es' & e & E' & Hr & _).
    exists es', e. split; [|exact Hr]. unfold op in E'. cbn [guarded] in E'.
    now apply fmap_exn in E'. }
  destruct (RetryCeiling.download_file_from_gs_exhausted _ _ _ _ Hfail 3%nat 0 h eq_refl)
    as (es' & E' & Hq).
  unfold op in E. cbn [invoke] in E. unfold Storage.download_file_from_gs in E.
  change (Z.to_nat (3 - 0)) with 3%nat in E.
  rewrite run_fmap, E' in E. inversion E. subst es'.
  now apply (retry_rhythm_counts es 3 3).
Qed.

(** The theorem at a bucket that does not hold the blob. *)
Lemma missing_blob_is_retried_witness :
  exists es,
    invoke Samples.imported (Op_download_file_from_gs "gs://b/x" "/tmp/x") 0 blob_missing []
    = (es, Val (RBool false))
    /\ count_calls "get_blob" es = 4%nat
    /\ count_calls "download_to_filename" es = 0%nat
    /\ attempts es = 4%nat
    /\ sleeps es = [3; 3; 3].
Proof.
  apply (missing_blob_is_retried Samples.imported "gs://b/x" "/tmp/x" blob_missing []);
    intros; reflexivity.
Defined.

End Repeats.

(* ================================================================= *)
(** ** Schemas and load configurations *)

Module Schemas.
Import PyStr Py Outcome RunFacts Facade Derived.
Open Scope Z_scope.

Lemma fields_of_list_spec (schema_list : list (string * string * option string))
      (mode_fields : option string) :
  Bq.fields_of_list schema_list mode_fields
  = if forallb (has_mode mode_fields) schema_list
    then Val (map (field_of mode_fields) schema_list)
    else Exn (mkExn IndexError "tuple index out of range").
Proof.
  induction schema_list as [|[[name type] mode] l IH]; [reflexivity|].
  cbn [Bq.fields_of_list forallb map]. unfold has_mode at 1, field_of at 1, mode_of.
  cbn [fst snd]. rewrite IH.
  destruct mode_fields as [m|]; [|destruct mode as [m|]; [|reflexivity]];
    destruct (forallb _ l); reflexivity.
Qed.

(** X17.  [build_schema_from_list] is all or nothing.  If every tuple
    has a mode (always so when [mode_fields] is given, which then
    overrides the tuples' own modes), the result has one field per
    tuple, in order, after one INFO line.  If [mode_fields] is [None]
    and one tuple is a pair, the fields of all the tuples are lost: the
    result is the empty list, after one ERROR line. *)
Theorem build_schema_from_list_all_or_nothing (labels : label_set)
        (schema_list : list (string * string * option string))
        (mode_fields : option string) (sdk : oracle) (h : list event) :
  Bq.build_schema_from_list labels schema_list mode_fields sdk h
  = if forallb (has_mode mode_fields) schema_list
    then ([ELog INFO "BQ schema build from list" labels],
          Val (map (field_of mode_fields) schema_list))
    else ([ELog ERROR "Error in build schema from list :: error tuple index out of range"
             labels], Val []).
Proof.
  unfold Bq.build_schema_from_list, try_except, Storage.except_Exception. run_events.
  rewrite fields_of_list_spec.
  destruct (forallb (has_mode mode_fields) schema_list); reflexivity.
Qed.

(** X18.  On Python 3, where [unicode] is not bound,
    [build_schema_from_dict] gives the fields of the items that come
    before the first value that is not a string, and nothing of what
    follows it, strings included: a nested dictionary or a list ends the
    schema there, with one ERROR line for the NameError.  A dictionary
    of strings only gives all its fields, after one INFO line. *)
Theorem build_schema_from_dict_on_python3 (labels : label_set)
        (items : list (string * Bq.pyval)) (mode_fields : string)
        (sdk : oracle) (h : list event) :
  Bq.build_schema_from_dict labels false (Bq.PDict items) mode_fields sdk h
  = ([if forallb (fun kv => is_str (snd kv)) items
      then ELog INFO "BQ schema build from dict" labels
      else ELog ERROR
             "Error in build BQ schema from dict :: error name 'unicode' is not defined"
             labels],
     Val (leading_fields mode_fields items)).
Proof.
  cbn [Bq.build_schema_from_dict].
  match goal with |- bind (?loop items []) ?k sdk h = _ =>
    assert (Hloop : forall its acc h',
              loop its acc sdk h'
              = ([], Val ((acc ++ leading_fields mode_fields its)%list,
                          if forallb (fun kv => is_str (snd kv)) its
                          then None else Some Bq.unicode_NameError)))
  end.
  { intros its. induction its as [|[k v] its IH]; intros acc h'.
    - cbn [leading_fields forallb]. now rewrite app_nil_r.
    - lazy beta iota fix. destruct v as [s|sub|vals|s t]; cbn [leading_fields forallb is_str snd andb].
      + fold (Bq.build_schema_from_dict labels false). rewrite IH.
        rewrite <- app_assoc. reflexivity.
      + now rewrite app_nil_r.
      + now rewrite app_nil_r.
      + now rewrite app_nil_r. }
  rewrite (run_bind _ _ _ _ [] _ (Hloop items [] h)). cbn [app fst snd].
  destruct (forallb (fun kv => is_str (snd kv)) items); reflexivity.
Qed.

(** X19.  [insert_file] knows the formats ["CSV"], ["JSON"] and
    ["PARQUET"] by these names only.  Any other name, the
    ["NEWLINE_DELIMITED_JSON"] of its own docstring included, is not an
    error: the load is configured with the write disposition and the
    bound on bad records and nothing else, neither source format nor
    schema. *)
Theorem unknown_format_configures_nothing (schema_bq : list SchemaField)
        (format_input write_disposition field_delimiter quote_character : string)
        (leading_rows max_bad_records : Z) :
  String.eqb format_input "CSV" = false ->
  String.eqb format_input "JSON" = false ->
  String.eqb format_input "PARQUET" = false ->
  Bq.load_config schema_bq format_input write_disposition field_delimiter quote_character
    leading_rows max_bad_records
  = mkLoadJobConfig write_disposition None None None None None (Some max_bad_records).
Proof.
  intros H1 H2 H3. unfold Bq.load_config. now rewrite H1, H2, H3.
Qed.

(** The theorem at the format name of the docstring. *)
Lemma unknown_format_configures_nothing_witness :
  Bq.load_config [mkField "a" "STRING" "NULLABLE" []] "NEWLINE_DELIMITED_JSON"
    "WRITE_EMPTY" "," "'" 0 0
  = mkLoadJobConfig "WRITE_EMPTY" None None None None None (Some 0).
Proof.
  apply (unknown_format_configures_nothing [mkField "a" "STRING" "NULLABLE" []]
           "NEWLINE_DELIMITED_JSON" "WRITE_EMPTY" "," "'" 0 0); reflexivity.
Defined.

End Schemas.

(* ================================================================= *)
(** ** The existence check *)

Module Existence.
Import PyStr Py Locator Outcome RunFacts Facade Derived.
Open Scope Z_scope.

Ltac settle :=
  repeat match goal with
         | H : _ /\ _ |- _ => destruct H
         | H : _ \/ _ |- _ => destruct H
         | H : exists _, _ |- _ => destruct H
         | H : Raise _ = Raise _ |- _ => inversion H; subst; clear H
         end;
  try discriminate; try congruence; eauto 10.

(** X20.  [file_exist_gs] returns [True] exactly when the bucket was
    found and the existence check answered [True].  Its [False] has two
    meanings that the result does not tell apart: the check answered
    [False], or one of the two calls failed with an Exception. *)
Theorem file_exist_gs_answers (labels : label_set) (gsPath : string)
        (sdk : oracle) (h : list event) :
  let bucket := fst (extractBucketFile gsPath) in
  let name := snd (extractBucketFile gsPath) in
  let found := sdk unit h (get_bucket bucket) in
  let checked := sdk bool (h ++ [ECall (get_bucket bucket)])%list (blob_exists bucket name) in
  (snd (Storage.file_exist_gs labels gsPath sdk h) = Val true
   <-> found = Ret tt /\ checked = Ret true)
  /\ (snd (Storage.file_exist_gs labels gsPath sdk h) = Val false
      <-> (found = Ret tt /\ checked = Ret false)
          \/ (exists e, isinstance_Exception e = true
                        /\ (found = Raise e \/ (found = Ret tt /\ checked = Raise e)))).
Proof.
  intros bucket name found checked. unfold Storage.file_exist_gs.
  rewrite (surjective_pairing (extractBucketFile gsPath)). fold bucket name.
  unfold try_except, Storage.except_Exception, perform, raise. run_events.
  fold found. destruct found as [[]|e|] eqn:E1; cbn [fst snd app].
  - fold checked. destruct checked as [[|]|e|] eqn:E2; cbn [fst snd app].
    + split; split; intros; settle.
    + split; split; intros; settle.
    + destruct (isinstance_Exception e) eqn:HE; cbn [fst snd app];
        split; split; intros; settle.
    + split; split; intros; settle.
  - destruct (isinstance_Exception e) eqn:HE; cbn [fst snd app];
      split; split; intros; settle.
  - split; split; intros; settle.
Qed.

End Existence.

(* ================================================================= *)
(** ** Publishing and subscribing *)

Module Messaging.
Import PyStr Py Outcome RunFacts Facade Derived.
Open Scope Z_scope.

(** X21.  [publish] has no handler but [except Exception] and no
    WARNING: when the topic is there and the client call fails every
    time with an Exception of any class, NotFound and Conflict included,
    the call checks the topic before each of its three attempts, logs
    each failure, the last one too, at ERROR, sleeps 10 seconds twice
    and returns [False]. *)
Theorem publish_outage_run (json_dumps : list (string * string) -> string)
        (bytes_repr : string -> string) (labels : label_set)
        (project_id topic_name message : string) (attributes : list (string * string))
        (sdk : oracle) (h : list event) (e : exn) :
  let topic := Publisher.topic_path project_id topic_name in
  (forall h', sdk unit h' (get_topic topic) = Ret tt) ->
  (forall h' data attrs, sdk unit h' (client_publish topic data attrs) = Raise e) ->
  isinstance_Exception e = true ->
  exists es,
    Publisher.publish json_dumps bytes_repr labels project_id topic_name message
      (Some attributes) 0 sdk h = (es, Val false)
    /\ logs es = [DEBUG; ERROR; DEBUG; ERROR; DEBUG; ERROR]
    /\ count_calls "get_topic" es = 3%nat
    /\ count_calls "publish" es = 3%nat
    /\ sleeps es = [10; 10].
Proof.
  intros topic Htopic Hpub HE. unfold Publisher.publish.
  change (Z.to_nat (2 - 0)) with 2%nat. cbn [Publisher.publish_rec]. fold topic.
  unfold Publisher.ensure_topic, Publisher.publish_try, try_except,
    Storage.except_Exception, perform.
  run_events.
  change (0 <? 2) with true. change (0 + 1 <? 2) with true.
  change (0 + 1 + 1 <? 2) with false.
  repeat first
    [ rewrite Htopic | rewrite Hpub | rewrite HE | progress cbn [fst snd app] ].
  eexists. repeat split.
Qed.

(** The theorem at a topic that is gone when the message is sent. *)
Lemma publish_outage_run_witness :
  exists es,
    Publisher.publish (fun _ => "{}") (fun s => "b'" ++ s ++ "'") [] "p" "t" "m" (Some []) 0
      topic_vanishes [] = (es, Val false)
    /\ logs es = [DEBUG; ERROR; DEBUG; ERROR; DEBUG; ERROR]
    /\ count_calls "get_topic" es = 3%nat
    /\ count_calls "publish" es = 3%nat
    /\ sleeps es = [10; 10].
Proof.
  apply (publish_outage_run (fun _ => "{}") (fun s => "b'" ++ s ++ "'") [] "p" "t" "m" []
           topic_vanishes []
           Samples.not_found); intros; reflexivity.
Defined.

(** X22.  Attributes that are not a dictionary do not stop [publish]:
    after the topic check it logs one ERROR line and publishes the
    message with the empty string for attributes. *)
Theorem publish_ignores_bad_attributes (json_dumps : list (string * string) -> string)
        (bytes_repr : string -> string) (labels : label_set)
        (project_id topic_name message : string) (retry : Z)
        (sdk : oracle) (h : list event) :
  let topic := Publisher.topic_path project_id topic_name in
  sdk unit (h ++ [EAttempt "publish" retry])%list (get_topic topic) = Ret tt ->
  (forall h', sdk unit h' (client_publish topic message "") = Ret tt) ->
  Publisher.publish json_dumps bytes_repr labels project_id topic_name message None retry
    sdk h
  = ([EAttempt "publish" retry; ECall (get_topic topic);
      ELog DEBUG "Topic request status : topic exists" labels;
      ELog ERROR "Error : attributes ignored in message (must be a dictonary)" labels;
      ECall (client_publish topic message "");
      ELog INFO ("Message : " ++ bytes_repr message ++ " published with attributes : ")
        labels],
     Val true).
Proof.
  intros topic Htopic Hpub. unfold Publisher.publish.
  destruct (Z.to_nat (2 - retry)); cbn [Publisher.publish_rec]; fold topic;
    unfold Publisher.ensure_topic, Publisher.publish_try, try_except,
      Storage.except_Exception, perform;
    run_events;
    repeat first [ rewrite Htopic | rewrite Hpub | progress cbn [fst snd app] ];
    reflexivity.
Qed.

(** The theorem where every call succeeds. *)
Lemma publish_ignores_bad_attributes_witness :
  Publisher.publish (fun _ => "{}") (fun s => "b'" ++ s ++ "'") [] "p" "t" "m" None 0
    Samples.all_ok []
  = ([EAttempt "publish" 0; ECall (get_topic "projects/p/topics/t");
      ELog DEBUG "Topic request status : topic exists" [];
      ELog ERROR "Error : attributes ignored in message (must be a dictonary)" [];
      ECall (client_publish "projects/p/topics/t" "m" "");
      ELog INFO "Message : b'm' published with attributes : " []],
     Val true).
Proof.
  apply (publish_ignores_bad_attributes (fun _ => "{}") (fun s => "b'" ++ s ++ "'") []
           "p" "t" "m" 0
           Samples.all_ok []); intros; reflexivity.
Defined.

(** X23.  Once the subscription is found and the stream is open,
    [subscribe] blocks on it, and only a KeyboardInterrupt ends the
    call in order: the stream is cancelled and the call returns.  Any
    other exception of the stream reaches the caller, and the stream is
    not cancelled. *)
Theorem subscribe_ends_on_interrupt_only (bound : bool) (labels : label_set)
        (project_id topic_name subscription_name callback : string)
        (sdk : oracle) (h : list event) (e : exn) :
  let sub := Subscriber.subscription_path project_id subscription_name in
  let started :=
    [ECall (get_subscription sub);
     ELog DEBUG "Subscription request status : Subscription exists" labels;
     ECall (client_subscribe sub callback)] in
  sdk unit h (get_subscription sub) = Ret tt ->
  sdk unit (h ++ [ECall (get_subscription sub);
                  ELog DEBUG "Subscription request status : Subscription exists" labels])%list
      (client_subscribe sub callback) = Ret tt ->
  sdk unit (h ++ started)%list (future_result sub) = Raise e ->
  sdk unit (h ++ started ++ [ECall (future_result sub)])%list (future_cancel sub) = Ret tt ->
  Subscriber.subscribe bound labels project_id topic_name subscription_name callback sdk h
  = match exn_cls e with
    | KeyboardInterrupt =>
        ((started ++ [ECall (future_result sub); ECall (future_cancel sub)])%list, Val tt)
    | _ => ((started ++ [ECall (future_result sub)])%list, Exn e)
    end.
Proof.
  intros sub started E1 E2 E3 E4.
  unfold Subscriber.subscribe, Subscriber.ensure_subscription, try_except, perform, raise.
  run_events. fold sub. rewrite E1. cbn [fst snd app].
  rewrite <- !app_assoc. cbn [app String.append]. rewrite E2. cbn [fst snd app].
  unfold started in E3, E4. cbn [app] in E3, E4. rewrite E3. cbn [fst snd app].
  destruct (exn_cls e); cbn [fst snd app]; try reflexivity.
  rewrite <- ?app_assoc. cbn [app]. rewrite E4. reflexivity.
Qed.

(** The theorem at a wait that the user interrupts. *)
Lemma subscribe_ends_on_interrupt_only_witness :
  Subscriber.subscribe false [] "p" "t" "s" "callback" stream_interrupted []
  = ([ECall (get_subscription "projects/p/subscriptions/s");
      ELog DEBUG "Subscription request status : Subscription exists" [];
      ECall (client_subscribe "projects/p/subscriptions/s" "callback");
      ECall (future_result "projects/p/subscriptions/s");
      ECall (future_cancel "projects/p/subscriptions/s")], Val tt).
Proof.
  apply (subscribe_ends_on_interrupt_only false [] "p" "t" "s" "callback"
           stream_interrupted [] Samples.interrupted); reflexivity.
Defined.

End Messaging.

(* ================================================================= *)
(** ** A bound on every run *)

Module Bound.
Import PyStr Py Outcome RunFacts Facade Blocks Derived.
Open Scope Z_scope.

(** One invocation on any outside world: the block, then nothing, or a
    line, a sleep and the next invocation. *)
Tactic Notation "bounded" reference(rec) constr(C) constr(Hsilent) :=
  let n := fresh "n" in
  let IH := fresh "IH" in
  let retry := fresh "retry" in
  let h := fresh "h" in
  let Hb := fresh "Hb" in
  let Hq := fresh "Hq" in
  let es := fresh "es" in
  let e := fresh "e" in
  intros budget; induction budget as [|n IH]; intros retry h Hb;
  cbn [rec];
  rewrite (run_bind _ _ _ _ [EAttempt _ retry] tt) by reflexivity;
  unfold try_except;
  match goal with |- context [match ?blk ?sdk ?h' with _ => _ end] =>
    pose proof (Hsilent sdk h') as Hq;
    destruct (blk sdk h') as [es [?|e|]]
  end;
  cbn [fst snd app] in *;
  try (exists 0%nat; split; [lia|]; cbn [rhythm]; rewrite Hq; reflexivity);
  unfold Storage.except_Exception; cbv beta;
  repeat match goal with
         | |- context [if isinstance_NotFound ?x then _ else _] =>
             destruct (isinstance_NotFound x)
         | |- context [if isinstance_Exception ?x then _ else _] =>
             destruct (isinstance_Exception x)
         | |- context [if ?r <? C then _ else _] =>
             destruct (Z.ltb_spec r C)
         end;
  try (exfalso; lia);
  unfold raise; run_events;
  try (exists 0%nat; split; [lia|]; tally; rewrite Hq; reflexivity);
  match goal with |- context [let (_, _) := ?run in _] =>
    match run with
    | ?f ?h' =>
        let k := fresh "k" in
        let Hk := fresh "Hk" in
        let Hrh := fresh "Hrh" in
        let es' := fresh "es'" in
        destruct (IH (retry + 1) h' ltac:(lia)) as (k & Hk & Hrh);
        destruct (f h') as [es' ?]; cbn [fst snd app] in *;
        exists (S k); split; [lia|]; tally; rewrite Hq, Hrh; reflexivity
    end
  end.

Lemma move_file_gs_bounded labels a b d (sdk : oracle) :
  forall budget retry h, Z.to_nat (3 - retry) = budget ->
  exists k, (k <= budget)%nat
    /\ rhythm (fst (Storage.move_file_gs_rec labels budget a b d retry sdk h))
       = retry_rhythm 3 k.
Proof.
  bounded Storage.move_file_gs_rec 3 (silent_move_file_gs_try labels a b d).
Qed.

Lemma download_file_from_gs_bounded labels p l (sdk : oracle) :
  forall budget retry h, Z.to_nat (3 - retry) = budget ->
  exists k, (k <= budget)%nat
    /\ rhythm (fst (Storage.download_file_from_gs_rec labels budget p l retry sdk h))
       = retry_rhythm 3 k.
Proof.
  bounded Storage.download_file_from_gs_rec 3 (silent_download_file_from_gs_try labels p l).
Qed.

Lemma upload_file_to_gs_bounded labels l p d (sdk : oracle) :
  forall budget retry h, Z.to_nat (3 - retry) = budget ->
  exists k, (k <= budget)%nat
    /\ rhythm (fst (Storage.upload_file_to_gs_rec labels budget l p d retry sdk h))
       = retry_rhythm 3 k.
Proof.
  bounded Storage.upload_file_to_gs_rec 3 (silent_upload_file_to_gs_try labels l p d).
Qed.

Lemma delete_file_from_gs_bounded labels p (sdk : oracle) :
  forall budget retry h, Z.to_nat (2 - retry) = budget ->
  exists k, (k <= budget)%nat
    /\ rhythm (fst (Storage.delete_file_from_gs_rec labels budget p retry sdk h))
       = retry_rhythm 3 k.
Proof.
  bounded Storage.delete_file_from_gs_rec 2 (silent_delete_file_from_gs_try labels p).
Qed.

Lemma insert_file_bounded labels timeout p dn t s f w fd q lr mb (sdk : oracle) :
  forall budget retry h, Z.to_nat (3 - retry) = budget ->
  exists k, (k <= budget)%nat
    /\ rhythm (fst (Bq.insert_file_rec labels timeout budget p dn t s f w fd q lr mb retry
                      sdk h))
       = retry_rhythm 5 k.
Proof.
  bounded Bq.insert_file_rec 3
    (silent_insert_file_try labels timeout p dn t s f w fd q lr mb).
Qed.

Lemma run_queryjob_bounded labels timeout dn t q l w a (sdk : oracle) :
  forall budget retry h, Z.to_nat (3 - retry) = budget ->
  exists k, (k <= budget)%nat
    /\ rhythm (fst (Bq.run_queryjob_rec labels timeout budget dn t q l w a retry sdk h))
       = retry_rhythm 5 k.
Proof.
  bounded Bq.run_queryjob_rec 3 (silent_run_queryjob_try labels timeout dn t q l w a).
Qed.

Lemma run_extractjob_bounded labels timeout u dn t c f fd ph (sdk : oracle) :
  forall budget retry h, Z.to_nat (3 - retry) = budget ->
  exists k, (k <= budget)%nat
    /\ rhythm (fst (Bq.run_extractjob_rec labels timeout budget u dn t c f fd ph retry
                      sdk h))
       = retry_rhythm 5 k.
Proof.
  bounded Bq.run_extractjob_rec 3
    (silent_run_extractjob_try labels timeout u dn t c f fd ph).
Qed.

Lemma silent_ensure_topic topic : silent (Publisher.ensure_topic topic).
Proof. silent_block Publisher.ensure_topic. Qed.

Lemma publish_bounded json_dumps bytes_repr labels p t m a (sdk : oracle) :
  forall budget retry h, Z.to_nat (2 - retry) = budget ->
  exists k, (k <= budget)%nat
    /\ rhythm (fst (Publisher.publish_rec json_dumps bytes_repr budget labels p t m a retry
                      sdk h))
       = retry_rhythm 10 k.
Proof.
  intros budget. induction budget as [|n IH]; intros retry h Hb;
    cbn [Publisher.publish_rec];
    rewrite (run_bind _ _ _ _ [EAttempt _ retry] tt) by reflexivity;
    pose proof (silent_ensure_topic (Publisher.topic_path p t) sdk
                  (h ++ [EAttempt "publish" retry])%list) as Hq0;
    destruct (Publisher.ensure_topic (Publisher.topic_path p t) sdk
                (h ++ [EAttempt "publish" retry])%list) as [es0 [st|e0|]] eqn:E0;
    cbn [fst] in Hq0.
  2, 3, 5, 6:
    unfold bind at 1; rewrite E0; cbn [fst snd app];
    exists 0%nat; (split; [lia|]); cbn [rhythm]; rewrite Hq0; reflexivity.
  all: rewrite (run_bind _ _ _ _ _ _ E0);
       rewrite (run_bind _ _ _ _ [ELog _ _ _] tt) by reflexivity;
       destruct a as [dict|].
  all: match goal with
       | |- context [bind (ret ?v) _ _ ?h'] =>
           rewrite (run_bind (ret v) _ _ h' [] v) by reflexivity
       | |- context [bind (bind (log_text ?x ?y ?z) ?k) _ _ ?h'] =>
           rewrite (run_bind (bind (log_text x y z) k) _ _ h' [ELog y x z] "")
             by reflexivity
       end.
  all: unfold try_except;
       match goal with |- context [match ?blk ?s ?h' with _ => _ end] =>
         pose proof (silent_publish_try _ _ _ _ _ s h' : rhythm (fst (blk s h')) = [])
           as Hq;
         destruct (blk s h') as [es [v|e|]]
       end;
       cbn [fst snd app] in *;
       try (exists 0%nat; (split; [lia|]); tally; rewrite Hq0, Hq; reflexivity).
  all: unfold Storage.except_Exception; destruct (isinstance_Exception e);
       [|unfold raise; cbn [fst snd app];
         exists 0%nat; (split; [lia|]); tally; rewrite Hq0, Hq; reflexivity].
  all: destruct (Z.ltb_spec retry 2); try (exfalso; lia); run_events;
       try (exists 0%nat; (split; [lia|]); tally; rewrite Hq0, Hq; reflexivity).
  all: match goal with |- context [let (_, _) := ?run in _] =>
         match run with
         | ?f ?h' =>
             destruct (IH (retry + 1) h' ltac:(lia)) as (k & Hk & Hrh);
             destruct (f h') as [es' r']; cbn [fst snd app] in *;
             exists (S k); (split; [lia|]); tally; rewrite Hq0, Hq, Hrh; reflexivity
         end
       end.
Qed.

(** X24.  On any outside world, whatever each call answers and
    whenever it fails, a call of a retried function other than
    [createwait_table] entered with [retry] alternates attempts and
    sleeps of the function's delay and makes at most [C - retry]
    retries: it starts at most [C - retry + 1] attempts and sleeps at
    most [(C - retry) * delay] seconds in all, and sleeps nowhere but
    between two attempts. *)
Theorem every_run_is_bounded (cf : config) (op : operation) (C : nat) (retry : Z)
        (sdk : oracle) (h : list event) :
  ceiling op = Some C ->
  loops op = false ->
  exists k,
    (k <= Z.to_nat (Z.of_nat C - retry))%nat
    /\ rhythm (fst (invoke cf op retry sdk h)) = retry_rhythm (delay op) k
    /\ attempts (fst (invoke cf op retry sdk h)) = (k + 1)%nat
    /\ sleeps (fst (invoke cf op retry sdk h)) = repeat (delay op) k.
Proof.
  intros HC Hloop.
  assert (Hdone : forall es (s : Z) (n : nat),
            (exists k, (k <= n)%nat /\ rhythm es = retry_rhythm s k) ->
            exists k, (k <= n)%nat /\ rhythm es = retry_rhythm s k
                      /\ attempts es = (k + 1)%nat /\ sleeps es = repeat s k).
  { intros es s n (k & Hk & Hrh). exists k. split; [exact Hk|]. split; [exact Hrh|].
    now apply retry_rhythm_counts. }
  destruct op; cbn [ceiling] in HC; inversion HC; subst C; clear HC;
    try discriminate Hloop; cbn [invoke delay]; rewrite run_fmap; cbn [fst];
    change (Z.of_nat 3) with 3; change (Z.of_nat 2) with 2; apply Hdone.
  - exact (move_file_gs_bounded _ _ _ _ _ _ retry h eq_refl).
  - exact (download_file_from_gs_bounded _ _ _ _ _ retry h eq_refl).
  - exact (upload_file_to_gs_bounded _ _ _ _ _ _ retry h eq_refl).
  - exact (delete_file_from_gs_bounded _ _ _ _ retry h eq_refl).
  - exact (insert_file_bounded _ _ _ _ _ _ _ _ _ _ _ _ _ _ retry h eq_refl).
  - exact (run_queryjob_bounded _ _ _ _ _ _ _ _ _ _ retry h eq_refl).
  - exact (run_extractjob_bounded _ _ _ _ _ _ _ _ _ _ _ retry h eq_refl).
  - exact (publish_bounded _ _ _ _ _ _ _ _ _ retry h eq_refl).
Qed.

(** The theorem at a delete that meets one outage. *)
Lemma every_run_is_bounded_witness :
  exists k,
    (k <= 2)%nat
    /\ rhythm (fst (invoke Samples.imported (Op_delete_file_from_gs "gs://b/x") 0 blip []))
       = retry_rhythm 3 k
    /\ attempts (fst (invoke Samples.imported (Op_delete_file_from_gs "gs://b/x") 0 blip []))
       = (k + 1)%nat
    /\ sleeps (fst (invoke Samples.imported (Op_delete_file_from_gs "gs://b/x") 0 blip []))
       = repeat 3 k.
Proof.
  apply (every_run_is_bounded Samples.imported (Op_delete_file_from_gs "gs://b/x") 2 0
           blip []); reflexivity.
Defined.

End Bound.

(* ================================================================= *)
(** ** The labels of the log lines *)

Module Labels.
Import PyStr Py Locator Outcome RunFacts Facade Derived.
Open Scope Z_scope.

Section Lines.

Variable P : event -> Prop.

Lemma always_ret {A} (a : A) : always P (ret a).
Proof. intros sdk h. constructor. Qed.

Lemma always_raise {A} (e : exn) : always P (@raise A e).
Proof. intros sdk h. constructor. Qed.

Lemma always_diverge {A} : always P (@diverge A).
Proof. intros sdk h. constructor. Qed.

Lemma always_emit (ev : event) : P ev -> always P (emit ev).
Proof. intros H sdk h. repeat constructor. exact H. Qed.

Lemma always_perform {R} (c : call R) : P (ECall c) -> always P (perform c).
Proof. intros H sdk h. repeat constructor. exact H. Qed.

Lemma always_bind {A B} (m : M A) (f : A -> M B) :
  always P m -> (forall a, always P (f a)) -> always P (bind m f).
Proof.
  intros Hm Hf sdk h. unfold bind.
  specialize (Hm sdk h). destruct (m sdk h) as [es [a| |]]; try exact Hm.
  specialize (Hf a sdk (h ++ es)%list). destruct (f a sdk (h ++ es)%list) as [es' r].
  cbn [fst] in *. apply Forall_app. now split.
Qed.

Lemma always_try {A} (m : M A) (handler : exn -> M A) :
  always P m -> (forall e, always P (handler e)) -> always P (try_except m handler).
Proof.
  intros Hm Hh sdk h. unfold try_except.
  specialize (Hm sdk h). destruct (m sdk h) as [es [a|e|]]; try exact Hm.
  specialize (Hh e sdk (h ++ es)%list). destruct (handler e sdk (h ++ es)%list) as [es' r].
  cbn [fst] in *. apply Forall_app. now split.
Qed.

Lemma always_if {A} (b : bool) (m m' : M A) :
  always P m -> always P m' -> always P (if b then m else m').
Proof. destruct b; auto. Qed.

Lemma always_except_Exception {A} (handler : exn -> M A) (e : exn) :
  always P (handler e) -> always P (Storage.except_Exception handler e).
Proof.
  intros H. unfold Storage.except_Exception.
  destruct (isinstance_Exception e); [exact H | apply always_raise].
Qed.

Lemma always_fmap {A B} (f : A -> B) (m : M A) : always P m -> always P (fmap f m).
Proof. intros Hm sdk h. rewrite run_fmap. apply Hm. Qed.

End Lines.

Create HintDb lines.
#[local] Hint Resolve always_ret always_raise always_diverge always_perform always_bind
  always_try always_if always_except_Exception always_fmap : lines.

Lemma labelled_log_text labels text sev :
  always (labelled labels) (log_text text sev labels).
Proof. apply always_emit. reflexivity. Qed.

Lemma labelled_sleep labels seconds : always (labelled labels) (sleep seconds).
Proof. apply always_emit. exact I. Qed.

Lemma labelled_attempt labels fn retry : always (labelled labels) (attempt fn retry).
Proof. apply always_emit. exact I. Qed.

#[local] Hint Resolve labelled_log_text labelled_sleep labelled_attempt : lines.
#[local] Hint Extern 1 (labelled _ (ECall _)) => exact I : lines.

Ltac lines_block blk :=
  unfold blk;
  repeat match goal with |- context [let (_, _) := ?p in _] => destruct p end;
  auto 30 with lines.

Tactic Notation "lines_rec" reference(rec) :=
  let n := fresh "n" in
  let IH := fresh "IH" in
  let retry := fresh "retry" in
  intros budget; induction budget as [|n IH]; intros retry; cbn [rec];
  auto 40 with lines.

Section Labelled.

Variable labels : label_set.

Local Abbreviation ok := (always (labelled labels)).

Lemma labelled_file_exist_gs p : ok (Storage.file_exist_gs labels p).
Proof. lines_block Storage.file_exist_gs. Qed.

Lemma labelled_move_file_gs_rec a b dl :
  forall budget retry, ok (Storage.move_file_gs_rec labels budget a b dl retry).
Proof.
  assert (Htry : ok (Storage.move_file_gs_try labels a b dl))
    by (destruct dl; lines_block Storage.move_file_gs_try).
  lines_rec Storage.move_file_gs_rec.
Qed.

Lemma labelled_rename_gs p n : ok (Storage.rename_gs labels p n).
Proof. unfold Storage.rename_gs. lines_block Storage.rename_gs_try. Qed.

Lemma labelled_download_file_from_gs_rec p l :
  forall budget retry, ok (Storage.download_file_from_gs_rec labels budget p l retry).
Proof.
  assert (Htry : ok (Storage.download_file_from_gs_try labels p l)).
  { unfold Storage.download_file_from_gs_try.
    repeat match goal with |- context [let (_, _) := ?p in _] => destruct p end.
    apply always_bind; [auto with lines | intros _].
    apply always_bind; [auto with lines | intros [|]]; auto 20 with lines. }
  lines_rec Storage.download_file_from_gs_rec.
Qed.

Lemma labelled_upload_file_to_gs_rec l p dl :
  forall budget retry, ok (Storage.upload_file_to_gs_rec labels budget l p dl retry).
Proof.
  assert (Htry : ok (Storage.upload_file_to_gs_try labels l p dl))
    by (destruct dl; lines_block Storage.upload_file_to_gs_try).
  lines_rec Storage.upload_file_to_gs_rec.
Qed.

Lemma labelled_files_of_blobs bucket names : ok (Storage.files_of_blobs bucket names).
Proof.
  induction names as [|n names IH]; cbn [Storage.files_of_blobs]; auto with lines.
  destruct (last_char n); auto with lines.
Qed.

Lemma labelled_list_files_from_gs p r : ok (Storage.list_files_from_gs labels p r).
Proof.
  pose proof labelled_files_of_blobs as Hfiles.
  unfold Storage.list_files_from_gs. apply always_try; [|auto 10 with lines].
  destruct (last_char p); [|auto with lines].
  match goal with |- context [let (_, _) := ?x in _] => destruct x end.
  auto 20 with lines.
Qed.

Lemma labelled_delete_file_from_gs_rec p :
  forall budget retry, ok (Storage.delete_file_from_gs_rec labels budget p retry).
Proof.
  assert (Htry : ok (Storage.delete_file_from_gs_try labels p))
    by lines_block Storage.delete_file_from_gs_try.
  lines_rec Storage.delete_file_from_gs_rec.
Qed.

Lemma labelled_wait_table fuel d t b : ok (Bq.wait_table fuel d t b).
Proof.
  revert b. induction fuel as [|n IH]; intros [|]; cbn [Bq.wait_table];
    auto 20 with lines.
Qed.

Lemma labelled_createwait_table_rec fuel d t s :
  forall budget retry, ok (Bq.createwait_table_rec labels budget fuel d t s retry).
Proof.
  pose proof (labelled_wait_table fuel d t false) as Hwait.
  assert (Htry : ok (Bq.createwait_table_try labels fuel d t s))
    by lines_block Bq.createwait_table_try.
  lines_rec Bq.createwait_table_rec.
Qed.

Lemma labelled_build_schema_from_list l m : ok (Bq.build_schema_from_list labels l m).
Proof.
  unfold Bq.build_schema_from_list. apply always_try; [|auto 10 with lines].
  apply always_bind; [|auto with lines].
  intros sdk h. constructor.
Qed.

Lemma labelled_build_schema_from_non_dict v : ok (Bq.build_schema_from_non_dict labels v).
Proof. lines_block Bq.build_schema_from_non_dict. Qed.

Lemma labelled_vals_loop ub k v vals acc : ok (Bq.vals_loop labels ub k v vals acc).
Proof.
  pose proof (labelled_build_schema_from_non_dict v) as Hnon.
  revert acc. induction vals as [|val vals IH]; intros acc; cbn [Bq.vals_loop];
    [auto with lines|].
  destruct val; [apply IH|..];
    (destruct ub; cbn [Bq.or_isinstance_unicode]; auto with lines).
Qed.

Lemma labelled_build_schema_from_dict ub v m : ok (Bq.build_schema_from_dict labels ub v m).
Proof.
  induction v as [s|items IH|elems|s t] using pyval_nested_ind;
    cbn [Bq.build_schema_from_dict];
    try apply labelled_build_schema_from_non_dict.
  apply always_bind.
  - match goal with |- always _ (?loop items []) =>
      enough (Hloop : forall acc, ok (loop items acc)) by apply Hloop
    end.
    induction IH as [|[k v] items Hv _ IHitems]; intros acc.
    + apply always_ret.
    + cbn [snd] in Hv. lazy beta iota fix.
      destruct v as [s|sub|vals|s t]; [apply IHitems|..];
        (destruct ub; cbn [Bq.or_isinstance_unicode]; [|apply always_ret]).
      * apply always_bind; [exact Hv | intros; apply IHitems].
      * apply always_bind; [apply labelled_vals_loop|].
        intros [sb [e|]]; [apply always_ret | apply IHitems].
      * apply always_bind; [apply labelled_log_text | intros; apply IHitems].
  - intros [sb [e|]]; auto 10 with lines.
Qed.

Lemma labelled_wait_job timeout job_id text : ok (Bq.wait_job labels timeout job_id text).
Proof. lines_block Bq.wait_job. Qed.

Lemma labelled_insert_file_rec timeout p d t s f w fd q lr mb :
  forall budget retry,
    ok (Bq.insert_file_rec labels timeout budget p d t s f w fd q lr mb retry).
Proof.
  pose proof labelled_wait_job as Hwait.
  assert (Htry : ok (Bq.insert_file_try labels timeout p d t s f w fd q lr mb))
    by lines_block Bq.insert_file_try.
  lines_rec Bq.insert_file_rec.
Qed.

Lemma labelled_run_queryjob_rec timeout d t q l w a :
  forall budget retry, ok (Bq.run_queryjob_rec labels timeout budget d t q l w a retry).
Proof.
  pose proof labelled_wait_job as Hwait.
  assert (Htry : ok (Bq.run_queryjob_try labels timeout d t q l w a))
    by lines_block Bq.run_queryjob_try.
  lines_rec Bq.run_queryjob_rec.
Qed.

Lemma labelled_run_extractjob_rec timeout u d t c f fd ph :
  forall budget retry,
    ok (Bq.run_extractjob_rec labels timeout budget u d t c f fd ph retry).
Proof.
  pose proof labelled_wait_job as Hwait.
  assert (Htry : ok (Bq.run_extractjob_try labels timeout u d t c f fd ph))
    by lines_block Bq.run_extractjob_try.
  lines_rec Bq.run_extractjob_rec.
Qed.

Lemma labelled_publish_rec json_dumps bytes_repr p t m a :
  forall budget retry,
    ok (Publisher.publish_rec json_dumps bytes_repr budget labels p t m a retry).
Proof.
  assert (Hens : forall topic, ok (Publisher.ensure_topic topic))
    by (intros topic; lines_block Publisher.ensure_topic).
  assert (Htry : forall topic data attrs,
            ok (Publisher.publish_try bytes_repr labels topic data attrs))
    by (intros topic data attrs; lines_block Publisher.publish_try).
  intros budget. induction budget as [|n IH]; intros retry; cbn [Publisher.publish_rec];
    destruct a; auto 40 with lines.
Qed.

Lemma labelled_subscribe bound p t s c : ok (Subscriber.subscribe bound labels p t s c).
Proof.
  unfold Subscriber.subscribe, Subscriber.ensure_subscription.
  apply always_bind; [destruct bound; auto 20 with lines | intros status].
  apply always_bind; [auto with lines | intros _].
  apply always_bind; [auto with lines | intros _].
  apply always_try; [auto with lines | intros e].
  destruct (exn_cls e); auto with lines.
Qed.

End Labelled.

(** X25.  Every line an operation logs carries the labels of the
    instance (for [publish] and [subscribe], the labels they were
    given): on any outside world, from any history, at any attempt and
    whatever the severity of the line. *)
Theorem every_line_is_labelled (cf : config) (op : operation) (retry : Z)
        (sdk : oracle) (h : list event) :
  Forall (labelled (labels cf)) (fst (invoke cf op retry sdk h)).
Proof.
  revert sdk h. change (always (labelled (labels cf)) (invoke cf op retry)).
  destruct op; cbn [invoke]; apply always_fmap.
  - apply labelled_file_exist_gs.
  - unfold Storage.move_file_gs. apply labelled_move_file_gs_rec.
  - unfold Storage.move_file_gs. apply labelled_move_file_gs_rec.
  - apply labelled_rename_gs.
  - unfold Storage.download_file_from_gs. apply labelled_download_file_from_gs_rec.
  - unfold Storage.upload_file_to_gs. apply labelled_upload_file_to_gs_rec.
  - apply labelled_list_files_from_gs.
  - unfold Storage.delete_file_from_gs. apply labelled_delete_file_from_gs_rec.
  - unfold Bq.createwait_table. apply labelled_createwait_table_rec.
  - apply labelled_build_schema_from_list.
  - apply labelled_build_schema_from_dict.
  - unfold Bq.insert_file. apply labelled_insert_file_rec.
  - unfold Bq.run_queryjob. apply labelled_run_queryjob_rec.
  - unfold Bq.run_extractjob. apply labelled_run_extractjob_rec.
  - unfold Publisher.publish. apply labelled_publish_rec.
  - apply labelled_subscribe.
Qed.

End Labels.

(* ================================================================= *)
(** ** The provisos of the model *)

Module Provisos.
Import PyStr Py Locator Outcome RunFacts Facade Derived.

(** With the logger of the model, the function over a logger is the
    function itself. *)
Lemma file_exist_gs_over_log_text (labels : label_set) (gsPath : string) :
  file_exist_gs_over log_text labels gsPath = Storage.file_exist_gs labels gsPath.
Proof. reflexivity. Qed.

(** What the proviso on the logger leaves out.  The lines of a failure
    are logged inside the [except] handler, where nothing takes an
    exception: when the bucket lookup fails and the logger raises on
    the ERROR line, the exception of the logger reaches the caller,
    though it derives from [Exception]. *)
Lemma logger_failure_escapes (labels : label_set) (gsPath : string)
      (sdk : oracle) (h : list event) (e e' : exn) :
  sdk unit h (get_bucket (fst (extractBucketFile gsPath))) = Raise e ->
  isinstance_Exception e = true ->
  file_exist_gs_over (fun _ _ _ => raise e') labels gsPath sdk h
  = ([ECall (get_bucket (fst (extractBucketFile gsPath)))], Exn e').
Proof.
  intros E HE. unfold file_exist_gs_over.
  rewrite (surjective_pairing (extractBucketFile gsPath)).
  unfold try_except, Storage.except_Exception, perform, raise. run_events.
  rewrite E. cbn [fst snd app]. rewrite HE. reflexivity.
Qed.

Lemma bind_ret_run {A B} (a : A) (f : A -> M B) sdk h :
  bind (ret a) f sdk h = f a sdk h.
Proof.
  unfold bind, ret. rewrite app_nil_r. now destruct (f a sdk h).
Qed.

(** With the logger of the model, a message that encodes and
    attributes that serialise, the function over them is [publish]. *)
Lemma publish_over_model (json_dumps : list (string * string) -> string)
      (bytes_repr : string -> string) (labels : label_set)
      (project_id topic_name message : string)
      (attributes : option (list (string * string))) :
  forall budget retry sdk h,
    publish_over log_text (fun s => ret s) (fun d => ret (json_dumps d)) bytes_repr budget
      labels project_id topic_name message attributes retry sdk h
    = Publisher.publish_rec json_dumps bytes_repr budget labels project_id topic_name
        message attributes retry sdk h.
Proof.
  assert (Hbind : forall A B (m : M A) (f g : A -> M B) sdk h,
            (forall a h', f a sdk h' = g a sdk h') -> bind m f sdk h = bind m g sdk h).
  { intros A B m f g sdk h Hfg. unfold bind.
    destruct (m sdk h) as [es [a|e|]]; try reflexivity. now rewrite Hfg. }
  assert (Htry : forall A (m : M A) (f g : exn -> M A) sdk h,
            (forall e h', f e sdk h' = g e sdk h') ->
            try_except m f sdk h = try_except m g sdk h).
  { intros A m f g sdk h Hfg. unfold try_except.
    destruct (m sdk h) as [es [a|e|]]; try reflexivity. now rewrite Hfg. }
  intros budget. induction budget as [|n IH]; intros retry sdk h;
    cbn [publish_over Publisher.publish_rec];
    apply Hbind; intros _ h1; apply Hbind; intros status h2;
    apply Hbind; intros _ h3; rewrite bind_ret_run;
    (destruct attributes as [d|]; [rewrite !bind_ret_run|apply Hbind; intros attrs h4]);
    unfold Publisher.publish_try; apply Htry; intros e h5;
    unfold Storage.except_Exception; destruct (isinstance_Exception e); try reflexivity;
    apply Hbind; intros _ h6; destruct (retry <? 2); try reflexivity;
    apply Hbind; intros _ h7; try reflexivity; apply IH.
Qed.

(** What the proviso on the arguments leaves out.  [publish] encodes
    the message after the topic check and before its [try] block: a
    message on which [encode] raises ends the call there, on the first
    attempt, with the exception. *)
Lemma encode_failure_escapes (dumps : list (string * string) -> M string)
      (bytes_repr : string -> string)
      (budget : nat) (labels : label_set) (project_id topic_name message : string)
      (attributes : option (list (string * string))) (retry : Z)
      (sdk : oracle) (h : list event) (e : exn) :
  sdk unit (h ++ [EAttempt "publish" retry])%list
    (get_topic (Publisher.topic_path project_id topic_name)) = Ret tt ->
  publish_over log_text (fun _ => raise e) dumps bytes_repr budget labels project_id
    topic_name message attributes retry sdk h
  = ([EAttempt "publish" retry;
      ECall (get_topic (Publisher.topic_path project_id topic_name));
      ELog DEBUG "Topic request status : topic exists" labels], Exn e).
Proof.
  intros E. destruct budget; cbn [publish_over];
    unfold Publisher.ensure_topic, try_except, perform, raise; run_events;
    rewrite E; reflexivity.
Qed.

End Provisos.
